(** * CodeForge IDE: command catalog and shortcut dispatcher

    A shallow embedding of [src/components/commands/CommandRegistry.ts],
    [src/components/commands/KeyboardManager.ts] and the declarations of
    [components/commands/types], followed by the properties of the
    specification that are stated about them.

    Modelling conventions.
    - A JavaScript string is a sequence of UTF-16 code units.  The model keeps
      the code units below 256 (the Latin-1 range), one [ascii] each; on that
      range [trim], [toLowerCase], [startsWith], [includes], [===] and
      [length] are modelled exactly.
    - [Map] and [Set] iterate in insertion order: they are association lists
      and lists.
    - [Array.prototype.sort] is stable; it is modelled by a stable insertion
      sort driven by the comparator's sign.
    - Numbers that the code only uses as integers (scores, priorities,
      lengths, time stamps) are [Z].
    - Callbacks ([execute], [canExecute], observers) act on an external state
      of an arbitrary type; they do not re-enter the catalog. *)

From Stdlib Require Import List ZArith QArith Qround Lia Bool String Ascii NArith.
From Stdlib Require Import Sorting.Sorted Sorting.Permutation.
From Stdlib Require Import Floats.PrimFloat Floats.SpecFloat Floats.FloatOps.
From Stdlib Require Import Numbers.Cyclic.Int63.Uint63.
Import ListNotations.

Local Open Scope string_scope.
Local Open Scope Z_scope.

(* ================================================================== *)
(** * Part I: the program                                              *)
(* ================================================================== *)

(** ** JavaScript strings *)

Module JSString.

Definition code (c : ascii) : N := N_of_ascii c.

(** White space and line terminators below 256: TAB, LF, VT, FF, CR, SP and
    NBSP. *)
Definition isWhiteSpace (c : ascii) : bool :=
  let n := code c in
  (((9 <=? n) && (n <=? 13)) || (n =? 32) || (n =? 160))%N.

(** Code units with a lower-case mapping: A-Z, and U+00C0..U+00DE but the
    multiplication sign U+00D7. *)
Definition isUpper (c : ascii) : bool :=
  let n := code c in
  (((65 <=? n) && (n <=? 90))
   || ((192 <=? n) && (n <=? 222) && negb (n =? 215)))%N.

Definition lowerChar (c : ascii) : ascii :=
  if isUpper c then ascii_of_N (code c + 32) else c.

Fixpoint toLowerCase (s : string) : string :=
  match s with
  | EmptyString => EmptyString
  | String c r => String (lowerChar c) (toLowerCase r)
  end.

Fixpoint trimStart (s : string) : string :=
  match s with
  | EmptyString => EmptyString
  | String c r => if isWhiteSpace c then trimStart r else s
  end.

Definition isEmpty (s : string) : bool :=
  match s with EmptyString => true | _ => false end.

Fixpoint trimEnd (s : string) : string :=
  match s with
  | EmptyString => EmptyString
  | String c r =>
      let r' := trimEnd r in
      if isWhiteSpace c && isEmpty r' then EmptyString else String c r'
  end.

Definition trim (s : string) : string := trimEnd (trimStart s).

(** An empty or white-space-only string. *)
Fixpoint isBlank (s : string) : bool :=
  match s with
  | EmptyString => true
  | String c r => isWhiteSpace c && isBlank r
  end.

(** A string that does not begin with white space. *)
Definition cleanHead (s : string) : Prop :=
  match s with
  | EmptyString => True
  | String c _ => isWhiteSpace c = false
  end.

(** [s.startsWith(p)] *)
Fixpoint startsWith (s p : string) : bool :=
  match p, s with
  | EmptyString, _ => true
  | String _ _, EmptyString => false
  | String a p', String b s' => Ascii.eqb a b && startsWith s' p'
  end.

(** [s.includes(p)]: [p] occurs in [s] at some position. *)
Fixpoint includes (s p : string) : bool :=
  startsWith s p ||
  match s with
  | EmptyString => false
  | String _ s' => includes s' p
  end.

Definition length (s : string) : Z := Z.of_nat (String.length s).

(** [xs.join(sep)] *)
Definition join (sep : string) (xs : list string) : string :=
  String.concat sep xs.

(** The empty string is the only falsy string. *)
Definition truthy (s : string) : bool := negb (isEmpty s).

End JSString.

(** ** JavaScript arrays *)

Module JSArray.
Section Sort.
Context {A : Type}.
Variable cmp : A -> A -> Z.

(** [x] goes in front of the first element it does not have to follow,
    so elements that compare equal keep their relative order. *)
Fixpoint insert (x : A) (l : list A) : list A :=
  match l with
  | [] => [x]
  | y :: r => if cmp x y <=? 0 then x :: y :: r else y :: insert x r
  end.

Fixpoint sort (l : list A) : list A :=
  match l with
  | [] => []
  | x :: r => insert x (sort r)
  end.

(** The order a comparator induces: [x] need not follow [y]. *)
Definition before (x y : A) : Prop := cmp x y <= 0.
End Sort.

(** [l.slice(0, count)] for an integer [count]; a negative [count] counts
    from the end of the array. *)
Definition slice0 {A : Type} (l : list A) (count : Z) : list A :=
  let len := Z.of_nat (List.length l) in
  let stop := if count <? 0 then Z.max (len + count) 0 else Z.min count len in
  firstn (Z.to_nat stop) l.
End JSArray.

(** ** JavaScript maps, in insertion order *)

Module JSMap.
Section Map.
Context {V : Type}.

Definition t : Type := list (string * V).

Definition empty : t := [].

Fixpoint get (k : string) (m : t) : option V :=
  match m with
  | [] => None
  | (k', v) :: r => if String.eqb k k' then Some v else get k r
  end.

Definition has (k : string) (m : t) : bool :=
  match get k m with Some _ => true | None => false end.

(** [m.set(k, v)]: a present key keeps its place, a new one goes last. *)
Fixpoint set (k : string) (v : V) (m : t) : t :=
  match m with
  | [] => [(k, v)]
  | (k', v') :: r =>
      if String.eqb k k' then (k', v) :: r else (k', v') :: set k v r
  end.

Fixpoint delete (k : string) (m : t) : t :=
  match m with
  | [] => []
  | (k', v') :: r =>
      if String.eqb k k' then r else (k', v') :: delete k r
  end.

Definition values (m : t) : list V := map snd m.
Definition keys (m : t) : list string := map fst m.
End Map.
Arguments t : clear implicits.
End JSMap.

(** ** Declarations of [components/commands/types] *)

Module CommandCategory.
Inductive t : Type :=
| theme | file | edit | view | search | git
| terminal | debug | help | extension | general.

(** The string each member of the union type stands for. *)
Definition toString (c : t) : string :=
  match c with
  | theme => "theme" | file => "file" | edit => "edit" | view => "view"
  | search => "search" | git => "git" | terminal => "terminal"
  | debug => "debug" | help => "help" | extension => "extension"
  | general => "general"
  end.

Definition eqb (a b : t) : bool := String.eqb (toString a) (toString b).
End CommandCategory.

Module KeyModifier.
Inductive t : Type := ctrl | shift | alt | meta.

Definition toString (m : t) : string :=
  match m with
  | ctrl => "ctrl" | shift => "shift" | alt => "alt" | meta => "meta"
  end.

Definition eqb (a b : t) : bool := String.eqb (toString a) (toString b).

(** [modifiers.includes(m)] *)
Definition includes (ms : list t) (m : t) : bool := existsb (eqb m) ms.

(** The comparator of [sort()] without an argument: code-unit order of the
    strings. *)
Definition defaultCompare (a b : t) : Z :=
  match String.compare (toString a) (toString b) with
  | Lt => -1 | Eq => 0 | Gt => 1
  end.
End KeyModifier.

Module KeyboardShortcut.
Record t : Type := mk {
  key : string;
  modifiers : option (list KeyModifier.t);
  displayText : option string
}.
End KeyboardShortcut.

Module Source.
Inductive t : Type := palette | keyboard | menu | programmatic.
End Source.

Module CommandExecutionContext.
Record t (Args : Type) : Type := mk {
  commandId : string;
  timestamp : Z;
  source : Source.t;
  args : option Args
}.
Arguments mk {Args}.
Arguments commandId {Args}.
Arguments timestamp {Args}.
Arguments source {Args}.
Arguments args {Args}.
End CommandExecutionContext.

Module CommandAction.
(** [execute] settles with [None] when it resolves and with [Some e] when it
    throws or rejects with [e]; both callbacks see the external state. *)
Record t (Args Err Ext : Type) : Type := mk {
  id : string;
  execute : option Args -> Ext -> Ext * option Err;
  canExecute : option (Ext -> bool)
}.
Arguments mk {Args Err Ext}.
Arguments id {Args Err Ext}.
Arguments execute {Args Err Ext}.
Arguments canExecute {Args Err Ext}.
End CommandAction.

Module Command.
Record t (Args Err Ext : Type) : Type := mk {
  id : string;
  title : string;
  description : option string;
  category : CommandCategory.t;
  keywords : option (list string);
  keybinding : option KeyboardShortcut.t;
  action : CommandAction.t Args Err Ext;
  priority : option Z;
  hidden : option bool
}.
Arguments mk {Args Err Ext}.
Arguments id {Args Err Ext}.
Arguments title {Args Err Ext}.
Arguments description {Args Err Ext}.
Arguments category {Args Err Ext}.
Arguments keywords {Args Err Ext}.
Arguments keybinding {Args Err Ext}.
Arguments action {Args Err Ext}.
Arguments priority {Args Err Ext}.
Arguments hidden {Args Err Ext}.

Section Derived.
Context {Args Err Ext : Type}.
(** [command.priority || 0] *)
Definition priorityOr0 (c : t Args Err Ext) : Z :=
  match priority c with Some p => p | None => 0 end.
(** truthiness of [command.hidden] *)
Definition isHidden (c : t Args Err Ext) : bool :=
  match hidden c with Some b => b | None => false end.
End Derived.
End Command.

(** ** The host: console, clock, external state, and a record of the calls
    made into callbacks *)

Module Host.
Inductive Level : Type := warn | error.

Inductive Event (Args Err : Type) : Type :=
| Log (level : Level) (message : string) (detail : option Err)
| Executed (commandId : string) (args : option Args)
| Notified (listener : nat) (commandId : string).
Arguments Log {Args Err}.
Arguments Executed {Args Err}.
Arguments Notified {Args Err}.

(** [trace] is in chronological order. *)
Record t (Args Err Ext : Type) : Type := mk {
  trace : list (Event Args Err);
  clock : Z;
  ext : Ext
}.
Arguments mk {Args Err Ext}.
Arguments trace {Args Err Ext}.
Arguments clock {Args Err Ext}.
Arguments ext {Args Err Ext}.

Definition isNotified {Args Err : Type} (e : Event Args Err) : bool :=
  match e with Notified _ _ => true | _ => false end.

Definition isExecuted {Args Err : Type} (e : Event Args Err) : bool :=
  match e with Executed _ _ => true | _ => false end.

(** The quotation mark of the template literals. *)
Definition dq : string := String (ascii_of_N 34) EmptyString.
Definition quoted (s : string) : string := dq ++ s ++ dq.
End Host.

(** ** State and exceptions *)

Module Eff.
Inductive Completion (Err A : Type) : Type :=
| Normal (a : A)
| Throw (e : Err).
Arguments Normal {Err A}.
Arguments Throw {Err A}.

Definition M (Err S A : Type) : Type := S -> Completion Err A * S.

Section Ops.
Context {Err S : Type}.

Definition ret {A} (a : A) : M Err S A := fun s => (Normal a, s).

Definition bind {A B} (m : M Err S A) (k : A -> M Err S B) : M Err S B :=
  fun s =>
    match m s with
    | (Normal a, s') => k a s'
    | (Throw e, s') => (Throw e, s')
    end.

Definition throw {A} (e : Err) : M Err S A := fun s => (Throw e, s).

Definition tryCatch {A} (m : M Err S A) (h : Err -> M Err S A)
  : M Err S A :=
  fun s =>
    match m s with
    | (Normal a, s') => (Normal a, s')
    | (Throw e, s') => h e s'
    end.

Definition gets {A} (f : S -> A) : M Err S A := fun s => (Normal (f s), s).

Definition modify (f : S -> S) : M Err S unit := fun s => (Normal tt, f s).

Fixpoint forEach {A} (l : list A) (f : A -> M Err S unit)
  : M Err S unit :=
  match l with
  | [] => ret tt
  | x :: r => bind (f x) (fun _ => forEach r f)
  end.
End Ops.

Declare Scope eff_scope.
Delimit Scope eff_scope with eff.
Notation "x <- m ;; k" := (bind m (fun x => k))
  (at level 61, m at next level, right associativity) : eff_scope.
Notation "m ;; k" := (bind m (fun _ => k))
  (at level 61, right associativity) : eff_scope.
End Eff.

(** ** [class CommandHistoryImpl] *)

Module CommandHistoryImpl.
Section History.
Context {Args : Type}.

Record t : Type := mk { entries : list (CommandExecutionContext.t Args) }.

(** [public readonly maxEntries: number = 100] *)
Definition maxEntries : Z := 100.

Definition new : t := {| entries := [] |}.

Definition add (context : CommandExecutionContext.t Args) (h : t) : t :=
  let unshifted := context :: entries h in
  if maxEntries <? Z.of_nat (List.length unshifted)
  then {| entries := JSArray.slice0 unshifted maxEntries |}
  else {| entries := unshifted |}.

Definition clear (h : t) : t := {| entries := [] |}.

Definition getRecent (count : Z) (h : t)
  : list (CommandExecutionContext.t Args) :=
  JSArray.slice0 (entries h) count.

(** Not a method: the history after the calls [add(c)] for the records [c]
    of [added], in that order. *)
Definition afterAdds (added : list (CommandExecutionContext.t Args)) (h : t)
  : t :=
  fold_left (fun h c => add c h) added h.
End History.
Arguments t : clear implicits.
End CommandHistoryImpl.

(** ** [class CommandRegistryImpl] *)

Module CommandRegistryImpl.
Import Eff.
Local Open Scope eff_scope.

Section Registry.
Context {Args Err Ext : Type}.

Local Abbreviation Command := (Command.t Args Err Ext).
Local Abbreviation Host := (Host.t Args Err Ext).

(** An execution observer; [handle] stands for the identity of the
    function object in the [Set]. *)
Record Listener : Type := mkListener {
  handle : nat;
  notify : Command -> option Args -> Ext -> Ext * option Err
}.

Record t : Type := mk {
  commands : JSMap.t Command;
  history : CommandHistoryImpl.t Args;
  listeners : list Listener
}.

Definition new : t :=
  {| commands := JSMap.empty;
     history := CommandHistoryImpl.new;
     listeners := [] |}.

(** The state a method of the registry runs in. *)
Record World : Type := mkWorld { self : t; host : Host }.

Local Abbreviation Method := (M Err World).

Definition setCommands (f : JSMap.t Command -> JSMap.t Command)
  : Method unit :=
  modify (fun w =>
    {| self := {| commands := f (commands (self w));
                  history := history (self w);
                  listeners := listeners (self w) |};
       host := host w |}).

Definition setHistory
    (f : CommandHistoryImpl.t Args -> CommandHistoryImpl.t Args)
  : Method unit :=
  modify (fun w =>
    {| self := {| commands := commands (self w);
                  history := f (history (self w));
                  listeners := listeners (self w) |};
       host := host w |}).

Definition setListeners (f : list Listener -> list Listener)
  : Method unit :=
  modify (fun w =>
    {| self := {| commands := commands (self w);
                  history := history (self w);
                  listeners := f (listeners (self w)) |};
       host := host w |}).

Definition emit (e : Host.Event Args Err) : Method unit :=
  modify (fun w =>
    {| self := self w;
       host := {| Host.trace := (Host.trace (host w) ++ [e])%list;
                  Host.clock := Host.clock (host w);
                  Host.ext := Host.ext (host w) |} |}).

Definition consoleWarn (message : string) : Method unit :=
  emit (Host.Log Host.warn message None).

Definition consoleError (message : string) (detail : option Err)
  : Method unit :=
  emit (Host.Log Host.error message detail).

(** Running a callback on the external state. *)
Definition call {A} (f : Ext -> Ext * A) : Method A :=
  fun w =>
    let (ext', a) := f (Host.ext (host w)) in
    (Normal a,
     {| self := self w;
        host := {| Host.trace := Host.trace (host w);
                   Host.clock := Host.clock (host w);
                   Host.ext := ext' |} |}).

(** The world after a method that left the registry alone, appended [events]
    to the trace and left the external state at [ext]. *)
Definition logged (w : World) (events : list (Host.Event Args Err))
    (ext : Ext) : World :=
  {| self := self w;
     host := {| Host.trace := (Host.trace (host w) ++ events)%list;
                Host.clock := Host.clock (host w);
                Host.ext := ext |} |}.

(** A callback that may throw. *)
Definition callThrowing (f : Ext -> Ext * option Err) : Method unit :=
  r <- call f ;;
  match r with
  | None => ret tt
  | Some e => throw e
  end.

Definition register (command : Command) : Method unit :=
  cs <- gets (fun w => commands (self w)) ;;
  if JSMap.has (Command.id command) cs
  then consoleWarn ("Command with ID " ++ Host.quoted (Command.id command)
                      ++ " is already registered")
  else setCommands (JSMap.set (Command.id command) command).

Definition registerAll (cs : list Command) : Method unit :=
  forEach cs register.

Definition unregister (commandId : string) : Method unit :=
  setCommands (JSMap.delete commandId).

Definition get (commandId : string) (r : t) : option Command :=
  JSMap.get commandId (commands r).

Definition getAll (r : t) : list Command :=
  JSArray.sort
    (fun a b => Command.priorityOr0 b - Command.priorityOr0 a)
    (filter (fun command => negb (Command.isHidden command))
            (JSMap.values (commands r))).

Definition getByCategory (category : CommandCategory.t) (r : t)
  : list Command :=
  filter (fun command =>
            CommandCategory.eqb (Command.category command) category)
         (getAll r).

(** *** Ranked search *)

(** The value of [calculateFuzzyScore]: an exact fraction, or the [NaN] that
    [0 / 0] evaluates to. *)
Inductive Num : Type := NaN | Ratio (q : Q).

(** [text[i] === query[j]] *)
Definition sameUnit (a b : option ascii) : bool :=
  match a, b with
  | Some x, Some y => Ascii.eqb x y
  | None, None => true
  | _, _ => false
  end.

(** The [for] loop of [calculateFuzzyScore], from the state [(i, score,
    queryIndex)]; it returns the final [(score, queryIndex)].  Each turn
    advances [i], so [text.length] turns are enough: with that much [fuel]
    the loop always ends on its own condition ([fuzzyLoop_greedy]). *)
Fixpoint fuzzyLoop (fuel : nat) (query text : string)
    (i : nat) (score : Z) (queryIndex : nat) : Z * nat :=
  match fuel with
  | O => (score, queryIndex)
  | S fuel' =>
      if (i <? String.length text)%nat
         && (queryIndex <? String.length query)%nat
      then
        if sameUnit (String.get i text) (String.get queryIndex query)
        then fuzzyLoop fuel' query text (i + 1) (score + 1) (queryIndex + 1)
        else fuzzyLoop fuel' query text (i + 1) score queryIndex
      else (score, queryIndex)
  end.

Definition calculateFuzzyScore (query text : string) : Num :=
  let '(score, queryIndex) :=
    fuzzyLoop (String.length text) query text 0 0 0 in
  if (queryIndex =? String.length query)%nat
  then
    if (String.length text =? 0)%nat
    then NaN (* the loop has not run: this is [0 / 0] *)
    else Ratio (score # Pos.of_nat (String.length text))
  else Ratio 0.

Record Scored : Type := mkScored { command : Command; score : Z }.

(** [value || ''] for an optional string *)
Definition orEmpty (s : option string) : string :=
  match s with Some v => v | None => "" end.

(** The body of the [for ... of] loop of [search], up to the final test
    [score > 0]. *)
Definition scoreOf (normalizedQuery : string) (command : Command) : Z :=
  let score := 0 in
  let title := JSString.toLowerCase (Command.title command) in
  let description :=
    orEmpty (option_map JSString.toLowerCase (Command.description command)) in
  let keywords :=
    orEmpty (option_map (fun ks => JSString.toLowerCase (JSString.join " " ks))
                        (Command.keywords command)) in
  let score :=
    if String.eqb title normalizedQuery then score + 100
    else if JSString.startsWith title normalizedQuery then score + 80
    else if JSString.includes title normalizedQuery then score + 60
    else score in
  let score :=
    if JSString.includes description normalizedQuery
    then score + 40 else score in
  let score :=
    if JSString.includes keywords normalizedQuery
    then score + 30 else score in
  let score :=
    if JSString.includes
         (JSString.toLowerCase
            (CommandCategory.toString (Command.category command)))
         normalizedQuery
    then score + 20 else score in
  let score :=
    if score =? 0 then
      match calculateFuzzyScore normalizedQuery title with
      | Ratio fuzzyScore =>
          if Qle_bool fuzzyScore (1 # 2) then score
          else Qfloor (fuzzyScore * 20)
      | NaN => score
      end
    else score in
  score.

Fixpoint searchLoop (normalizedQuery : string) (cs : list Command)
    (results : list Scored) : list Scored :=
  match cs with
  | [] => results
  | command :: rest =>
      if Command.isHidden command
      then searchLoop normalizedQuery rest results
      else
        let score := scoreOf normalizedQuery command in
        if 0 <? score
        then searchLoop normalizedQuery rest
               (results ++ [{| command := command; score := score |}])%list
        else searchLoop normalizedQuery rest results
  end.

(** [String.prototype.localeCompare] is the host's collation. *)
Variable localeCompare : string -> string -> Z.

(** The comparator handed to [results.sort]. *)
Definition rankCompare (a b : Scored) : Z :=
  if negb (score a =? score b) then score b - score a
  else if negb (Command.priorityOr0 (command a)
                =? Command.priorityOr0 (command b))
  then Command.priorityOr0 (command b) - Command.priorityOr0 (command a)
  else localeCompare (Command.title (command a)) (Command.title (command b)).

Definition search (query : string) (r : t) : list Command :=
  if negb (JSString.truthy (JSString.trim query)) then getAll r
  else
    let normalizedQuery := JSString.trim (JSString.toLowerCase query) in
    let results :=
      searchLoop normalizedQuery (JSMap.values (commands r)) [] in
    map command (JSArray.sort rankCompare results).

(** *** Execution *)

Definition executeCommand (commandId : string) (args : option Args)
    (source : option Source.t) : Method unit :=
  let source :=
    match source with Some s => s | None => Source.programmatic end in
  r <- gets self ;;
  match get commandId r with
  | None =>
      consoleError ("Command with ID " ++ Host.quoted commandId
                      ++ " not found") None
  | Some command =>
      refused <-
        match CommandAction.canExecute (Command.action command) with
        | None => ret false
        | Some canExecute =>
            ok <- call (fun e => (e, canExecute e)) ;; ret (negb ok)
        end ;;
      if (refused : bool)
      then consoleWarn ("Command " ++ Host.quoted commandId
                          ++ " cannot be executed at this time")
      else
        now <- gets (fun w => Host.clock (host w)) ;;
        let context :=
          {| CommandExecutionContext.commandId := commandId;
             CommandExecutionContext.timestamp := now;
             CommandExecutionContext.source := source;
             CommandExecutionContext.args := args |} in
        tryCatch
          (emit (Host.Executed commandId args) ;;
           callThrowing
             (CommandAction.execute (Command.action command) args) ;;
           setHistory (CommandHistoryImpl.add context) ;;
           ls <- gets (fun w => listeners (self w)) ;;
           forEach ls (fun listener =>
             tryCatch
               (emit (Host.Notified (handle listener) (Command.id command)) ;;
                callThrowing (notify listener command args))
               (fun error =>
                  consoleError "Command listener error:" (Some error))))
          (fun error =>
             consoleError ("Error executing command "
                             ++ Host.quoted commandId ++ ":") (Some error) ;;
             throw error)
  end.

(** [onCommandExecute(listener)]: [Set.add] keeps one copy of a function. *)
Definition onCommandExecute (listener : Listener) : Method unit :=
  setListeners (fun ls =>
    if existsb (fun l => Nat.eqb (handle l) (handle listener)) ls
    then ls else (ls ++ [listener])%list).

(** The capability [onCommandExecute] returns. *)
Definition unsubscribe (listener : Listener) : Method unit :=
  setListeners
    (filter (fun l => negb (Nat.eqb (handle l) (handle listener)))).

Definition clear : Method unit :=
  setCommands (fun _ => JSMap.empty) ;;
  setHistory CommandHistoryImpl.clear.

End Registry.
Arguments t : clear implicits.
Arguments Listener : clear implicits.
Arguments World : clear implicits.
Arguments Scored : clear implicits.
End CommandRegistryImpl.

(** ** [class KeyboardManagerImpl] *)

Module KeyboardEvent.
Record t : Type := mk {
  key : string;
  ctrlKey : bool;
  shiftKey : bool;
  altKey : bool;
  metaKey : bool
}.
End KeyboardEvent.

Module KeyboardManagerImpl.
Import Eff.
Local Open Scope eff_scope.

Section Manager.
Context {Args Err Ext : Type}.

Local Abbreviation Command := (Command.t Args Err Ext).
Local Abbreviation Host := (Host.t Args Err Ext).

Record KeyBinding : Type := mkKeyBinding {
  shortcut : KeyboardShortcut.t;
  commandId : string;
  when : option (Ext -> bool)
}.

Record t : Type := mk {
  keyBindings : JSMap.t KeyBinding;
  isEnabled : bool
}.

Definition new : t := {| keyBindings := JSMap.empty; isEnabled := true |}.

(** The manager's methods also reach the module-level [commandRegistry]. *)
Record World : Type := mkWorld {
  self : t;
  commandRegistry : CommandRegistryImpl.t Args Err Ext;
  host : Host
}.

Local Abbreviation Method := (M Err World).

Definition setKeyBindings (f : JSMap.t KeyBinding -> JSMap.t KeyBinding)
  : Method unit :=
  modify (fun w =>
    {| self := {| keyBindings := f (keyBindings (self w));
                  isEnabled := isEnabled (self w) |};
       commandRegistry := commandRegistry w;
       host := host w |}).

Definition consoleWarn (message : string) : Method unit :=
  modify (fun w =>
    {| self := self w;
       commandRegistry := commandRegistry w;
       host := {| Host.trace :=
                    (Host.trace (host w)
                       ++ [Host.Log Host.warn message None])%list;
                  Host.clock := Host.clock (host w);
                  Host.ext := Host.ext (host w) |} |}).

(** [shortcut.modifiers || []] *)
Definition modifiersOf (shortcut : KeyboardShortcut.t)
  : list KeyModifier.t :=
  match KeyboardShortcut.modifiers shortcut with
  | Some ms => ms
  | None => []
  end.

Definition generateShortcutKey (shortcut : KeyboardShortcut.t) : string :=
  let modifiers := modifiersOf shortcut in
  let sortedModifiers := JSArray.sort KeyModifier.defaultCompare modifiers in
  JSString.join "+" (map KeyModifier.toString sortedModifiers)
    ++ "+" ++ JSString.toLowerCase (KeyboardShortcut.key shortcut).

Definition registerShortcut (commandId : string)
    (shortcut : KeyboardShortcut.t) (when : option (Ext -> bool))
  : Method unit :=
  let key := generateShortcutKey shortcut in
  kb <- gets (fun w => keyBindings (self w)) ;;
  if JSMap.has key kb
  then consoleWarn ("Keyboard shortcut " ++ Host.quoted key
                      ++ " is already registered")
  else setKeyBindings
         (JSMap.set key {| shortcut := shortcut;
                           commandId := commandId;
                           when := when |}).

Definition unregisterShortcut (shortcut : KeyboardShortcut.t)
  : Method unit :=
  setKeyBindings (JSMap.delete (generateShortcutKey shortcut)).

Definition registerCommandShortcuts : Method unit :=
  commands <- gets (fun w => CommandRegistryImpl.getAll (commandRegistry w)) ;;
  forEach commands (fun command =>
    match Command.keybinding command with
    | Some keybinding =>
        registerShortcut (Command.id command) keybinding None
    | None => ret tt
    end).

Definition matchesShortcut (event : KeyboardEvent.t)
    (shortcut : KeyboardShortcut.t) : bool :=
  let modifiers := modifiersOf shortcut in
  if negb (String.eqb (JSString.toLowerCase (KeyboardEvent.key event))
                      (JSString.toLowerCase (KeyboardShortcut.key shortcut)))
  then false
  else
    let hasCtrl := KeyModifier.includes modifiers KeyModifier.ctrl in
    let hasShift := KeyModifier.includes modifiers KeyModifier.shift in
    let hasAlt := KeyModifier.includes modifiers KeyModifier.alt in
    let hasMeta := KeyModifier.includes modifiers KeyModifier.meta in
    Bool.eqb (KeyboardEvent.ctrlKey event) hasCtrl
    && Bool.eqb (KeyboardEvent.shiftKey event) hasShift
    && Bool.eqb (KeyboardEvent.altKey event) hasAlt
    && Bool.eqb (KeyboardEvent.metaKey event) hasMeta.

Definition isShortcutAvailable (shortcut : KeyboardShortcut.t) (m : t)
  : bool :=
  negb (JSMap.has (generateShortcutKey shortcut) (keyBindings m)).

Definition getShortcutForCommand (id : string) (m : t)
  : option KeyboardShortcut.t :=
  option_map shortcut
    (find (fun binding => String.eqb (commandId binding) id)
          (JSMap.values (keyBindings m))).

End Manager.
Arguments t : clear implicits.
Arguments KeyBinding : clear implicits.
Arguments World : clear implicits.
End KeyboardManagerImpl.

(** ** The ranking algorithm as the specification words it

    These definitions follow section 4.1 of the specification, not the
    source; Part II compares them with [CommandRegistryImpl.scoreOf] and
    [CommandRegistryImpl.search]. *)

Module Spec.
Section Ranking.
Context {Args Err Ext : Type}.
Local Abbreviation Command := (Command.t Args Err Ext).

Definition lowerTitle (c : Command) : string :=
  JSString.toLowerCase (Command.title c).

Definition lowerDescription (c : Command) : string :=
  match Command.description c with
  | Some d => JSString.toLowerCase d
  | None => ""
  end.

Definition joinedKeywords (c : Command) : string :=
  match Command.keywords c with
  | Some ks => JSString.toLowerCase (JSString.join " " ks)
  | None => ""
  end.

Definition lowerCategory (c : Command) : string :=
  JSString.toLowerCase (CommandCategory.toString (Command.category c)).

(** Rules 1 to 3: exact, else starts-with, else contains. *)
Definition titlePoints (q : string) (c : Command) : Z :=
  if String.eqb (lowerTitle c) q then 100
  else if JSString.startsWith (lowerTitle c) q then 80
  else if JSString.includes (lowerTitle c) q then 60
  else 0.

(** Rule 4: the three additive bonuses. *)
Definition bonusPoints (q : string) (c : Command) : Z :=
  (if JSString.includes (lowerDescription c) q then 40 else 0)
  + (if JSString.includes (joinedKeywords c) q then 30 else 0)
  + (if JSString.includes (lowerCategory c) q then 20 else 0).

Definition rulePoints (q : string) (c : Command) : Z :=
  titlePoints q c + bonusPoints q c.

(** Rule 5: walk the title left to right and match successive query
    characters greedily.  The result is the number of characters matched and
    the part of the query left unmatched. *)
Fixpoint greedy (title query : string) : Z * string :=
  match title, query with
  | String t title', String q query' =>
      if Ascii.eqb t q
      then let '(n, rest) := greedy title' query' in (n + 1, rest)
      else greedy title' query
  | _, _ => (0, query)
  end.

Definition fuzzyMatches (query title : string) : bool :=
  JSString.isEmpty (snd (greedy title query)).

(** count of matched characters / title length *)
Definition rawScore (query title : string) : Q :=
  fst (greedy title query) # Pos.of_nat (String.length title).

Definition fuzzyPoints (query title : string) : Z :=
  if fuzzyMatches query title
  then if Qle_bool (rawScore query title) (1 # 2) then 0
       else Qfloor (rawScore query title * 20)
  else 0.

Definition finalScore (q : string) (c : Command) : Z :=
  if rulePoints q c =? 0 then fuzzyPoints q (lowerTitle c)
  else rulePoints q c.

(** A command is listed when it is not hidden and its score is positive. *)
Definition listed (q : string) (c : Command) : bool :=
  negb (Command.isHidden c) && (0 <? finalScore q c).

(** [a] may stand before [b]: higher score; on a tie higher priority; on a
    further tie a title that does not come after the other one. *)
Definition mayPrecede (collate : string -> string -> Z) (q : string)
    (a b : Command) : Prop :=
  finalScore q b < finalScore q a
  \/ (finalScore q a = finalScore q b
      /\ (Command.priorityOr0 b < Command.priorityOr0 a
          \/ (Command.priorityOr0 a = Command.priorityOr0 b
              /\ collate (Command.title a) (Command.title b) <= 0))).

End Ranking.

(** A history of capacity [cap], newest first: what is kept of a sequence of
    records given oldest first. *)
Definition newestFirst {A : Type} (cap : nat) (added : list A) : list A :=
  firstn cap (rev added).
End Spec.

(** ** The fuzzy score in double precision

    [calculateFuzzyScore] divides two small integers in binary64, and
    [search] compares the quotient with 0.5 and floors twenty times it.  The
    registry model above does this in exact arithmetic; these definitions do
    it in binary64, for the comparison of Part II. *)

Module Double.
Definition ofZ (z : Z) : float := PrimFloat.of_uint63 (Uint63.of_Z z).

(** [Math.floor] of a finite double that is not negative. *)
Definition floor (f : float) : Z :=
  match Prim2SF f with
  | S754_finite false m e => Z.shiftl (Z.pos m) e
  | _ => 0
  end.

(** The score of a successful fuzzy match of [matched] characters in a title
    of [len] characters. *)
Definition fuzzyScore (matched len : Z) : Z :=
  let fuzzyScore := PrimFloat.div (ofZ matched) (ofZ len) in
  if PrimFloat.ltb 0.5%float fuzzyScore
  then floor (PrimFloat.mul fuzzyScore 20%float)
  else 0.

Definition exactScore (matched len : Z) : Z :=
  if len <? 2 * matched then (20 * matched) / len else 0.

Definition agreeUpTo (n : nat) : bool :=
  forallb (fun len =>
             forallb (fun matched =>
                        fuzzyScore (Z.of_nat matched) (Z.of_nat len)
                        =? exactScore (Z.of_nat matched) (Z.of_nat len))
                     (seq 0 (S len)))
          (seq 1 n).
End Double.

(** ** Intermediate states of [executeCommand] *)

Module CommandRun.
Section Run.
Context {Args Err Ext : Type}.
Import CommandRegistryImpl.

(** The world in which the observers of a successful execution run: the
    callback has been called and has left the external state [ext1], and the
    record has been added to the history. *)
Definition executed (w : CommandRegistryImpl.World Args Err Ext)
    (commandId : string) (args : option Args) (source : option Source.t)
    (ext1 : Ext) : CommandRegistryImpl.World Args Err Ext :=
  {| self :=
       {| commands := commands (self w);
          history :=
            CommandHistoryImpl.add
              {| CommandExecutionContext.commandId := commandId;
                 CommandExecutionContext.timestamp := Host.clock (host w);
                 CommandExecutionContext.source :=
                   match source with
                   | Some s => s
                   | None => Source.programmatic
                   end;
                 CommandExecutionContext.args := args |}
              (history (self w));
          listeners := listeners (self w) |};
     host := {| Host.trace :=
                  (Host.trace (host w) ++ [Host.Executed commandId args])%list;
                Host.clock := Host.clock (host w);
                Host.ext := ext1 |} |}.
End Run.
End CommandRun.

(** ** Subsequences *)

Module Subseq.
(** [Subsequence q t]: the characters of [q] occur in [t], in order, not
    necessarily next to each other. *)
Inductive Subsequence : string -> string -> Prop :=
| sub_done (t : string) : Subsequence "" t
| sub_take (c : ascii) (q t : string) :
    Subsequence q t -> Subsequence (String c q) (String c t)
| sub_skip (c : ascii) (q t : string) :
    Subsequence q t -> Subsequence q (String c t).
End Subseq.

(** ** The bindings of the bulk registration *)

Module BulkBinding.
Section Bulk.
Context {Args Err Ext : Type}.

(** The binding [registerCommandShortcuts] makes for [command] under the key
    [k], if the command carries a combination that generates [k]. *)
Definition bindingAt (k : string) (command : Command.t Args Err Ext)
  : option (KeyboardManagerImpl.KeyBinding Ext) :=
  match Command.keybinding command with
  | Some keybinding =>
      if String.eqb (KeyboardManagerImpl.generateShortcutKey keybinding) k
      then Some {| KeyboardManagerImpl.shortcut := keybinding;
                   KeyboardManagerImpl.commandId := Command.id command;
                   KeyboardManagerImpl.when := None |}
      else None
  | None => None
  end.

Definition carries (k : string) (command : Command.t Args Err Ext) : bool :=
  match bindingAt k command with Some _ => true | None => false end.

(** The first command of [cs] that carries the key [k], as a binding. *)
Definition firstBinding (k : string) (cs : list (Command.t Args Err Ext))
  : option (KeyboardManagerImpl.KeyBinding Ext) :=
  match find (carries k) cs with
  | Some command => bindingAt k command
  | None => None
  end.
End Bulk.
End BulkBinding.

(** ** The global key handler of [KeyboardManagerImpl]

    [handleKeyDown] receives the DOM event; the manager's passive listeners
    live next to the binding table.  As in [executeCommand], awaiting and the
    promise chain ([.catch]) are modelled as sequencing. *)

Module KeyDown.
(** The key event, and what the handler reads of [event.target]. *)
Record t : Type := mk {
  event : KeyboardEvent.t;
  targetTagName : string;
  targetIsContentEditable : bool
}.
End KeyDown.

Module KeyboardDispatch.
Import Eff.
Local Open Scope eff_scope.

Section Dispatch.
Context {Args Err Ext : Type}.

(** A passive key listener; [handle] stands for the identity of the function
    object in the [Set]. *)
Record KeyListener : Type := mkKeyListener {
  handle : nat;
  onKey : KeyboardEvent.t -> Ext -> Ext * option Err
}.

(** The manager with its listeners; [heard] records, in order, the
    listeners that have been called. *)
Record World : Type := mkWorld {
  manager : KeyboardManagerImpl.World Args Err Ext;
  listeners : list KeyListener;
  heard : list nat
}.

(** Whether [event.preventDefault()] and [event.stopPropagation()] were
    called. *)
Record Effects : Type := mkEffects {
  defaultPrevented : bool;
  propagationStopped : bool
}.

Definition untouched : Effects :=
  {| defaultPrevented := false; propagationStopped := false |}.
Definition claimed : Effects :=
  {| defaultPrevented := true; propagationStopped := true |}.

Local Abbreviation Method := (M Err World).

Definition setManager
    (f : KeyboardManagerImpl.t Ext -> KeyboardManagerImpl.t Ext)
  : Method unit :=
  modify (fun w =>
    {| manager :=
         {| KeyboardManagerImpl.self :=
              f (KeyboardManagerImpl.self (manager w));
            KeyboardManagerImpl.commandRegistry :=
              KeyboardManagerImpl.commandRegistry (manager w);
            KeyboardManagerImpl.host := KeyboardManagerImpl.host (manager w) |};
       listeners := listeners w;
       heard := heard w |}).

Definition setHost (f : Host.t Args Err Ext -> Host.t Args Err Ext)
  : Method unit :=
  modify (fun w =>
    {| manager :=
         {| KeyboardManagerImpl.self := KeyboardManagerImpl.self (manager w);
            KeyboardManagerImpl.commandRegistry :=
              KeyboardManagerImpl.commandRegistry (manager w);
            KeyboardManagerImpl.host :=
              f (KeyboardManagerImpl.host (manager w)) |};
       listeners := listeners w;
       heard := heard w |}).

Definition consoleError (message : string) (detail : option Err)
  : Method unit :=
  setHost (fun h =>
    {| Host.trace :=
         (Host.trace h ++ [Host.Log Host.error message detail])%list;
       Host.clock := Host.clock h;
       Host.ext := Host.ext h |}).

(** A method of the registry, run on the module-level [commandRegistry]. *)
Definition onRegistry {A : Type}
    (m : M Err (CommandRegistryImpl.World Args Err Ext) A) : Method A :=
  fun w =>
    let '(completion, rw) :=
      m {| CommandRegistryImpl.self :=
             KeyboardManagerImpl.commandRegistry (manager w);
           CommandRegistryImpl.host :=
             KeyboardManagerImpl.host (manager w) |} in
    (completion,
     {| manager :=
          {| KeyboardManagerImpl.self := KeyboardManagerImpl.self (manager w);
             KeyboardManagerImpl.commandRegistry :=
               CommandRegistryImpl.self rw;
             KeyboardManagerImpl.host := CommandRegistryImpl.host rw |};
        listeners := listeners w;
        heard := heard w |}).

(** Calling a listener on the external state. *)
Definition callListener (listener : KeyListener) (event : KeyboardEvent.t)
  : Method unit :=
  fun w =>
    let h := KeyboardManagerImpl.host (manager w) in
    let '(ext', r) := onKey listener event (Host.ext h) in
    (match r with Some e => Throw e | None => Normal tt end,
     {| manager :=
          {| KeyboardManagerImpl.self := KeyboardManagerImpl.self (manager w);
             KeyboardManagerImpl.commandRegistry :=
               KeyboardManagerImpl.commandRegistry (manager w);
             KeyboardManagerImpl.host :=
               {| Host.trace := Host.trace h;
                  Host.clock := Host.clock h;
                  Host.ext := ext' |} |};
        listeners := listeners w;
        heard := (heard w ++ [handle listener])%list |}).

(** The target is an input, a text area or an editable region. *)
Definition isTextInput (d : KeyDown.t) : bool :=
  String.eqb (KeyDown.targetTagName d) "INPUT"
  || String.eqb (KeyDown.targetTagName d) "TEXTAREA"
  || KeyDown.targetIsContentEditable d.

(** The [for ... of this.keyBindings] loop; it returns [true] when a binding
    has taken the event, after which [handleKeyDown] returns. *)
Fixpoint keyLoop (bindings : list (KeyboardManagerImpl.KeyBinding Ext))
    (d : KeyDown.t) : Method bool :=
  match bindings with
  | [] => ret false
  | binding :: rest =>
      if KeyboardManagerImpl.matchesShortcut (KeyDown.event d)
           (KeyboardManagerImpl.shortcut binding)
      then
        refused <-
          match KeyboardManagerImpl.when binding with
          | Some when =>
              ext <- gets (fun w =>
                       Host.ext (KeyboardManagerImpl.host (manager w))) ;;
              ret (negb (when ext))
          | None => ret false
          end ;;
        if (refused : bool) then keyLoop rest d
        else
          tryCatch
            (onRegistry
               (CommandRegistryImpl.executeCommand
                  (KeyboardManagerImpl.commandId binding) None
                  (Some Source.keyboard)))
            (fun error =>
               consoleError
                 ("Failed to execute command "
                    ++ Host.quoted (KeyboardManagerImpl.commandId binding)
                    ++ ":") (Some error)) ;;
          ret true
      else keyLoop rest d
  end.

Definition handleKeyDown (d : KeyDown.t) : Method Effects :=
  enabled <- gets (fun w =>
               KeyboardManagerImpl.isEnabled
                 (KeyboardManagerImpl.self (manager w))) ;;
  if negb enabled then ret untouched
  else if isTextInput d then ret untouched
  else
    bindings <- gets (fun w =>
                  JSMap.values
                    (KeyboardManagerImpl.keyBindings
                       (KeyboardManagerImpl.self (manager w)))) ;;
    taken <- keyLoop bindings d ;;
    if (taken : bool) then ret claimed
    else
      ls <- gets listeners ;;
      forEach ls (fun listener =>
        tryCatch (callListener listener (KeyDown.event d))
                 (fun error =>
                    consoleError "Keyboard listener error:" (Some error))) ;;
      ret untouched.

(** [addListener(listener)]: [Set.add] keeps one copy of a function. *)
Definition addListener (listener : KeyListener) : Method unit :=
  modify (fun w =>
    {| manager := manager w;
       listeners :=
         if existsb (fun l => Nat.eqb (handle l) (handle listener))
                    (listeners w)
         then listeners w else (listeners w ++ [listener])%list;
       heard := heard w |}).

Definition enable : Method unit :=
  setManager (fun m =>
    {| KeyboardManagerImpl.keyBindings := KeyboardManagerImpl.keyBindings m;
       KeyboardManagerImpl.isEnabled := true |}).

Definition disable : Method unit :=
  setManager (fun m =>
    {| KeyboardManagerImpl.keyBindings := KeyboardManagerImpl.keyBindings m;
       KeyboardManagerImpl.isEnabled := false |}).

Definition clear : Method unit :=
  setManager (fun m =>
    {| KeyboardManagerImpl.keyBindings := JSMap.empty;
       KeyboardManagerImpl.isEnabled := KeyboardManagerImpl.isEnabled m |}).

(** Not in the source: the binding the loop gives the event to, the first in
    table order that matches and whose guard, if any, allows it. *)
Definition firstMatch (bindings : list (KeyboardManagerImpl.KeyBinding Ext))
    (event : KeyboardEvent.t) (ext : Ext)
  : option (KeyboardManagerImpl.KeyBinding Ext) :=
  find (fun binding =>
          KeyboardManagerImpl.matchesShortcut event
            (KeyboardManagerImpl.shortcut binding)
          && match KeyboardManagerImpl.when binding with
             | Some when => when ext
             | None => true
             end)
       bindings.

(** Not in the source: the world after the registry has run
    [executeCommand] for a key binding and a rejection has been logged. *)
Definition afterCommand (w : World) (commandId : string) : World :=
  let '(completion, rw) :=
    CommandRegistryImpl.executeCommand commandId None (Some Source.keyboard)
      {| CommandRegistryImpl.self :=
           KeyboardManagerImpl.commandRegistry (manager w);
         CommandRegistryImpl.host := KeyboardManagerImpl.host (manager w) |} in
  let h := CommandRegistryImpl.host rw in
  {| manager :=
       {| KeyboardManagerImpl.self := KeyboardManagerImpl.self (manager w);
          KeyboardManagerImpl.commandRegistry := CommandRegistryImpl.self rw;
          KeyboardManagerImpl.host :=
            match completion with
            | Normal _ => h
            | Throw error =>
                {| Host.trace :=
                     (Host.trace h
                      ++ [Host.Log Host.error
                            ("Failed to execute command "
                               ++ Host.quoted commandId ++ ":")
                            (Some error)])%list;
                   Host.clock := Host.clock h;
                   Host.ext := Host.ext h |}
            end |};
     listeners := listeners w;
     heard := heard w |}.
End Dispatch.
Arguments KeyListener : clear implicits.
Arguments World : clear implicits.
End KeyboardDispatch.

(** ** [CommandPalette]: what the component computes

    The results it shows for a query, the updates of [selectedIndex] its key
    handler makes, and its [executeCommand].  State setters are modelled by
    the values they set. *)

Module CommandPalette.
Import Eff.
Local Open Scope eff_scope.

Section Palette.
Context {Args Err Ext : Type}.
Local Abbreviation Command := (Command.t Args Err Ext).
Variable localeCompare : string -> string -> Z.

(** The body of the timer callback of [searchCommands]: the value given to
    [setFilteredCommands]. *)
Definition searchCommands (categories : option (list CommandCategory.t))
    (maxResults : Z) (searchQuery : string)
    (r : CommandRegistryImpl.t Args Err Ext) : list Command :=
  let commands := CommandRegistryImpl.search localeCompare searchQuery r in
  let commands :=
    match categories with
    | Some cs =>
        if 0 <? Z.of_nat (List.length cs)
        then filter (fun cmd =>
                       existsb (CommandCategory.eqb (Command.category cmd)) cs)
                    commands
        else commands
    | None => commands
    end in
  JSArray.slice0 commands maxResults.

(** [filteredCommands[selectedIndex]] *)
Definition itemAt (filteredCommands : list Command) (selectedIndex : Z)
  : option Command :=
  if selectedIndex <? 0 then None
  else nth_error filteredCommands (Z.to_nat selectedIndex).

(** What a key press asks of the surroundings. *)
Inductive Request : Type :=
| Nothing
| Close
| Execute (command : Command).

Record KeyResult : Type := mkKeyResult {
  defaultPrevented : bool;
  selectedIndex : Z;
  request : Request
}.

Definition selectNext (filteredCommands : list Command) (prev : Z) : Z :=
  Z.min (prev + 1) (Z.of_nat (List.length filteredCommands) - 1).

Definition selectPrevious (prev : Z) : Z := Z.max (prev - 1) 0.

(** The [switch] of [handleKeyDown]. *)
Definition handleKeyDown (key : string) (shiftKey : bool)
    (filteredCommands : list Command) (selected : Z) : KeyResult :=
  if String.eqb key "Escape" then
    {| defaultPrevented := true; selectedIndex := selected;
       request := Close |}
  else if String.eqb key "ArrowDown" then
    {| defaultPrevented := true;
       selectedIndex := selectNext filteredCommands selected;
       request := Nothing |}
  else if String.eqb key "ArrowUp" then
    {| defaultPrevented := true; selectedIndex := selectPrevious selected;
       request := Nothing |}
  else if String.eqb key "Enter" then
    {| defaultPrevented := true; selectedIndex := selected;
       request := match itemAt filteredCommands selected with
                  | Some command => Execute command
                  | None => Nothing
                  end |}
  else if String.eqb key "Tab" then
    {| defaultPrevented := true;
       selectedIndex := if shiftKey then selectPrevious selected
                        else selectNext filteredCommands selected;
       request := Nothing |}
  else
    {| defaultPrevented := false; selectedIndex := selected;
       request := Nothing |}.

(** [executeCommand(command)] of the palette; the result tells whether
    [onClose()] was called. *)
Definition executeCommand (command : Command)
  : M Err (CommandRegistryImpl.World Args Err Ext) bool :=
  tryCatch
    (CommandRegistryImpl.executeCommand (Command.id command) None
       (Some Source.palette) ;;
     ret true)
    (fun error =>
       CommandRegistryImpl.consoleError "Failed to execute command:"
         (Some error) ;;
       ret false).
End Palette.
Arguments Request : clear implicits.
Arguments KeyResult : clear implicits.
End CommandPalette.

(** ** Execution statistics

    [getExecutionStats] fills a plain object.  A plain object keeps its own
    properties in creation order, lists those whose name is an array index
    first, in ascending order, and answers a read of a name it does not own
    from [Object.prototype]. *)

Module JSObject.
(** The properties of an unmodified [Object.prototype]. *)
Definition inherited (name : string) : bool :=
  existsb (String.eqb name)
    ["constructor"; "__defineGetter__"; "__defineSetter__"; "hasOwnProperty";
     "__lookupGetter__"; "__lookupSetter__"; "isPrototypeOf";
     "propertyIsEnumerable"; "toString"; "valueOf"; "__proto__";
     "toLocaleString"].

Definition isDigit (c : ascii) : bool :=
  ((48 <=? N_of_ascii c) && (N_of_ascii c <=? 57))%N.

Fixpoint digitsValue (s : string) (acc : Z) : option Z :=
  match s with
  | EmptyString => Some acc
  | String c r =>
      if isDigit c
      then digitsValue r (acc * 10 + (Z.of_N (N_of_ascii c) - 48))
      else None
  end.

(** The array index a property name is the canonical decimal form of: an
    integer below 2^32 - 1 without a superfluous leading zero. *)
Definition arrayIndex (name : string) : option Z :=
  match name with
  | EmptyString => None
  | String c r =>
      if Ascii.eqb c "0" && negb (JSString.isEmpty r) then None
      else match digitsValue name 0 with
           | Some v => if v <? 4294967295 then Some v else None
           | None => None
           end
  end.

Definition isArrayIndex (name : string) : bool :=
  match arrayIndex name with Some _ => true | None => false end.

Definition indexOr0 (name : string) : Z :=
  match arrayIndex name with Some v => v | None => 0 end.

(** [Object.entries(o)] for own properties [o] in creation order. *)
Definition entries {V : Type} (o : JSMap.t V) : list (string * V) :=
  (JSArray.sort (fun a b => indexOr0 (fst a) - indexOr0 (fst b))
     (filter (fun kv => isArrayIndex (fst kv)) o)
   ++ filter (fun kv => negb (isArrayIndex (fst kv))) o)%list.
End JSObject.

Module ExecutionStats.
Section Stats.
Context {Args Err Ext : Type}.

(** A value of the statistics object: a number, or the text that adding 1
    to an inherited function or object, or to such a text, gives. *)
Inductive Value : Type := Count (n : Z) | Text.

(** [stats[id] = (stats[id] || 0) + 1] *)
Definition bump (id : string) (stats : JSMap.t Value) : JSMap.t Value :=
  match JSMap.get id stats with
  | Some (Count n) => JSMap.set id (Count (n + 1)) stats
  | Some Text => JSMap.set id Text stats
  | None =>
      if JSObject.inherited id
      then if String.eqb id "__proto__"
           then stats (* the setter ignores a string *)
           else JSMap.set id Text stats
      else JSMap.set id (Count 1) stats
  end.

Definition getExecutionStats (r : CommandRegistryImpl.t Args Err Ext)
  : JSMap.t Value :=
  fold_left
    (fun stats entry => bump (CommandExecutionContext.commandId entry) stats)
    (CommandHistoryImpl.entries (CommandRegistryImpl.history r))
    JSMap.empty.

(** [b - a] in the comparator of [getMostUsedCommands]; a difference that is
    not a number counts as 0. *)
Definition byCount (x y : string * Value) : Z :=
  match snd x, snd y with
  | Count a, Count b => b - a
  | _, _ => 0
  end.

(** [.filter(command => command !== undefined)] *)
Fixpoint defined {A : Type} (l : list (option A)) : list A :=
  match l with
  | [] => []
  | Some a :: r => a :: defined r
  | None :: r => defined r
  end.

Definition getMostUsedCommands (count : Z)
    (r : CommandRegistryImpl.t Args Err Ext) : list (Command.t Args Err Ext) :=
  let stats := getExecutionStats r in
  defined
    (map (fun kv => CommandRegistryImpl.get (fst kv) r)
         (JSArray.slice0 (JSArray.sort byCount (JSObject.entries stats))
                         count)).

(** Not in the source: how often [id] occurs in the history. *)
Definition uses (id : string) (r : CommandRegistryImpl.t Args Err Ext) : Z :=
  Z.of_nat
    (List.length
       (filter (fun entry =>
                  String.eqb (CommandExecutionContext.commandId entry) id)
               (CommandHistoryImpl.entries (CommandRegistryImpl.history r)))).

(** Not in the source: no id in the history names a property of
    [Object.prototype]. *)
Definition plainIds (r : CommandRegistryImpl.t Args Err Ext) : Prop :=
  Forall (fun entry =>
            JSObject.inherited (CommandExecutionContext.commandId entry)
            = false)
         (CommandHistoryImpl.entries (CommandRegistryImpl.history r)).
End Stats.
End ExecutionStats.

(** ** Well-formed states

    Predicates on the states of the two classes, for the invariants of
    Part II. *)

Module WellFormed.
Section States.
Context {Args Err Ext : Type}.

(** The command map has one entry per key, filed under the command's own
    id. *)
Definition Indexed (r : CommandRegistryImpl.t Args Err Ext) : Prop :=
  NoDup (JSMap.keys (CommandRegistryImpl.commands r))
  /\ Forall (fun kv => fst kv = Command.id (snd kv))
            (CommandRegistryImpl.commands r).

(** The binding table has one entry per key, filed under the key its
    shortcut generates. *)
Definition Keyed (m : KeyboardManagerImpl.t Ext) : Prop :=
  NoDup (JSMap.keys (KeyboardManagerImpl.keyBindings m))
  /\ Forall (fun kv =>
               fst kv = KeyboardManagerImpl.generateShortcutKey
                          (KeyboardManagerImpl.shortcut (snd kv)))
            (KeyboardManagerImpl.keyBindings m).

(** No two observers share an identity. *)
Definition DistinctObservers (r : CommandRegistryImpl.t Args Err Ext)
  : Prop :=
  NoDup (map CommandRegistryImpl.handle (CommandRegistryImpl.listeners r)).
End States.
End WellFormed.

(** ** Sample data *)

Module Examples.
(** A collation for the examples: code-unit order of the lower-cased
    strings. *)
Definition compareCodeUnits (a b : string) : Z :=
  match String.compare a b with Lt => -1 | Eq => 0 | Gt => 1 end.

Definition collate (a b : string) : Z :=
  compareCodeUnits (JSString.toLowerCase a) (JSString.toLowerCase b).

(** Callbacks over a counter: arguments are numbers, errors are strings. *)
Definition Cmd : Type := Command.t Z string Z.

Definition succeed : CommandAction.t Z string Z :=
  {| CommandAction.id := "ok";
     CommandAction.execute := fun _ n => (n + 1, None);
     CommandAction.canExecute := None |}.

Definition failing : CommandAction.t Z string Z :=
  {| CommandAction.id := "boom";
     CommandAction.execute := fun _ n => (n + 1, Some "boom");
     CommandAction.canExecute := None |}.

Definition guarded : CommandAction.t Z string Z :=
  {| CommandAction.id := "guarded";
     CommandAction.execute := fun _ n => (n + 1, None);
     CommandAction.canExecute := Some (fun n => 0 <? n) |}.

Definition plain (id title : string) (category : CommandCategory.t)
    (priority : option Z) (action : CommandAction.t Z string Z) : Cmd :=
  {| Command.id := id; Command.title := title;
     Command.description := None; Command.category := category;
     Command.keywords := None; Command.keybinding := None;
     Command.action := action; Command.priority := priority;
     Command.hidden := None |}.

Definition save : Cmd :=
  plain "file.save" "Save" CommandCategory.file (Some 95) succeed.
Definition saveAs : Cmd :=
  plain "file.saveAs" "Save As" CommandCategory.file (Some 70) succeed.
Definition saveFile : Cmd :=
  plain "file.saveFile" "Save File" CommandCategory.file None succeed.
Definition broken : Cmd :=
  plain "debug.broken" "Broken" CommandCategory.debug None failing.
Definition gated : Cmd :=
  plain "edit.gated" "Gated" CommandCategory.edit None guarded.

Definition ctrlK : KeyboardShortcut.t :=
  {| KeyboardShortcut.key := "k";
     KeyboardShortcut.modifiers := Some [KeyModifier.ctrl];
     KeyboardShortcut.displayText := None |}.

Definition bareK : KeyboardShortcut.t :=
  {| KeyboardShortcut.key := "K";
     KeyboardShortcut.modifiers := None;
     KeyboardShortcut.displayText := None |}.

(** A hidden command that carries a key binding. *)
Definition secret : Cmd :=
  {| Command.id := "view.secret"; Command.title := "Secret";
     Command.description := None; Command.category := CommandCategory.view;
     Command.keywords := None; Command.keybinding := Some ctrlK;
     Command.action := succeed; Command.priority := None;
     Command.hidden := Some true |}.

Definition host0 : Host.t Z string Z :=
  {| Host.trace := []; Host.clock := 1000; Host.ext := 0 |}.

Definition observer (n : nat) : CommandRegistryImpl.Listener Z string Z :=
  {| CommandRegistryImpl.handle := n;
     CommandRegistryImpl.notify := fun _ _ e => (e + 10, None) |}.

Definition registryOf (cs : list Cmd) : CommandRegistryImpl.t Z string Z :=
  CommandRegistryImpl.self
    (snd (CommandRegistryImpl.registerAll cs
            {| CommandRegistryImpl.self := CommandRegistryImpl.new;
               CommandRegistryImpl.host := host0 |})).

Definition withObserver (r : CommandRegistryImpl.t Z string Z)
  : CommandRegistryImpl.t Z string Z :=
  {| CommandRegistryImpl.commands := CommandRegistryImpl.commands r;
     CommandRegistryImpl.history := CommandRegistryImpl.history r;
     CommandRegistryImpl.listeners := [observer 1] |}.

Definition record (n : Z) : CommandExecutionContext.t Z :=
  {| CommandExecutionContext.commandId := "file.save";
     CommandExecutionContext.timestamp := n;
     CommandExecutionContext.source := Source.palette;
     CommandExecutionContext.args := None |}.

(** [records n]: [n] records with time stamps [1 .. n], oldest first. *)
Definition records (n : nat) : list (CommandExecutionContext.t Z) :=
  map (fun k => record (Z.of_nat k)) (seq 1 n).
(** A second command under the id of [save]. *)
Definition impostor : Cmd :=
  plain "file.save" "Not Save" CommandCategory.general (Some 1) failing.

Definition world (cs : list Cmd) : CommandRegistryImpl.World Z string Z :=
  {| CommandRegistryImpl.self := registryOf cs;
     CommandRegistryImpl.host := host0 |}.

Definition ctrlShiftK : KeyboardShortcut.t :=
  {| KeyboardShortcut.key := "K";
     KeyboardShortcut.modifiers := Some [KeyModifier.ctrl; KeyModifier.shift];
     KeyboardShortcut.displayText := None |}.

Definition shiftCtrlk : KeyboardShortcut.t :=
  {| KeyboardShortcut.key := "k";
     KeyboardShortcut.modifiers := Some [KeyModifier.shift; KeyModifier.ctrl];
     KeyboardShortcut.displayText := None |}.

(** A dispatcher with no binding yet, next to a registry of [cs]. *)
Definition keyboard (cs : list Cmd) : KeyboardManagerImpl.World Z string Z :=
  {| KeyboardManagerImpl.self := KeyboardManagerImpl.new;
     KeyboardManagerImpl.commandRegistry := registryOf cs;
     KeyboardManagerImpl.host := host0 |}.

Definition press (key : string) (ctrl shift alt meta : bool)
  : KeyboardEvent.t :=
  {| KeyboardEvent.key := key; KeyboardEvent.ctrlKey := ctrl;
     KeyboardEvent.shiftKey := shift; KeyboardEvent.altKey := alt;
     KeyboardEvent.metaKey := meta |}.
(** An observer that throws after touching the external state. *)
Definition grumpy (n : nat) : CommandRegistryImpl.Listener Z string Z :=
  {| CommandRegistryImpl.handle := n;
     CommandRegistryImpl.notify := fun _ _ e => (e + 100, Some "grumble") |}.

Definition observedBy (ls : list (CommandRegistryImpl.Listener Z string Z))
    (cs : list Cmd) : CommandRegistryImpl.World Z string Z :=
  {| CommandRegistryImpl.self :=
       {| CommandRegistryImpl.commands :=
            CommandRegistryImpl.commands (registryOf cs);
          CommandRegistryImpl.history :=
            CommandRegistryImpl.history (registryOf cs);
          CommandRegistryImpl.listeners := ls |};
     CommandRegistryImpl.host := host0 |}.

(** [save] with the binding ctrl+k, and a lower-priority command with the
    same combination written differently. *)
Definition saveK : Cmd :=
  {| Command.id := "file.save"; Command.title := "Save";
     Command.description := None; Command.category := CommandCategory.file;
     Command.keywords := None; Command.keybinding := Some ctrlK;
     Command.action := succeed; Command.priority := Some 95;
     Command.hidden := None |}.

Definition ctrlBigK : KeyboardShortcut.t :=
  {| KeyboardShortcut.key := "K";
     KeyboardShortcut.modifiers := Some [KeyModifier.ctrl];
     KeyboardShortcut.displayText := None |}.

Definition rival : Cmd :=
  {| Command.id := "edit.rival"; Command.title := "Rival";
     Command.description := None; Command.category := CommandCategory.edit;
     Command.keywords := None; Command.keybinding := Some ctrlBigK;
     Command.action := succeed; Command.priority := Some 10;
     Command.hidden := None |}.

Definition tap (n : nat) : KeyboardDispatch.KeyListener string Z :=
  {| KeyboardDispatch.handle := n;
     KeyboardDispatch.onKey := fun _ e => (e + 1, None) |}.

Definition fragileTap (n : nat) : KeyboardDispatch.KeyListener string Z :=
  {| KeyboardDispatch.handle := n;
     KeyboardDispatch.onKey := fun _ e => (e, Some "tap failed") |}.

(** The dispatcher after the bulk registration over [cs], with two passive
    listeners. *)
Definition dispatcher (cs : list Cmd) (enabled : bool)
  : KeyboardDispatch.World Z string Z :=
  let m := snd (KeyboardManagerImpl.registerCommandShortcuts (keyboard cs)) in
  {| KeyboardDispatch.manager :=
       {| KeyboardManagerImpl.self :=
            {| KeyboardManagerImpl.keyBindings :=
                 KeyboardManagerImpl.keyBindings (KeyboardManagerImpl.self m);
               KeyboardManagerImpl.isEnabled := enabled |};
          KeyboardManagerImpl.commandRegistry :=
            KeyboardManagerImpl.commandRegistry m;
          KeyboardManagerImpl.host := KeyboardManagerImpl.host m |};
     KeyboardDispatch.listeners := [fragileTap 1; tap 2];
     KeyboardDispatch.heard := [] |}.

Definition keydown (event : KeyboardEvent.t) (tag : string)
  : KeyDown.t :=
  {| KeyDown.event := event; KeyDown.targetTagName := tag;
     KeyDown.targetIsContentEditable := false |}.
(** The registry after "file.saveAs", "file.save" and "file.save" have been
    executed, in that order. *)
Definition busy : CommandRegistryImpl.t Z string Z :=
  let run id w :=
    snd (CommandRegistryImpl.executeCommand id None (Some Source.palette) w) in
  CommandRegistryImpl.self
    (run "file.save" (run "file.save" (run "file.saveAs"
       (world [saveAs; save])))).
End Examples.

(* ================================================================== *)
(** * Part II: properties                                             *)
(* ================================================================== *)

(** ** Strings *)

Section StringFacts.
Import JSString.

Lemma lowerChar_idem (c : ascii) : lowerChar (lowerChar c) = lowerChar c.
Proof. destruct c as [[] [] [] [] [] [] [] []]; reflexivity. Qed.

Lemma isWhiteSpace_lowerChar (c : ascii) :
  isWhiteSpace (lowerChar c) = isWhiteSpace c.
Proof. destruct c as [[] [] [] [] [] [] [] []]; reflexivity. Qed.

Lemma toLowerCase_idem (s : string) :
  toLowerCase (toLowerCase s) = toLowerCase s.
Proof.
  induction s as [|c r IH]; simpl; [reflexivity|].
  now rewrite lowerChar_idem, IH.
Qed.

Lemma toLowerCase_length (s : string) :
  String.length (toLowerCase s) = String.length s.
Proof. induction s; simpl; congruence. Qed.

Lemma isEmpty_toLowerCase (s : string) :
  isEmpty (toLowerCase s) = isEmpty s.
Proof. now destruct s. Qed.

Lemma isEmpty_true (s : string) : isEmpty s = true <-> s = "".
Proof. destruct s; simpl; split; congruence. Qed.

Lemma toLowerCase_trimStart (s : string) :
  toLowerCase (trimStart s) = trimStart (toLowerCase s).
Proof.
  induction s as [|c r IH]; simpl; [reflexivity|].
  rewrite isWhiteSpace_lowerChar.
  destruct (isWhiteSpace c); [exact IH | reflexivity].
Qed.

Lemma toLowerCase_trimEnd (s : string) :
  toLowerCase (trimEnd s) = trimEnd (toLowerCase s).
Proof.
  induction s as [|c r IH]; simpl; [reflexivity|].
  rewrite isWhiteSpace_lowerChar, <- IH, isEmpty_toLowerCase.
  now destruct (isWhiteSpace c && isEmpty (trimEnd r)).
Qed.

Lemma toLowerCase_trim (s : string) :
  toLowerCase (trim s) = trim (toLowerCase s).
Proof.
  unfold trim. now rewrite toLowerCase_trimEnd, toLowerCase_trimStart.
Qed.

Lemma trimStart_cleanHead (s : string) : cleanHead (trimStart s).
Proof.
  induction s as [|c r IH]; simpl; [exact I|].
  destruct (isWhiteSpace c) eqn:E; [exact IH | exact E].
Qed.

Lemma trimStart_fixed (s : string) : cleanHead s -> trimStart s = s.
Proof. destruct s as [|c r]; simpl; [easy|]. now intros ->. Qed.

Lemma trimEnd_cleanHead (s : string) : cleanHead s -> cleanHead (trimEnd s).
Proof. destruct s as [|c r]; simpl; [easy|]. intros E. now rewrite E. Qed.

Lemma trimEnd_idem (s : string) : trimEnd (trimEnd s) = trimEnd s.
Proof.
  induction s as [|c r IH]; simpl; [reflexivity|].
  destruct (isWhiteSpace c && isEmpty (trimEnd r)) eqn:E; simpl;
    [reflexivity|].
  now rewrite IH, E.
Qed.

Lemma trim_idem (s : string) : trim (trim s) = trim s.
Proof.
  unfold trim.
  rewrite (trimStart_fixed (trimEnd (trimStart s))).
  - apply trimEnd_idem.
  - apply trimEnd_cleanHead, trimStart_cleanHead.
Qed.

Lemma trimStart_blank (s : string) :
  trimStart s = "" <-> isBlank s = true.
Proof.
  induction s as [|c r IH]; simpl; [easy|].
  destruct (isWhiteSpace c); simpl; [exact IH | easy].
Qed.

Lemma trimEnd_empty (s : string) : cleanHead s -> trimEnd s = "" -> s = "".
Proof.
  destruct s as [|c r]; simpl; [easy|]. intros ->. discriminate.
Qed.

(** [trim] leaves nothing exactly of the blank strings. *)
Lemma trim_blank (s : string) : trim s = "" <-> isBlank s = true.
Proof.
  rewrite <- trimStart_blank. unfold trim. split.
  - apply trimEnd_empty, trimStart_cleanHead.
  - now intros ->.
Qed.

(** The query as [search] normalizes it. *)
Lemma normalize_fixed (q : string) :
  trim (toLowerCase (toLowerCase (trim q))) = trim (toLowerCase q).
Proof.
  now rewrite toLowerCase_idem, toLowerCase_trim, trim_idem.
Qed.

Lemma trim_toLowerCase_empty (q : string) :
  isEmpty (trim (toLowerCase q)) = isEmpty (trim q).
Proof. now rewrite <- toLowerCase_trim, isEmpty_toLowerCase. Qed.

End StringFacts.

(** ** Sorting *)

Section SortFacts.
Context {A : Type}.
Variable cmp : A -> A -> Z.

Lemma insert_perm (x : A) (l : list A) :
  Permutation (JSArray.insert cmp x l) (x :: l).
Proof.
  induction l as [|y r IH]; simpl; [reflexivity|].
  destruct (cmp x y <=? 0); [reflexivity|].
  rewrite IH. apply perm_swap.
Qed.

Lemma sort_perm (l : list A) : Permutation (JSArray.sort cmp l) l.
Proof.
  induction l as [|x r IH]; simpl; [reflexivity|].
  rewrite insert_perm. now constructor.
Qed.

Lemma sort_In (l : list A) (x : A) : In x (JSArray.sort cmp l) <-> In x l.
Proof.
  split; apply Permutation_in; [|symmetry]; apply sort_perm.
Qed.

Local Abbreviation before := (JSArray.before cmp).

Hypothesis before_total : forall x y, before x y \/ before y x.
Hypothesis before_trans :
  forall x y z, before x y -> before y z -> before x z.

Lemma insert_sorted (x : A) (l : list A) :
  StronglySorted before l -> StronglySorted before (JSArray.insert cmp x l).
Proof.
  induction 1 as [|y r Hr IH Hy]; simpl.
  - repeat constructor.
  - destruct (Z.leb_spec (cmp x y) 0) as [Hxy|Hxy].
    + constructor; [now constructor|].
      constructor; [exact Hxy|].
      eapply Forall_impl; [|exact Hy].
      intros z Hz. now apply before_trans with y.
    + constructor; [exact IH|].
      assert (Hyx : before y x).
      { destruct (before_total x y) as [H|H]; [unfold JSArray.before in H; lia|easy]. }
      eapply Permutation_Forall; [symmetry; apply insert_perm|].
      now constructor.
Qed.

Lemma sort_sorted (l : list A) : StronglySorted before (JSArray.sort cmp l).
Proof.
  induction l as [|x r IH]; simpl; [constructor | now apply insert_sorted].
Qed.

End SortFacts.

Lemma StronglySorted_map {A B : Type} (f : A -> B) (R : B -> B -> Prop)
    (l : list A) :
  StronglySorted (fun x y => R (f x) (f y)) l -> StronglySorted R (map f l).
Proof.
  induction 1 as [|x r Hr IH Hx]; simpl; constructor; [exact IH|].
  now apply Forall_map.
Qed.

Lemma StronglySorted_weaken {A : Type} (R S : A -> A -> Prop) (l : list A) :
  (forall x y, In x l -> In y l -> R x y -> S x y) ->
  StronglySorted R l -> StronglySorted S l.
Proof.
  intros HRS H. induction H as [|x r Hr IH Hx]; constructor.
  - apply IH. intros a b Ha Hb. apply HRS; now right.
  - rewrite Forall_forall in *. intros y Hy.
    apply HRS; [now left | now right | now apply Hx].
Qed.

(** ** The execution history *)

Section HistoryFacts.
Context {Args : Type}.
Import CommandHistoryImpl.

Local Abbreviation Ctx := (CommandExecutionContext.t Args).

Lemma slice0_count {A : Type} (l : list A) (n : nat) :
  JSArray.slice0 l (Z.of_nat n) = firstn n l.
Proof.
  unfold JSArray.slice0.
  destruct (Z.ltb_spec (Z.of_nat n) 0) as [H|_]; [lia|].
  destruct (Nat.le_gt_cases n (List.length l)) as [Hn|Hn].
  - now rewrite Z.min_l, Nat2Z.id by lia.
  - rewrite Z.min_r, Nat2Z.id by lia.
    now rewrite !firstn_all2 by lia.
Qed.

Lemma firstn_app_firstn {A : Type} (n : nat) (a b : list A) :
  firstn n (a ++ firstn n b) = firstn n (a ++ b).
Proof.
  rewrite !firstn_app, firstn_firstn. do 2 f_equal. lia.
Qed.

(** [add] as one equation: put the record in front, keep the first 100. *)
Lemma add_entries (c : Ctx) (h : t Args) :
  entries (add c h) = firstn 100 (c :: entries h).
Proof.
  unfold add, maxEntries.
  destruct (Z.ltb_spec 100 (Z.of_nat (List.length (c :: entries h))))
    as [H|H]; cbn [entries].
  - apply (slice0_count (c :: entries h) 100).
  - symmetry. apply firstn_all2. lia.
Qed.

Lemma add_length (c : Ctx) (h : t Args) :
  (List.length (entries (add c h)) <= 100)%nat.
Proof. rewrite add_entries. apply firstn_le_length. Qed.

Lemma afterAdds_entries (added : list Ctx) (h : t Args) :
  (List.length (entries h) <= 100)%nat ->
  entries (afterAdds added h) = firstn 100 (rev added ++ entries h).
Proof.
  revert h. induction added as [|c r IH]; intros h Hh.
  - cbn [afterAdds fold_left rev app]. symmetry. now apply firstn_all2.
  - unfold afterAdds in *. cbn [fold_left rev].
    rewrite IH by apply add_length.
    rewrite add_entries, firstn_app_firstn, <- app_assoc. reflexivity.
Qed.

(** C7.  The history is a newest-first buffer capped at 100 entries: [add]
    puts the new record at the front; after any sequence of [add]s on a new
    history at most 100 records are stored, namely the most recent ones,
    newest first; and [getRecent(n)] returns the first [n] of them, which are
    the [n] most recent records of all whenever [n] is within the cap. *)
Theorem history_ring_buffer (added : list Ctx) (n : nat) :
  let h := afterAdds added new in
  (forall (c : Ctx) (h0 : t Args),
      entries (add c h0) = c :: firstn 99 (entries h0))
  /\ (List.length (entries h) <= 100)%nat
  /\ entries h = Spec.newestFirst 100 added
  /\ getRecent (Z.of_nat n) h = firstn n (Spec.newestFirst 100 added)
  /\ ((n <= 100)%nat -> getRecent (Z.of_nat n) h = firstn n (rev added)).
Proof.
  intros h.
  assert (He : entries h = Spec.newestFirst 100 added).
  { unfold h, Spec.newestFirst.
    rewrite afterAdds_entries by (cbn [entries new List.length]; lia).
    cbn [entries new]. now rewrite app_nil_r. }
  assert (Hg : getRecent (Z.of_nat n) h
               = firstn n (Spec.newestFirst 100 added)).
  { unfold getRecent. now rewrite slice0_count, He. }
  repeat split.
  - intros c h0. now rewrite add_entries.
  - rewrite He. apply firstn_le_length.
  - exact He.
  - exact Hg.
  - intros Hn. rewrite Hg. unfold Spec.newestFirst.
    rewrite firstn_firstn. f_equal. lia.
Qed.

End HistoryFacts.

Lemma history_ring_buffer_witness :
  (5 <= 100)%nat
  /\ CommandHistoryImpl.getRecent 5
       (CommandHistoryImpl.afterAdds (Examples.records 150)
          CommandHistoryImpl.new)
     = map Examples.record [150; 149; 148; 147; 146].
Proof.
  split; [lia|].
  exact (proj2 (proj2 (proj2 (proj2
           (history_ring_buffer (Examples.records 150) 5))))
           ltac:(lia)).
Defined.

(** ** Scoring *)

Section ScoreFacts.
Context {Args Err Ext : Type}.
Import CommandRegistryImpl.

Local Abbreviation Command := (Command.t Args Err Ext).

Lemma greedy_rest_length (title query : string) :
  (String.length (snd (Spec.greedy title query)) <= String.length query)%nat.
Proof.
  revert query. induction title as [|t r IH]; intros [|q query]; simpl;
    try lia.
  destruct (Ascii.eqb t q).
  - specialize (IH query). destruct (Spec.greedy r query). simpl in *. lia.
  - apply (IH (String q query)).
Qed.

Lemma get_middle (pre suf : string) (c : ascii) :
  String.get (String.length pre) (pre ++ String c suf) = Some c.
Proof. induction pre as [|a pre IH]; simpl; [reflexivity | exact IH]. Qed.

Lemma append_length (a b : string) :
  String.length (a ++ b) = (String.length a + String.length b)%nat.
Proof. induction a; simpl; congruence. Qed.

Lemma append_snoc (a b : string) (c : ascii) :
  (a ++ String c b = (a ++ String c "") ++ b)%string.
Proof. induction a; simpl; congruence. Qed.

(** The indexed loop of the source and the walk of the specification agree:
    started at the split [tpre ++ tsuf] of the text and [qpre ++ qsuf] of the
    query, the loop adds to [score] what [greedy] counts on the suffixes, and
    stops at the index where the unmatched part of the query begins. *)
Lemma fuzzyLoop_greedy (tsuf : string) :
  forall (tpre qpre qsuf : string) (fuel : nat) (score : Z),
    (String.length tsuf <= fuel)%nat ->
    fuzzyLoop fuel (qpre ++ qsuf) (tpre ++ tsuf)
              (String.length tpre) score (String.length qpre)
    = (score + fst (Spec.greedy tsuf qsuf),
       (String.length qpre
        + (String.length qsuf
           - String.length (snd (Spec.greedy tsuf qsuf))))%nat).
Proof.
  induction tsuf as [|t tsuf IH]; intros tpre qpre qsuf fuel score Hfuel.
  - assert (Hi : (String.length tpre <? String.length (tpre ++ ""))%nat
                 = false).
    { apply Nat.ltb_ge. rewrite append_length. simpl. lia. }
    destruct fuel; simpl; rewrite ?Hi; simpl; f_equal; lia.
  - destruct fuel as [|fuel]; [simpl in Hfuel; lia|].
    simpl in Hfuel. cbn [fuzzyLoop].
    assert (Hi : (String.length tpre
                  <? String.length (tpre ++ String t tsuf))%nat = true).
    { apply Nat.ltb_lt. rewrite append_length. simpl. lia. }
    rewrite Hi. destruct qsuf as [|q qsuf].
    + assert (Hj : (String.length qpre <? String.length (qpre ++ ""))%nat
                   = false).
      { apply Nat.ltb_ge. rewrite append_length. simpl. lia. }
      rewrite Hj. simpl. f_equal; lia.
    + assert (Hj : (String.length qpre
                    <? String.length (qpre ++ String q qsuf))%nat = true).
      { apply Nat.ltb_lt. rewrite append_length. simpl. lia. }
      rewrite Hj, !get_middle. cbn [andb sameUnit Spec.greedy].
      assert (Ht : (String.length tpre + 1)%nat
                   = String.length (tpre ++ String t "")).
      { rewrite append_length. reflexivity. }
      rewrite (append_snoc tpre), Ht.
      destruct (Ascii.eqb t q).
      * assert (Hq : (String.length qpre + 1)%nat
                     = String.length (qpre ++ String q "")).
        { rewrite append_length. reflexivity. }
        rewrite (append_snoc qpre), Hq, IH by lia.
        pose proof (greedy_rest_length tsuf qsuf) as Hle.
        destruct (Spec.greedy tsuf qsuf) as [n rest]. cbn [fst snd] in *.
        rewrite <- Hq. cbn [String.length]. f_equal; lia.
      * rewrite IH by lia. reflexivity.
Qed.

Lemma calculateFuzzyScore_greedy (query text : string) :
  calculateFuzzyScore query text
  = if Spec.fuzzyMatches query text
    then if (String.length text =? 0)%nat then NaN
         else Ratio (Spec.rawScore query text)
    else Ratio 0.
Proof.
  unfold calculateFuzzyScore, Spec.fuzzyMatches, Spec.rawScore.
  pose proof (fuzzyLoop_greedy text "" "" query (String.length text) 0
                (le_n _)) as Hloop.
  change (fuzzyLoop (String.length text) query text 0 0 0 = 
          (0 + fst (Spec.greedy text query),
           (0 + (String.length query
                 - String.length (snd (Spec.greedy text query))))%nat))
    in Hloop.
  rewrite Hloop. clear Hloop.
  pose proof (greedy_rest_length text query) as Hle.
  destruct (Spec.greedy text query) as [n rest]. simpl in *.
  destruct rest as [|c rest]; simpl in *.
  - rewrite Nat.sub_0_r, Nat.eqb_refl. reflexivity.
  - assert (H : (String.length query - S (String.length rest)
                 =? String.length query)%nat = false).
    { apply Nat.eqb_neq. lia. }
    now rewrite H.
Qed.

(** The score the loop of [search] computes is the score of the
    specification. *)
Lemma scoreOf_finalScore (q : string) (c : Command) :
  scoreOf q c = Spec.finalScore q c.
Proof.
  unfold scoreOf, Spec.finalScore, Spec.rulePoints, Spec.titlePoints,
    Spec.bonusPoints, Spec.lowerTitle, Spec.lowerDescription,
    Spec.joinedKeywords, Spec.lowerCategory, orEmpty.
  set (title := JSString.toLowerCase (Command.title c)).
  replace (match option_map JSString.toLowerCase (Command.description c) with
           | Some v => v | None => "" end)
    with (match Command.description c with
          | Some d => JSString.toLowerCase d | None => "" end)
    by now destruct (Command.description c).
  replace (match option_map
                   (fun ks => JSString.toLowerCase (JSString.join " " ks))
                   (Command.keywords c) with
           | Some v => v | None => "" end)
    with (match Command.keywords c with
          | Some ks => JSString.toLowerCase (JSString.join " " ks)
          | None => "" end)
    by now destruct (Command.keywords c).
  destruct (JSString.includes
              (JSString.toLowerCase
                 (CommandCategory.toString (Command.category c))) q);
  destruct (JSString.includes
              match Command.keywords c with
              | Some ks => JSString.toLowerCase (JSString.join " " ks)
              | None => "" end q);
  destruct (JSString.includes
              match Command.description c with
              | Some d => JSString.toLowerCase d
              | None => "" end q);
  destruct (String.eqb title q);
  try reflexivity;
  destruct (JSString.startsWith title q);
  try reflexivity;
  destruct (JSString.includes title q);
  try reflexivity.
  cbn [Z.add Z.eqb].
  rewrite calculateFuzzyScore_greedy. unfold Spec.fuzzyPoints.
  destruct (Spec.fuzzyMatches q title) eqn:Hm; [|reflexivity].
  destruct (String.length title =? 0)%nat eqn:Hlen; [|reflexivity].
  apply Nat.eqb_eq in Hlen. unfold Spec.rawScore.
  destruct title; [reflexivity | discriminate Hlen].
Qed.

Lemma searchLoop_filter (q : string) (cs : list Command)
    (results : list (Scored Args Err Ext)) :
  searchLoop q cs results
  = (results
     ++ map (fun c => {| command := c; score := Spec.finalScore q c |})
            (filter (Spec.listed q) cs))%list.
Proof.
  revert results. induction cs as [|c cs IH]; intros results; simpl.
  - now rewrite app_nil_r.
  - unfold Spec.listed at 1. rewrite scoreOf_finalScore.
    destruct (Command.isHidden c); simpl; [apply IH|].
    destruct (0 <? Spec.finalScore q c); [|apply IH].
    rewrite IH, <- app_assoc. reflexivity.
Qed.

Section Ranking.
Variable localeCompare : string -> string -> Z.
Hypothesis collation_total :
  forall s t, localeCompare s t <= 0 \/ localeCompare t s <= 0.
Hypothesis collation_trans :
  forall s t u,
    localeCompare s t <= 0 -> localeCompare t u <= 0 ->
    localeCompare s u <= 0.

Local Abbreviation rank := (rankCompare localeCompare).

(** What the comparator of [search] decides. *)
Lemma rankCompare_before (a b : Scored Args Err Ext) :
  JSArray.before rank a b <->
  score b < score a
  \/ (score a = score b
      /\ (Command.priorityOr0 (command b) < Command.priorityOr0 (command a)
          \/ (Command.priorityOr0 (command a)
               = Command.priorityOr0 (command b)
              /\ localeCompare (Command.title (command a))
                               (Command.title (command b)) <= 0))).
Proof.
  unfold JSArray.before, rankCompare.
  destruct (Z.eqb_spec (score a) (score b)) as [Hs|Hs]; cbn [negb].
  - destruct (Z.eqb_spec (Command.priorityOr0 (command a))
                         (Command.priorityOr0 (command b))) as [Hp|Hp];
      cbn [negb]; intuition lia.
  - intuition lia.
Qed.

Lemma rank_total (a b : Scored Args Err Ext) :
  JSArray.before rank a b \/ JSArray.before rank b a.
Proof.
  rewrite !rankCompare_before.
  destruct (collation_total (Command.title (command a))
                            (Command.title (command b))).
  - destruct (Z.lt_total (score a) (score b)) as [?|[?|?]];
      destruct (Z.lt_total (Command.priorityOr0 (command a))
                           (Command.priorityOr0 (command b))) as [?|[?|?]];
      intuition lia.
  - destruct (Z.lt_total (score a) (score b)) as [?|[?|?]];
      destruct (Z.lt_total (Command.priorityOr0 (command a))
                           (Command.priorityOr0 (command b))) as [?|[?|?]];
      intuition lia.
Qed.

Lemma rank_trans (a b c : Scored Args Err Ext) :
  JSArray.before rank a b -> JSArray.before rank b c ->
  JSArray.before rank a c.
Proof.
  rewrite !rankCompare_before.
  pose proof (collation_trans (Command.title (command a))
                (Command.title (command b)) (Command.title (command c))).
  intuition lia.
Qed.

Lemma search_nonblank (r : t Args Err Ext) (query : string) :
  JSString.trim query <> "" ->
  search localeCompare query r
  = map command
      (JSArray.sort rank
         (map (fun c =>
                 {| command := c;
                    score := Spec.finalScore
                               (JSString.trim (JSString.toLowerCase query))
                               c |})
              (filter (Spec.listed
                         (JSString.trim (JSString.toLowerCase query)))
                      (JSMap.values (commands r))))).
Proof.
  intros Hq. unfold search, JSString.truthy.
  destruct (JSString.isEmpty (JSString.trim query)) eqn:E.
  - apply isEmpty_true in E. contradiction.
  - cbn [negb]. now rewrite searchLoop_filter.
Qed.

(** C1.  An empty or white-space-only query returns [getAll()].  For any other query, with [q]
    the trimmed lower-cased query: the score of a command is 100, 80 or 60
    for an exact, starts-with or contains match of the title, plus 40, 30 and
    20 for the description, the joined keywords and the category, with the
    fuzzy pass when that sum is 0; the result holds exactly the commands that
    are not hidden and score above 0; and it is ordered by descending score,
    then descending priority (0 when missing), then by title. *)
Theorem search_ranking (r : t Args Err Ext) (query : string) :
  (JSString.isBlank query = true ->
   search localeCompare query r = getAll r)
  /\ (JSString.trim query <> "" ->
      let q := JSString.trim (JSString.toLowerCase query) in
      q <> ""
      /\ (forall c : Command,
            scoreOf q c
            = if Spec.rulePoints q c =? 0
              then Spec.fuzzyPoints q (Spec.lowerTitle c)
              else Spec.titlePoints q c + Spec.bonusPoints q c)
      /\ Permutation (search localeCompare query r)
                     (filter (fun c => negb (Command.isHidden c)
                                       && (0 <? scoreOf q c))
                             (JSMap.values (commands r)))
      /\ StronglySorted (Spec.mayPrecede localeCompare q)
                        (search localeCompare query r)).
Proof.
  split.
  - intros Hq. apply trim_blank in Hq. unfold search. now rewrite Hq.
  - intros Hq q.
    assert (Hlisted : forall c : Command,
               negb (Command.isHidden c) && (0 <? scoreOf q c)
               = Spec.listed q c).
    { intros c. unfold Spec.listed. now rewrite scoreOf_finalScore. }
    rewrite (filter_ext _ _ Hlisted).
    rewrite search_nonblank by exact Hq. fold q.
    repeat split.
    + intros E. apply Hq. apply isEmpty_true.
      rewrite <- trim_toLowerCase_empty. fold q. now rewrite E.
    + intros c. apply scoreOf_finalScore.
    + rewrite (sort_perm rank), map_map. cbn [command].
      now rewrite map_id.
    + apply StronglySorted_map.
      eapply StronglySorted_weaken;
        [|apply (sort_sorted rank rank_total rank_trans)].
      intros x y Hx Hy Hxy.
      apply sort_In, in_map_iff in Hx. apply sort_In, in_map_iff in Hy.
      destruct Hx as [cx [<- _]], Hy as [cy [<- _]].
      apply rankCompare_before in Hxy. exact Hxy.
Qed.

End Ranking.

(** C10.  For a query that is not blank, [search] depends on the query only
    through its trimmed, lower-cased form: searching for that form returns
    the same list in the same order. *)
Theorem search_query_normalized (localeCompare : string -> string -> Z)
    (r : t Args Err Ext) (query : string) :
  JSString.trim query <> "" ->
  search localeCompare query r
  = search localeCompare (JSString.toLowerCase (JSString.trim query)) r.
Proof.
  intros Hq.
  assert (Hq' : JSString.trim (JSString.toLowerCase (JSString.trim query))
                <> "").
  { rewrite <- toLowerCase_trim, trim_idem. intros E.
    apply Hq, isEmpty_true. rewrite <- isEmpty_toLowerCase.
    now apply isEmpty_true. }
  rewrite (search_nonblank localeCompare r query Hq).
  rewrite (search_nonblank localeCompare r _ Hq').
  now rewrite normalize_fixed.
Qed.

(** *** The fuzzy pass in whole numbers *)

Lemma greedy_count (title query : string) :
  fst (Spec.greedy title query)
  = Z.of_nat (String.length query
              - String.length (snd (Spec.greedy title query))).
Proof.
  revert query. induction title as [|t r IH]; intros [|q query];
    cbn [Spec.greedy fst snd String.length]; try (rewrite Nat.sub_diag; easy).
  destruct (Ascii.eqb t q).
  - specialize (IH query).
    pose proof (greedy_rest_length r query) as Hle.
    destruct (Spec.greedy r query) as [n rest]. cbn [fst snd] in *.
    rewrite IH. lia.
  - apply (IH (String q query)).
Qed.


Lemma fuzzyMatches_count (query title : string) :
  Spec.fuzzyMatches query title = true ->
  fst (Spec.greedy title query) = JSString.length query.
Proof.
  unfold Spec.fuzzyMatches, JSString.length. intros H.
  apply isEmpty_true in H. rewrite greedy_count, H. cbn [String.length].
  f_equal. lia.
Qed.

Lemma fuzzyPoints_integer (query title : string) :
  Spec.fuzzyPoints query title
  = if Spec.fuzzyMatches query title
       && (JSString.length title <? 2 * fst (Spec.greedy title query))
    then (20 * fst (Spec.greedy title query)) / JSString.length title
    else 0.
Proof.
  unfold Spec.fuzzyPoints.
  destruct (Spec.fuzzyMatches query title) eqn:Hm; [|reflexivity].
  cbn [andb]. unfold Spec.rawScore, JSString.length.
  set (n := fst (Spec.greedy title query)).
  destruct title as [|t title].
  - assert (n = 0) as -> by (subst n; now destruct query).
    reflexivity.
  - set (len := String.length (String t title)).
    assert (Hlen : Z.pos (Pos.of_nat len) = Z.of_nat len).
    { subst len. cbn [String.length]. lia. }
    unfold Qle_bool, Qfloor, Qmult. cbn [Qnum Qden].
    rewrite Pos.mul_1_r, Hlen.
    destruct (Z.leb_spec (n * 2) (1 * Z.of_nat len));
      destruct (Z.ltb_spec (Z.of_nat len) (2 * n)); try lia.
    now rewrite (Z.mul_comm n 20).
Qed.

End ScoreFacts.

(** ** The collation of the examples is a total preorder *)

Lemma compareCodeUnits_before (a b : string) :
  Examples.compareCodeUnits a b <= 0 <-> String.compare a b <> Gt.
Proof.
  unfold Examples.compareCodeUnits.
  destruct (String.compare a b); split; intros H; try lia; congruence.
Qed.

Lemma string_compare_trans (s : string) :
  forall t u : string,
    String.compare s t <> Gt -> String.compare t u <> Gt ->
    String.compare s u <> Gt.
Proof.
  induction s as [|a s IH]; intros [|b t] [|c u]; simpl; try congruence.
  unfold Ascii.compare.
  destruct (N.compare_spec (N_of_ascii a) (N_of_ascii b)) as [Hab|Hab|Hab];
    destruct (N.compare_spec (N_of_ascii b) (N_of_ascii c)) as [Hbc|Hbc|Hbc];
    destruct (N.compare_spec (N_of_ascii a) (N_of_ascii c)) as [Hac|Hac|Hac];
    try congruence; try lia.
  apply IH.
Qed.

Lemma collate_total (s t : string) :
  Examples.collate s t <= 0 \/ Examples.collate t s <= 0.
Proof.
  unfold Examples.collate. rewrite !compareCodeUnits_before.
  rewrite (String.compare_antisym (JSString.toLowerCase t)).
  destruct (String.compare (JSString.toLowerCase s) (JSString.toLowerCase t));
    simpl; [left | left | right]; congruence.
Qed.

Lemma collate_trans (s t u : string) :
  Examples.collate s t <= 0 -> Examples.collate t u <= 0 ->
  Examples.collate s u <= 0.
Proof.
  unfold Examples.collate. rewrite !compareCodeUnits_before.
  apply string_compare_trans.
Qed.

Lemma search_ranking_witness :
  let r := Examples.registryOf
             [Examples.saveFile; Examples.saveAs; Examples.secret;
              Examples.save] in
  (forall s t, Examples.collate s t <= 0 \/ Examples.collate t s <= 0)
  /\ (forall s t u,
        Examples.collate s t <= 0 -> Examples.collate t u <= 0 ->
        Examples.collate s u <= 0)
  /\ JSString.isBlank "   " = true
  /\ JSString.trim " Save " <> ""
  /\ CommandRegistryImpl.search Examples.collate "   " r
     = CommandRegistryImpl.getAll r
  /\ StronglySorted (Spec.mayPrecede Examples.collate "save")
       (CommandRegistryImpl.search Examples.collate " Save " r).
Proof.
  intros r.
  assert (Hblank : JSString.isBlank "   " = true) by reflexivity.
  assert (Hsave : JSString.trim " Save " <> "") by (vm_compute; discriminate).
  pose proof (search_ranking Examples.collate collate_total collate_trans
                r "   ") as [Hall _].
  pose proof (search_ranking Examples.collate collate_total collate_trans
                r " Save ") as [_ Hrank].
  exact (conj collate_total (conj collate_trans (conj Hblank (conj Hsave
           (conj (Hall Hblank) (proj2 (proj2 (proj2 (Hrank Hsave))))))))).
Defined.

Lemma search_query_normalized_witness :
  JSString.trim "  SaVe " <> ""
  /\ CommandRegistryImpl.search Examples.collate "  SaVe "
       (Examples.registryOf [Examples.saveAs; Examples.save])
     = CommandRegistryImpl.search Examples.collate "save"
         (Examples.registryOf [Examples.saveAs; Examples.save]).
Proof.
  assert (H : JSString.trim "  SaVe " <> "") by (vm_compute; discriminate).
  exact (conj H (search_query_normalized Examples.collate
                   (Examples.registryOf [Examples.saveAs; Examples.save])
                   "  SaVe " H)).
Defined.

(** ** The fuzzy pass *)



(** ** The end-to-end scenario *)



(** ** Execution *)

Section ExecutionFacts.
Context {Args Err Ext : Type}.
Import CommandRegistryImpl.

Local Abbreviation World := (CommandRegistryImpl.World Args Err Ext).

(** C8.  [executeCommand] on an id that is not registered, or on a command
    whose [canExecute] is present and returns false, returns normally; the
    registry (commands, history, observers) and the external state are as
    before, and the only effect is one console message: neither [execute]
    nor an observer is called. *)
Theorem executeCommand_skipped (w : World) (commandId : string)
    (args : option Args) (source : option Source.t) :
  (get commandId (self w) = None ->
   executeCommand commandId args source w
   = (Eff.Normal tt,
      logged w [Host.Log Host.error
                  ("Command with ID " ++ Host.quoted commandId
                     ++ " not found") None]
             (Host.ext (host w))))
  /\ (forall command canExecute,
        get commandId (self w) = Some command ->
        CommandAction.canExecute (Command.action command) = Some canExecute ->
        canExecute (Host.ext (host w)) = false ->
        executeCommand commandId args source w
        = (Eff.Normal tt,
           logged w [Host.Log Host.warn
                       ("Command " ++ Host.quoted commandId
                          ++ " cannot be executed at this time") None]
                  (Host.ext (host w)))).
Proof.
  split.
  - intros Hget. unfold executeCommand, Eff.bind, Eff.gets.
    rewrite Hget. reflexivity.
  - intros command canExecute Hget Hcan Hfalse.
    unfold executeCommand, Eff.bind, Eff.gets.
    rewrite Hget, Hcan. unfold call, Eff.ret. cbn.
    rewrite Hfalse. destruct w as [r [tr cl ex]]. reflexivity.
Qed.

(** C3.  When the [execute] callback of a registered, executable command
    throws or rejects with [e], [executeCommand] logs the error and throws
    [e] to its caller; commands, history and observers are as before, and no
    observer has been called: the trace gains the call of [execute] and the
    console message, nothing else. *)
Theorem executeCommand_failure (w : World) (commandId : string)
    (args : option Args) (source : option Source.t)
    (command : Command.t Args Err Ext) (e : Err) (ext' : Ext) :
  get commandId (self w) = Some command ->
  match CommandAction.canExecute (Command.action command) with
  | Some canExecute => canExecute (Host.ext (host w)) = true
  | None => True
  end ->
  CommandAction.execute (Command.action command) args (Host.ext (host w))
  = (ext', Some e) ->
  let result := executeCommand commandId args source w in
  result
  = (Eff.Throw e,
     logged w [Host.Executed commandId args;
               Host.Log Host.error
                 ("Error executing command " ++ Host.quoted commandId ++ ":")
                 (Some e)]
            ext')
  /\ history (self (snd result)) = history (self w)
  /\ commands (self (snd result)) = commands (self w)
  /\ listeners (self (snd result)) = listeners (self w)
  /\ filter Host.isNotified (Host.trace (host (snd result)))
     = filter Host.isNotified (Host.trace (host w)).
Proof.
  intros Hget Hcan Hexec result.
  assert (Hresult : result
    = (Eff.Throw e,
       logged w [Host.Executed commandId args;
                 Host.Log Host.error
                   ("Error executing command " ++ Host.quoted commandId
                      ++ ":") (Some e)]
              ext')).
  { unfold result, executeCommand, Eff.bind, Eff.gets.
    rewrite Hget.
    destruct w as [r [tr cl ex]]. cbn [self host Host.ext] in *.
    destruct (CommandAction.canExecute (Command.action command))
      as [canExecute|]; unfold call, Eff.ret; cbn;
      rewrite ?Hcan; cbn; unfold Eff.tryCatch, Eff.bind, callThrowing, call,
        Eff.bind, emit, Eff.modify; cbn; rewrite Hexec; cbn;
      unfold logged; cbn; rewrite <- app_assoc; reflexivity. }
  rewrite Hresult. repeat split.
  cbn [snd logged host Host.trace].
  rewrite filter_app. cbn. now rewrite app_nil_r.
Qed.

End ExecutionFacts.

Lemma executeCommand_skipped_witness :
  let w := {| CommandRegistryImpl.self :=
                Examples.withObserver (Examples.registryOf [Examples.gated]);
              CommandRegistryImpl.host := Examples.host0 |} in
  CommandRegistryImpl.get "edit.missing" (CommandRegistryImpl.self w) = None
  /\ fst (CommandRegistryImpl.executeCommand "edit.missing" None None w)
     = Eff.Normal tt
  /\ CommandRegistryImpl.get "edit.gated" (CommandRegistryImpl.self w)
     = Some Examples.gated
  /\ snd (CommandRegistryImpl.executeCommand "edit.gated" (Some 7)
            (Some Source.menu) w)
     = CommandRegistryImpl.logged w
         [Host.Log Host.warn
            ("Command " ++ Host.quoted "edit.gated"
               ++ " cannot be executed at this time") None] 0.
Proof.
  intros w.
  assert (H1 : CommandRegistryImpl.get "edit.missing"
                 (CommandRegistryImpl.self w) = None) by reflexivity.
  assert (H2 : CommandRegistryImpl.get "edit.gated"
                 (CommandRegistryImpl.self w) = Some Examples.gated)
    by reflexivity.
  pose proof (proj1 (executeCommand_skipped w "edit.missing" None None) H1)
    as Hmiss.
  pose proof (proj2 (executeCommand_skipped w "edit.gated" (Some 7)
                       (Some Source.menu))
                Examples.gated (fun n => 0 <? n) H2 eq_refl eq_refl)
    as Hgate.
  exact (conj H1 (conj (f_equal fst Hmiss) (conj H2 (f_equal snd Hgate)))).
Defined.

Lemma executeCommand_failure_witness :
  let w := {| CommandRegistryImpl.self :=
                Examples.withObserver (Examples.registryOf [Examples.broken]);
              CommandRegistryImpl.host := Examples.host0 |} in
  CommandRegistryImpl.get "debug.broken" (CommandRegistryImpl.self w)
  = Some Examples.broken
  /\ fst (CommandRegistryImpl.executeCommand "debug.broken" None None w)
     = Eff.Throw "boom"
  /\ CommandRegistryImpl.history
       (CommandRegistryImpl.self
          (snd (CommandRegistryImpl.executeCommand "debug.broken" None None
                  w)))
     = CommandHistoryImpl.new.
Proof.
  intros w.
  assert (H : CommandRegistryImpl.get "debug.broken"
                (CommandRegistryImpl.self w) = Some Examples.broken)
    by reflexivity.
  pose proof (executeCommand_failure w "debug.broken" None None
                Examples.broken "boom" 1 H I eq_refl) as [Hres [Hhist _]].
  exact (conj H (conj (f_equal fst Hres) Hhist)).
Defined.

(** For contrast, a successful execution: the record is put in the history
    and the observer is called. *)
Example executeCommand_success :
  let w := {| CommandRegistryImpl.self :=
                Examples.withObserver (Examples.registryOf [Examples.save]);
              CommandRegistryImpl.host := Examples.host0 |} in
  let result := CommandRegistryImpl.executeCommand "file.save" None
                  (Some Source.palette) w in
  fst result = Eff.Normal tt
  /\ CommandHistoryImpl.entries
       (CommandRegistryImpl.history (CommandRegistryImpl.self (snd result)))
     = [Examples.record 1000]
  /\ Host.trace (CommandRegistryImpl.host (snd result))
     = [Host.Executed "file.save" None; Host.Notified 1%nat "file.save"]
  /\ Host.ext (CommandRegistryImpl.host (snd result)) = 11.
Proof. repeat split. Qed.

(** ** Maps *)

Section MapFacts.
Context {V : Type}.

Lemma has_set_same (k : string) (v : V) (m : JSMap.t V) :
  JSMap.has k (JSMap.set k v m) = true.
Proof.
  unfold JSMap.has. induction m as [|[k' v'] m IH]; simpl.
  - now rewrite String.eqb_refl.
  - destruct (String.eqb k k') eqn:E; simpl; rewrite E; [reflexivity|exact IH].
Qed.

Lemma has_set_other (k k' : string) (v : V) (m : JSMap.t V) :
  JSMap.has k m = true -> JSMap.has k (JSMap.set k' v m) = true.
Proof.
  unfold JSMap.has. induction m as [|[k0 v0] m IH]; simpl; [discriminate|].
  destruct (String.eqb k' k0) eqn:E'; simpl;
    destruct (String.eqb k k0) eqn:E; auto.
Qed.

Lemma get_set_new (k : string) (v : V) (m : JSMap.t V) :
  JSMap.has k m = false -> JSMap.get k (JSMap.set k v m) = Some v.
Proof.
  unfold JSMap.has. induction m as [|[k0 v0] m IH]; simpl.
  - now rewrite String.eqb_refl.
  - destruct (String.eqb k k0) eqn:E; [discriminate|].
    simpl. rewrite E. exact IH.
Qed.

End MapFacts.

(** ** Registration conflicts *)

(** C5.  [register] with an id the command map already has, and
    [registerShortcut] with a combination whose key (sorted modifiers, lower
    case base key) the binding table already has, return normally and warn on
    the console; nothing else changes, so every lookup answers as before:
    the first registration stays. *)
Theorem registration_conflict_noop (Args Err Ext : Type) :
  (forall (w : CommandRegistryImpl.World Args Err Ext)
          (command : Command.t Args Err Ext),
      JSMap.has (Command.id command)
                (CommandRegistryImpl.commands (CommandRegistryImpl.self w))
      = true ->
      CommandRegistryImpl.register command w
      = (Eff.Normal tt,
         CommandRegistryImpl.logged w
           [Host.Log Host.warn
              ("Command with ID " ++ Host.quoted (Command.id command)
                 ++ " is already registered") None]
           (Host.ext (CommandRegistryImpl.host w)))
      /\ CommandRegistryImpl.self
           (snd (CommandRegistryImpl.register command w))
         = CommandRegistryImpl.self w)
  /\ (forall (w : KeyboardManagerImpl.World Args Err Ext)
             (commandId : string) (shortcut : KeyboardShortcut.t)
             (when : option (Ext -> bool)),
        JSMap.has (KeyboardManagerImpl.generateShortcutKey shortcut)
                  (KeyboardManagerImpl.keyBindings
                     (KeyboardManagerImpl.self w)) = true ->
        let w' := snd (KeyboardManagerImpl.registerShortcut commandId
                         shortcut when w) in
        fst (KeyboardManagerImpl.registerShortcut commandId shortcut when w)
        = Eff.Normal tt
        /\ KeyboardManagerImpl.self w' = KeyboardManagerImpl.self w
        /\ KeyboardManagerImpl.commandRegistry w'
           = KeyboardManagerImpl.commandRegistry w
        /\ Host.trace (KeyboardManagerImpl.host w')
           = (Host.trace (KeyboardManagerImpl.host w)
              ++ [Host.Log Host.warn
                    ("Keyboard shortcut "
                       ++ Host.quoted
                            (KeyboardManagerImpl.generateShortcutKey shortcut)
                       ++ " is already registered") None])%list
        /\ Host.ext (KeyboardManagerImpl.host w')
           = Host.ext (KeyboardManagerImpl.host w)).
Proof.
  split.
  - intros w command Hhas.
    unfold CommandRegistryImpl.register, Eff.bind, Eff.gets.
    rewrite Hhas. destruct w as [r [tr cl ex]]. now split.
  - intros w commandId shortcut when Hhas w'.
    unfold w', KeyboardManagerImpl.registerShortcut, Eff.bind, Eff.gets.
    rewrite Hhas. now repeat split.
Qed.

Lemma registration_conflict_noop_witness :
  let w1 := snd (CommandRegistryImpl.register Examples.save
                   (Examples.world [])) in
  let k1 := snd (KeyboardManagerImpl.registerShortcut "first"
                   Examples.ctrlShiftK None (Examples.keyboard [])) in
  JSMap.has "file.save"
    (CommandRegistryImpl.commands (CommandRegistryImpl.self w1)) = true
  /\ CommandRegistryImpl.get "file.save"
       (CommandRegistryImpl.self
          (snd (CommandRegistryImpl.register Examples.impostor w1)))
     = Some Examples.save
  /\ JSMap.has (KeyboardManagerImpl.generateShortcutKey Examples.shiftCtrlk)
       (KeyboardManagerImpl.keyBindings (KeyboardManagerImpl.self k1)) = true
  /\ KeyboardManagerImpl.getShortcutForCommand "second"
       (KeyboardManagerImpl.self
          (snd (KeyboardManagerImpl.registerShortcut "second"
                  Examples.shiftCtrlk None k1)))
     = None.
Proof.
  intros w1 k1.
  assert (H1 : JSMap.has (Command.id Examples.impostor)
                 (CommandRegistryImpl.commands (CommandRegistryImpl.self w1))
               = true) by reflexivity.
  assert (H2 : JSMap.has
                 (KeyboardManagerImpl.generateShortcutKey Examples.shiftCtrlk)
                 (KeyboardManagerImpl.keyBindings
                    (KeyboardManagerImpl.self k1)) = true) by reflexivity.
  pose proof (proj1 (registration_conflict_noop Z string Z) w1
                Examples.impostor H1) as [_ Hreg].
  pose proof (proj2 (registration_conflict_noop Z string Z) k1 "second"
                Examples.shiftCtrlk None H2) as [_ [Hkey _]].
  refine (conj H1 (conj _ (conj H2 _))).
  - exact (f_equal (CommandRegistryImpl.get "file.save") Hreg).
  - exact (f_equal (KeyboardManagerImpl.getShortcutForCommand "second") Hkey).
Defined.

(** ** Matching a key press against a binding *)

Lemma modifier_includes_In (ms : list KeyModifier.t) (m : KeyModifier.t) :
  KeyModifier.includes ms m = true <-> In m ms.
Proof.
  unfold KeyModifier.includes. rewrite existsb_exists. split.
  - intros [x [Hx E]]. destruct m, x; try discriminate E; exact Hx.
  - intros H. exists m. split; [exact H | now destruct m].
Qed.

Lemma flag_matches (flag : bool) (ms : list KeyModifier.t)
    (m : KeyModifier.t) :
  Bool.eqb flag (KeyModifier.includes ms m) = true <->
  (flag = true <-> In m ms).
Proof.
  rewrite <- modifier_includes_In.
  destruct flag, (KeyModifier.includes ms m); simpl; intuition congruence.
Qed.

(** C6.  A key press matches a binding exactly when the base keys are equal
    up to letter case and each of the four modifier flags of the event is set
    exactly when the binding lists that modifier; so an event with the
    control key down never matches a binding without modifiers. *)
Theorem matchesShortcut_exact (event : KeyboardEvent.t)
    (shortcut : KeyboardShortcut.t) :
  let required := match KeyboardShortcut.modifiers shortcut with
                  | Some ms => ms
                  | None => []
                  end in
  (KeyboardManagerImpl.matchesShortcut event shortcut = true <->
   JSString.toLowerCase (KeyboardEvent.key event)
   = JSString.toLowerCase (KeyboardShortcut.key shortcut)
   /\ (KeyboardEvent.ctrlKey event = true <-> In KeyModifier.ctrl required)
   /\ (KeyboardEvent.shiftKey event = true <-> In KeyModifier.shift required)
   /\ (KeyboardEvent.altKey event = true <-> In KeyModifier.alt required)
   /\ (KeyboardEvent.metaKey event = true <-> In KeyModifier.meta required))
  /\ (KeyboardEvent.ctrlKey event = true -> required = [] ->
      KeyboardManagerImpl.matchesShortcut event shortcut = false).
Proof.
  intros required.
  assert (Hiff :
    KeyboardManagerImpl.matchesShortcut event shortcut = true <->
    JSString.toLowerCase (KeyboardEvent.key event)
    = JSString.toLowerCase (KeyboardShortcut.key shortcut)
    /\ (KeyboardEvent.ctrlKey event = true <-> In KeyModifier.ctrl required)
    /\ (KeyboardEvent.shiftKey event = true <-> In KeyModifier.shift required)
    /\ (KeyboardEvent.altKey event = true <-> In KeyModifier.alt required)
    /\ (KeyboardEvent.metaKey event = true <-> In KeyModifier.meta required)).
  { unfold KeyboardManagerImpl.matchesShortcut.
    change (KeyboardManagerImpl.modifiersOf shortcut) with required.
    destruct (String.eqb_spec
                (JSString.toLowerCase (KeyboardEvent.key event))
                (JSString.toLowerCase (KeyboardShortcut.key shortcut)))
      as [Hk|Hk]; cbn [negb].
    - rewrite !andb_true_iff, !flag_matches. tauto.
    - split; [discriminate | tauto]. }
  split; [exact Hiff|].
  intros Hctrl Hnone.
  destruct (KeyboardManagerImpl.matchesShortcut event shortcut) eqn:E;
    [|reflexivity].
  destruct (proj1 Hiff eq_refl) as [_ [Hc _]].
  rewrite Hnone in Hc. now apply Hc in Hctrl.
Qed.

Lemma matchesShortcut_exact_witness :
  KeyboardEvent.ctrlKey (Examples.press "k" true false false false) = true
  /\ KeyboardShortcut.modifiers Examples.bareK = None
  /\ JSString.toLowerCase "k"
     = JSString.toLowerCase (KeyboardShortcut.key Examples.bareK)
  /\ KeyboardManagerImpl.matchesShortcut
       (Examples.press "k" true false false false) Examples.bareK = false.
Proof.
  refine (conj eq_refl (conj eq_refl (conj eq_refl _))).
  exact (proj2 (matchesShortcut_exact
                  (Examples.press "k" true false false false) Examples.bareK)
           eq_refl eq_refl).
Defined.

(** ** Bulk registration of shortcuts *)

Section BulkFacts.
Context {Args Err Ext : Type}.
Import KeyboardManagerImpl.

Local Abbreviation World := (KeyboardManagerImpl.World Args Err Ext).
Local Abbreviation Command := (Command.t Args Err Ext).

(** The body of the [forEach] of [registerCommandShortcuts]. *)
Local Abbreviation step :=
  (fun command : Command =>
     match Command.keybinding command with
     | Some keybinding =>
         registerShortcut (Args := Args) (Err := Err)
           (Command.id command) keybinding None
     | None => Eff.ret tt
     end).

Local Abbreviation bound k w := (JSMap.has k (keyBindings (self w)) = true).

Lemma registerShortcut_normal (w : World) (id : string)
    (shortcut : KeyboardShortcut.t) (when : option (Ext -> bool)) :
  fst (registerShortcut id shortcut when w) = Eff.Normal tt
  /\ commandRegistry (snd (registerShortcut id shortcut when w))
     = commandRegistry w
  /\ bound (generateShortcutKey shortcut)
           (snd (registerShortcut id shortcut when w))
  /\ (forall k, bound k w ->
                bound k (snd (registerShortcut id shortcut when w))).
Proof.
  unfold registerShortcut, Eff.bind, Eff.gets.
  destruct (JSMap.has (generateShortcutKey shortcut) (keyBindings (self w)))
    eqn:E; cbn.
  - split; [|split; [|split]]; auto.
  - split; [|split; [|split]]; auto.
    + apply has_set_same.
    + intros k Hk. now apply has_set_other.
Qed.

Lemma step_normal (w : World) (command : Command) :
  fst (step command w) = Eff.Normal tt
  /\ commandRegistry (snd (step command w)) = commandRegistry w
  /\ (forall keybinding,
        Command.keybinding command = Some keybinding ->
        bound (generateShortcutKey keybinding) (snd (step command w)))
  /\ (forall k, bound k w -> bound k (snd (step command w))).
Proof.
  cbv beta. destruct (Command.keybinding command) as [keybinding|].
  - destruct (registerShortcut_normal w (Command.id command) keybinding None)
      as [H1 [H2 [H3 H4]]].
    split; [|split; [|split]]; auto.
    intros kb E. now injection E as <-.
  - cbn. split; [|split; [|split]]; auto. discriminate.
Qed.

Lemma forEach_step (cs : list Command) :
  forall w : World,
    fst (Eff.forEach cs step w) = Eff.Normal tt
    /\ commandRegistry (snd (Eff.forEach cs step w)) = commandRegistry w
    /\ (forall command keybinding,
          In command cs ->
          Command.keybinding command = Some keybinding ->
          bound (generateShortcutKey keybinding)
                (snd (Eff.forEach cs step w)))
    /\ (forall k, bound k w -> bound k (snd (Eff.forEach cs step w))).
Proof.
  induction cs as [|c cs IH]; intros w.
  - cbn. split; [|split; [|split]]; auto.
  - destruct (step_normal w c) as [H1 [H2 [H3 H4]]].
    destruct (step c w) as [[[]|e] w1] eqn:E; cbn [fst snd] in *;
      [|discriminate H1].
    assert (Heq : Eff.forEach (c :: cs) step w = Eff.forEach cs step w1).
    { cbn [Eff.forEach]. unfold Eff.bind. cbv beta in E |- *.
      now rewrite E. }
    rewrite Heq.
    destruct (IH w1) as [I1 [I2 [I3 I4]]].
    split; [|split; [|split]].
    + exact I1.
    + now rewrite I2.
    + intros command keybinding [<-|Hin] Hkb.
      * apply I4. now apply H3.
      * now apply I3 with command.
    + intros k Hk. now apply I4, H4.
Qed.

(** What the bulk operation does: it returns normally, leaves the registry
    alone, keeps every binding made before, and afterwards the key of every
    command that [getAll()] lists, that is of every command that is not
    hidden, is bound. *)
Lemma registerCommandShortcuts_visible (w : World) :
  let w' := snd (registerCommandShortcuts w) in
  fst (registerCommandShortcuts w) = Eff.Normal tt
  /\ commandRegistry w' = commandRegistry w
  /\ (forall k, bound k w -> bound k w')
  /\ (forall command keybinding,
        In command
           (JSMap.values (CommandRegistryImpl.commands (commandRegistry w))) ->
        Command.isHidden command = false ->
        Command.keybinding command = Some keybinding ->
        bound (generateShortcutKey keybinding) w').
Proof.
  intros w'. unfold w', registerCommandShortcuts, Eff.bind, Eff.gets.
  cbn [fst snd].
  destruct (forEach_step (CommandRegistryImpl.getAll (commandRegistry w)) w)
    as [H1 [H2 [H3 H4]]].
  split; [|split; [|split]]; auto.
  intros command keybinding Hin Hvis Hkb.
  apply H3 with command; [|exact Hkb].
  unfold CommandRegistryImpl.getAll.
  apply sort_In, filter_In. split; [exact Hin | now rewrite Hvis].
Qed.

End BulkFacts.

(** C9 at a hidden command.  [Examples.secret] is registered, hidden, and
    carries the binding ctrl+k; after [registerCommandShortcuts] the binding
    table is still empty and ctrl+k is still available, because the
    operation walks [getAll()], which leaves hidden commands out. *)
Theorem registerCommandShortcuts_skips_hidden :
  let w := Examples.keyboard [Examples.save; Examples.secret] in
  let w' := snd (KeyboardManagerImpl.registerCommandShortcuts w) in
  CommandRegistryImpl.get "view.secret"
    (KeyboardManagerImpl.commandRegistry w) = Some Examples.secret
  /\ Command.keybinding Examples.secret = Some Examples.ctrlK
  /\ Command.isHidden Examples.secret = true
  /\ KeyboardManagerImpl.keyBindings (KeyboardManagerImpl.self w')
     = JSMap.empty
  /\ KeyboardManagerImpl.isShortcutAvailable Examples.ctrlK
       (KeyboardManagerImpl.self w') = true
  /\ KeyboardManagerImpl.getShortcutForCommand "view.secret"
       (KeyboardManagerImpl.self w') = None.
Proof. repeat split. Qed.

(** ** Double precision *)

(** For titles of up to 256 characters, the binary64 computation of the
    source gives the score of the exact model. *)
Lemma fuzzyScore_double_exact (matched len : nat) :
  (1 <= len <= 256)%nat -> (matched <= len)%nat ->
  Double.fuzzyScore (Z.of_nat matched) (Z.of_nat len)
  = Double.exactScore (Z.of_nat matched) (Z.of_nat len).
Proof.
  intros Hlen Hm.
  assert (H : Double.agreeUpTo 256 = true) by (vm_compute; reflexivity).
  unfold Double.agreeUpTo in H. rewrite forallb_forall in H.
  assert (Hin : In len (seq 1 256)) by (apply in_seq; lia).
  specialize (H len Hin). rewrite forallb_forall in H.
  apply Z.eqb_eq, H, in_seq. lia.
Qed.

(* ================================================================== *)
(** * Part III: further properties of the two classes                 *)
(* ================================================================== *)

(** ** More on maps *)

Section MoreMapFacts.
Context {V : Type}.

Lemma has_In (k : string) (m : JSMap.t V) :
  JSMap.has k m = true <-> In k (JSMap.keys m).
Proof.
  unfold JSMap.has. induction m as [|[k' v'] m IH]; simpl; [easy|].
  destruct (String.eqb_spec k k') as [->|Hne].
  - split; auto.
  - rewrite IH. split; [auto | intros [E|H]; congruence].
Qed.

Lemma has_false_In (k : string) (m : JSMap.t V) :
  JSMap.has k m = false <-> ~ In k (JSMap.keys m).
Proof.
  rewrite <- has_In. destruct (JSMap.has k m); split; congruence.
Qed.

Lemma get_set_same (k : string) (v : V) (m : JSMap.t V) :
  JSMap.get k (JSMap.set k v m) = Some v.
Proof.
  induction m as [|[k' v'] m IH]; simpl.
  - now rewrite String.eqb_refl.
  - destruct (String.eqb k k') eqn:E; simpl; rewrite E; [reflexivity|exact IH].
Qed.

Lemma get_set_other (k k' : string) (v : V) (m : JSMap.t V) :
  k <> k' -> JSMap.get k (JSMap.set k' v m) = JSMap.get k m.
Proof.
  intros Hne. induction m as [|[k0 v0] m IH]; simpl.
  - now apply String.eqb_neq in Hne as ->.
  - destruct (String.eqb_spec k' k0) as [->|H0]; simpl.
    + now apply String.eqb_neq in Hne as ->.
    + now rewrite IH.
Qed.

Lemma set_fresh (k : string) (v : V) (m : JSMap.t V) :
  JSMap.has k m = false -> JSMap.set k v m = (m ++ [(k, v)])%list.
Proof.
  unfold JSMap.has. induction m as [|[k' v'] m IH]; simpl; [reflexivity|].
  destruct (String.eqb k k'); [discriminate|].
  intros H. now rewrite IH.
Qed.

Lemma delete_absent (k : string) (m : JSMap.t V) :
  JSMap.has k m = false -> JSMap.delete k m = m.
Proof.
  unfold JSMap.has. induction m as [|[k' v'] m IH]; simpl; [reflexivity|].
  destruct (String.eqb k k'); [discriminate|].
  intros H. now rewrite IH.
Qed.

Lemma delete_set_fresh (k : string) (v : V) (m : JSMap.t V) :
  JSMap.has k m = false -> JSMap.delete k (JSMap.set k v m) = m.
Proof.
  intros H. rewrite (set_fresh k v m H). revert H. unfold JSMap.has.
  induction m as [|[k' v'] m IH]; simpl.
  - now rewrite String.eqb_refl.
  - destruct (String.eqb k k'); [discriminate|].
    intros H. now rewrite IH.
Qed.

Lemma get_delete_other (k k' : string) (m : JSMap.t V) :
  k <> k' -> JSMap.get k (JSMap.delete k' m) = JSMap.get k m.
Proof.
  intros Hne. induction m as [|[k0 v0] m IH]; simpl; [reflexivity|].
  destruct (String.eqb_spec k' k0) as [->|H0]; simpl.
  - now apply String.eqb_neq in Hne as ->.
  - now rewrite IH.
Qed.

Lemma get_None_In (k : string) (m : JSMap.t V) :
  JSMap.get k m = None <-> ~ In k (JSMap.keys m).
Proof.
  rewrite <- has_false_In. unfold JSMap.has.
  destruct (JSMap.get k m); split; congruence.
Qed.

Lemma get_delete_same (k : string) (m : JSMap.t V) :
  NoDup (JSMap.keys m) -> JSMap.get k (JSMap.delete k m) = None.
Proof.
  induction m as [|[k' v'] m IH]; simpl; [reflexivity|].
  intros Hnd. inversion Hnd as [|? ? Hnotin Hnd']; subst.
  destruct (String.eqb_spec k k') as [->|Hne]; simpl.
  - now apply get_None_In.
  - apply String.eqb_neq in Hne. rewrite Hne. now apply IH.
Qed.

Lemma keys_delete_incl (k : string) (m : JSMap.t V) (x : string) :
  In x (JSMap.keys (JSMap.delete k m)) -> In x (JSMap.keys m).
Proof.
  induction m as [|[k' v'] m IH]; simpl; [easy|].
  destruct (String.eqb k k'); simpl; intuition.
Qed.

Lemma NoDup_keys_delete (k : string) (m : JSMap.t V) :
  NoDup (JSMap.keys m) -> NoDup (JSMap.keys (JSMap.delete k m)).
Proof.
  induction m as [|[k' v'] m IH]; simpl; [easy|].
  intros Hnd. inversion Hnd as [|? ? Hnotin Hnd']; subst.
  destruct (String.eqb k k'); simpl; [exact Hnd'|].
  constructor; [|now apply IH].
  intros Hin. apply Hnotin. eapply keys_delete_incl, Hin.
Qed.

Lemma Forall_delete (P : string * V -> Prop) (k : string) (m : JSMap.t V) :
  Forall P m -> Forall P (JSMap.delete k m).
Proof.
  induction 1 as [|[k' v'] m Hx Hm IH]; simpl; [constructor|].
  destruct (String.eqb k k'); [exact Hm | now constructor].
Qed.

Lemma NoDup_keys_set_fresh (k : string) (v : V) (m : JSMap.t V) :
  JSMap.has k m = false -> NoDup (JSMap.keys m) ->
  NoDup (JSMap.keys (JSMap.set k v m)).
Proof.
  intros Hk Hnd. rewrite (set_fresh k v m Hk). unfold JSMap.keys.
  rewrite map_app. simpl.
  apply NoDup_app; [exact Hnd | repeat constructor; easy |].
  intros x Hx [<-|[]]. now apply has_false_In in Hk.
Qed.

End MoreMapFacts.

(** ** Registration and lookup *)

Section RegistryFacts.
Context {Args Err Ext : Type}.
Import CommandRegistryImpl.

Local Abbreviation World := (CommandRegistryImpl.World Args Err Ext).
Local Abbreviation Command := (Command.t Args Err Ext).

(** [register] as one equation. *)
Lemma register_run (command : Command) (w : World) :
  register command w
  = if JSMap.has (Command.id command) (commands (self w))
    then (Eff.Normal tt,
          logged w [Host.Log Host.warn
                      ("Command with ID " ++ Host.quoted (Command.id command)
                         ++ " is already registered") None]
                 (Host.ext (host w)))
    else (Eff.Normal tt,
          {| self := {| commands := JSMap.set (Command.id command) command
                                      (commands (self w));
                        history := history (self w);
                        listeners := listeners (self w) |};
             host := host w |}).
Proof.
  unfold register, Eff.bind, Eff.gets.
  destruct (JSMap.has (Command.id command) (commands (self w)));
    destruct w as [r [tr cl ex]]; reflexivity.
Qed.

Lemma register_get (command : Command) (w : World) (k : string) :
  get k (self (snd (register command w)))
  = match get k (self w) with
    | Some c => Some c
    | None => if String.eqb (Command.id command) k then Some command else None
    end.
Proof.
  rewrite register_run. unfold get.
  destruct (JSMap.has (Command.id command) (commands (self w))) eqn:Hhas;
    cbn [snd self commands logged].
  - destruct (JSMap.get k (commands (self w))) eqn:Hk; [reflexivity|].
    destruct (String.eqb_spec (Command.id command) k) as [<-|Hne];
      [|reflexivity].
    unfold JSMap.has in Hhas. now rewrite Hk in Hhas.
  - destruct (String.eqb_spec (Command.id command) k) as [<-|Hne].
    + rewrite get_set_same. unfold JSMap.has in Hhas.
      now destruct (JSMap.get (Command.id command) (commands (self w))).
    + rewrite get_set_other by congruence.
      now destruct (JSMap.get k (commands (self w))).
Qed.

Lemma register_frame (command : Command) (w : World) :
  fst (register command w) = Eff.Normal tt
  /\ history (self (snd (register command w))) = history (self w)
  /\ listeners (self (snd (register command w))) = listeners (self w)
  /\ Host.ext (host (snd (register command w))) = Host.ext (host w).
Proof.
  rewrite register_run.
  destruct (JSMap.has (Command.id command) (commands (self w)));
    repeat split.
Qed.

(** X1.  Registering a command under an id the map does not have makes
    [get] return it under that id and changes no other lookup; the command
    goes last in the iteration order; nothing is logged; and
    [unregister] of that id gives back the state before. *)
Theorem register_fresh_roundtrip (w : World) (command : Command) :
  JSMap.has (Command.id command) (commands (self w)) = false ->
  let w' := snd (register command w) in
  get (Command.id command) (self w') = Some command
  /\ (forall k, k <> Command.id command -> get k (self w') = get k (self w))
  /\ JSMap.values (commands (self w'))
     = (JSMap.values (commands (self w)) ++ [command])%list
  /\ host w' = host w
  /\ snd (unregister (Command.id command) w') = w.
Proof.
  intros Hfresh w'. unfold w'. rewrite register_run, Hfresh.
  cbn [snd self commands host]. unfold get. cbn [commands].
  split; [apply get_set_same|].
  split; [intros k Hk; now apply get_set_other|].
  split.
  { rewrite (set_fresh _ _ _ Hfresh). unfold JSMap.values.
    now rewrite map_app. }
  split; [reflexivity|].
  unfold unregister, setCommands, Eff.modify. cbn.
  rewrite (delete_set_fresh _ _ _ Hfresh).
  now destruct w as [[cs h ls] hst].
Qed.

(** X2.  After [registerAll], an id that was registered before keeps its
    command, and any other id resolves to the first command of the array
    that carries it: later duplicates are dropped one by one, the rest of the
    array is still registered, and the call returns normally. *)
Theorem registerAll_first_wins (cs : list Command) :
  forall (w : World) (k : string),
    fst (registerAll cs w) = Eff.Normal tt
    /\ get k (self (snd (registerAll cs w)))
       = match get k (self w) with
         | Some c => Some c
         | None => find (fun c => String.eqb (Command.id c) k) cs
         end
    /\ history (self (snd (registerAll cs w))) = history (self w)
    /\ listeners (self (snd (registerAll cs w))) = listeners (self w).
Proof.
  unfold registerAll.
  induction cs as [|c cs IH]; intros w k.
  - cbn. now destruct (get k (self w)).
  - destruct (register_frame c w) as [Hn [Hh [Hl _]]].
    pose proof (register_get c w k) as Hg.
    destruct (register c w) as [[[]|e] w1] eqn:E; cbn [fst snd] in *;
      [|discriminate Hn].
    assert (Heq : Eff.forEach (c :: cs) register w
                  = Eff.forEach cs register w1).
    { cbn [Eff.forEach]. unfold Eff.bind. now rewrite E. }
    rewrite Heq. destruct (IH w1 k) as [I1 [I2 [I3 I4]]].
    split; [exact I1|]. split; [|split; congruence].
    rewrite I2, Hg. cbn [find].
    destruct (get k (self w)); [reflexivity|].
    now destruct (String.eqb (Command.id c) k).
Qed.

End RegistryFacts.

(** ** Successful execution and the observers *)

Section ObserverFacts.
Context {Args Err Ext : Type}.
Import CommandRegistryImpl.

Local Abbreviation World := (CommandRegistryImpl.World Args Err Ext).
Local Abbreviation Command := (Command.t Args Err Ext).

(** The body of [this.listeners.forEach] in [executeCommand]. *)
Local Abbreviation notifyOne command args :=
  (fun listener : Listener Args Err Ext =>
     Eff.tryCatch
       (Eff.bind (emit (Host.Notified (handle listener) (Command.id command)))
          (fun _ => callThrowing (notify listener command args)))
       (fun error => consoleError "Command listener error:" (Some error))).

Lemma notifyOne_run (command : Command) (args : option Args)
    (listener : Listener Args Err Ext) (w : World) :
  notifyOne command args listener w
  = (Eff.Normal tt,
     logged w
       (Host.Notified (handle listener) (Command.id command)
        :: match snd (notify listener command args (Host.ext (host w))) with
           | Some e => [Host.Log Host.error "Command listener error:" (Some e)]
           | None => []
           end)
       (fst (notify listener command args (Host.ext (host w))))).
Proof.
  unfold Eff.tryCatch, Eff.bind, emit, Eff.modify, callThrowing, Eff.bind,
    call, consoleError, emit, Eff.modify, Eff.throw, Eff.ret, logged.
  destruct w as [r [tr cl ex]]. cbn.
  destruct (notify listener command args ex) as [ex' [e|]]; cbn;
    now rewrite <- ?app_assoc.
Qed.

Lemma notifyAll_run (command : Command) (args : option Args)
    (ls : list (Listener Args Err Ext)) :
  forall w : World,
    let result := Eff.forEach ls (notifyOne command args) w in
    fst result = Eff.Normal tt
    /\ self (snd result) = self w
    /\ Host.clock (host (snd result)) = Host.clock (host w)
    /\ filter Host.isNotified (Host.trace (host (snd result)))
       = (filter Host.isNotified (Host.trace (host w))
          ++ map (fun l => Host.Notified (handle l) (Command.id command)) ls)
         %list
    /\ filter Host.isExecuted (Host.trace (host (snd result)))
       = filter Host.isExecuted (Host.trace (host w)).
Proof.
  induction ls as [|l ls IH]; intros w result.
  - cbn. rewrite app_nil_r. now repeat split.
  - pose proof (notifyOne_run command args l w) as Hrun. cbv beta in Hrun.
    assert (Heq : result
                  = Eff.forEach ls (notifyOne command args)
                      (logged w
                         (Host.Notified (handle l) (Command.id command)
                          :: match snd (notify l command args
                                          (Host.ext (host w))) with
                             | Some e =>
                                 [Host.Log Host.error
                                    "Command listener error:" (Some e)]
                             | None => []
                             end)
                         (fst (notify l command args (Host.ext (host w)))))).
    { unfold result. cbn [Eff.forEach]. unfold Eff.bind at 1. cbv beta.
      now rewrite Hrun. }
    rewrite Heq. clear Heq Hrun result.
    match goal with
    | |- context [Eff.forEach ls _ ?w1] => specialize (IH w1)
    end.
    cbv zeta in IH. destruct IH as [I1 [I2 [I3 [I4 I5]]]].
    cbn [snd logged self host Host.trace Host.clock] in I2, I3, I4, I5.
    split; [exact I1|]. split; [exact I2|]. split; [exact I3|].
    rewrite filter_app in I4, I5.
    split.
    + rewrite I4. cbn [map].
      destruct (snd (notify l command args (Host.ext (host w))));
        cbn; now rewrite <- app_assoc.
    + rewrite I5.
      destruct (snd (notify l command args (Host.ext (host w))));
        cbn; now rewrite app_nil_r.
Qed.

Local Abbreviation executed := CommandRun.executed.

(** [executeCommand] as one equation over its four outcomes. *)
Lemma executeCommand_run (w : World) (commandId : string)
    (args : option Args) (source : option Source.t) :
  executeCommand commandId args source w
  = match get commandId (self w) with
    | None =>
        (Eff.Normal tt,
         logged w [Host.Log Host.error
                     ("Command with ID " ++ Host.quoted commandId
                        ++ " not found") None]
                (Host.ext (host w)))
    | Some command =>
        if match CommandAction.canExecute (Command.action command) with
           | Some canExecute => negb (canExecute (Host.ext (host w)))
           | None => false
           end
        then
          (Eff.Normal tt,
           logged w [Host.Log Host.warn
                       ("Command " ++ Host.quoted commandId
                          ++ " cannot be executed at this time") None]
                  (Host.ext (host w)))
        else
          match CommandAction.execute (Command.action command) args
                  (Host.ext (host w)) with
          | (ext1, Some e) =>
              (Eff.Throw e,
               logged w [Host.Executed commandId args;
                         Host.Log Host.error
                           ("Error executing command "
                              ++ Host.quoted commandId ++ ":") (Some e)]
                      ext1)
          | (ext1, None) =>
              Eff.forEach (listeners (self w)) (notifyOne command args)
                (executed w commandId args source ext1)
          end
    end.
Proof.
  unfold executeCommand, Eff.bind at 1, Eff.gets at 1. cbv beta.
  destruct (get commandId (self w)) as [command|]; [|reflexivity].
  destruct w as [r [tr cl ex]]. cbn [self host Host.ext Host.clock].
  destruct (CommandAction.canExecute (Command.action command))
    as [canExecute|].
  - unfold Eff.bind at 1, Eff.bind at 1, call, Eff.ret. cbn.
    destruct (canExecute ex); cbn; [|reflexivity].
    unfold Eff.tryCatch, Eff.bind at 1, Eff.bind at 1, callThrowing,
      Eff.bind at 1, call, emit, Eff.modify. cbn.
    destruct (CommandAction.execute (Command.action command) args ex)
      as [ex1 [e|]]; cbn.
    + unfold logged. cbn. now rewrite <- app_assoc.
    + unfold Eff.bind, setHistory, Eff.modify, Eff.gets. cbn.
      match goal with
      | |- match ?x with _ => _ end = Eff.forEach ?ls ?f ?w0 =>
          change x with (Eff.forEach ls f w0);
          assert (Hn : fst (Eff.forEach ls f w0) = Eff.Normal tt)
            by exact (proj1 (notifyAll_run command args ls w0));
          destruct (Eff.forEach ls f w0) as [[[]|e'] w'];
          [reflexivity | discriminate Hn]
      end.
  - unfold Eff.bind at 1, Eff.ret. cbn.
    unfold Eff.tryCatch, Eff.bind at 1, Eff.bind at 1, callThrowing,
      Eff.bind at 1, call, emit, Eff.modify. cbn.
    destruct (CommandAction.execute (Command.action command) args ex)
      as [ex1 [e|]]; cbn.
    + unfold logged. cbn. now rewrite <- app_assoc.
    + unfold Eff.bind, setHistory, Eff.modify, Eff.gets. cbn.
      match goal with
      | |- match ?x with _ => _ end = Eff.forEach ?ls ?f ?w0 =>
          change x with (Eff.forEach ls f w0);
          assert (Hn : fst (Eff.forEach ls f w0) = Eff.Normal tt)
            by exact (proj1 (notifyAll_run command args ls w0));
          destruct (Eff.forEach ls f w0) as [[[]|e'] w'];
          [reflexivity | discriminate Hn]
      end.
Qed.

(** X3.  When the callback of a registered, executable command resolves,
    [executeCommand] returns normally, puts one record (id, clock, source,
    arguments) in front of the history, and calls every observer once, in
    subscription order, whether or not some of them throw; the commands and
    the observers are as before. *)
Theorem executeCommand_resolved (w : World) (commandId : string)
    (args : option Args) (source : option Source.t)
    (command : Command) (ext1 : Ext) :
  get commandId (self w) = Some command ->
  match CommandAction.canExecute (Command.action command) with
  | Some canExecute => canExecute (Host.ext (host w)) = true
  | None => True
  end ->
  CommandAction.execute (Command.action command) args (Host.ext (host w))
  = (ext1, None) ->
  let result := executeCommand commandId args source w in
  fst result = Eff.Normal tt
  /\ history (self (snd result))
     = CommandHistoryImpl.add
         {| CommandExecutionContext.commandId := commandId;
            CommandExecutionContext.timestamp := Host.clock (host w);
            CommandExecutionContext.source :=
              match source with
              | Some s => s
              | None => Source.programmatic
              end;
            CommandExecutionContext.args := args |}
         (history (self w))
  /\ commands (self (snd result)) = commands (self w)
  /\ listeners (self (snd result)) = listeners (self w)
  /\ filter Host.isNotified (Host.trace (host (snd result)))
     = (filter Host.isNotified (Host.trace (host w))
        ++ map (fun l => Host.Notified (handle l) (Command.id command))
               (listeners (self w)))%list.
Proof.
  intros Hget Hcan Hexec result. unfold result.
  rewrite executeCommand_run, Hget.
  assert (Hgo : match CommandAction.canExecute (Command.action command) with
                | Some canExecute => negb (canExecute (Host.ext (host w)))
                | None => false
                end = false).
  { destruct (CommandAction.canExecute (Command.action command));
      [now rewrite Hcan | reflexivity]. }
  rewrite Hgo, Hexec.
  destruct (notifyAll_run command args (listeners (self w))
              (executed w commandId args source ext1))
    as [H1 [H2 [_ [H4 _]]]].
  split; [exact H1|]. rewrite H2, H4.
  cbn [CommandRun.executed self host history commands listeners Host.trace].
  rewrite filter_app. cbn. rewrite app_nil_r. now repeat split.
Qed.

Lemma executeCommand_keeps_commands (w : World) (commandId : string)
    (args : option Args) (source : option Source.t) :
  commands (self (snd (executeCommand commandId args source w)))
  = commands (self w).
Proof.
  rewrite executeCommand_run.
  destruct (get commandId (self w)) as [command|]; [|reflexivity].
  destruct (match CommandAction.canExecute (Command.action command) with
            | Some canExecute => negb (canExecute (Host.ext (host w)))
            | None => false
            end); [reflexivity|].
  destruct (CommandAction.execute (Command.action command) args
              (Host.ext (host w))) as [ext1 [e|]]; [reflexivity|].
  destruct (notifyAll_run command args (listeners (self w))
              (executed w commandId args source ext1)) as [_ [H2 _]].
  now rewrite H2.
Qed.

(** X4.  Whatever its arguments, [executeCommand] leaves the command map and
    the observers alone and calls [execute] at most once; the history is
    either untouched or has gained one record, the latter only when the call
    returns normally; and when the call throws, no observer has been called
    and the history is as before. *)
Theorem executeCommand_frame (w : World) (commandId : string)
    (args : option Args) (source : option Source.t) :
  let result := executeCommand commandId args source w in
  commands (self (snd result)) = commands (self w)
  /\ listeners (self (snd result)) = listeners (self w)
  /\ (history (self (snd result)) = history (self w)
      \/ (fst result = Eff.Normal tt
          /\ history (self (snd result))
             = CommandHistoryImpl.add
                 {| CommandExecutionContext.commandId := commandId;
                    CommandExecutionContext.timestamp :=
                      Host.clock (host w);
                    CommandExecutionContext.source :=
                      match source with
                      | Some s => s
                      | None => Source.programmatic
                      end;
                    CommandExecutionContext.args := args |}
                 (history (self w))))
  /\ (filter Host.isExecuted (Host.trace (host (snd result)))
      = filter Host.isExecuted (Host.trace (host w))
      \/ filter Host.isExecuted (Host.trace (host (snd result)))
         = (filter Host.isExecuted (Host.trace (host w))
            ++ [Host.Executed commandId args])%list)
  /\ (forall e, fst result = Eff.Throw e ->
       history (self (snd result)) = history (self w)
       /\ filter Host.isNotified (Host.trace (host (snd result)))
          = filter Host.isNotified (Host.trace (host w))).
Proof.
  intros result. unfold result. rewrite executeCommand_run.
  destruct (get commandId (self w)) as [command|].
  2:{ cbn [snd fst logged self host Host.trace].
      rewrite !filter_app. cbn. rewrite !app_nil_r.
      repeat split; auto; discriminate. }
  destruct (match CommandAction.canExecute (Command.action command) with
            | Some canExecute => negb (canExecute (Host.ext (host w)))
            | None => false
            end).
  { cbn [snd fst logged self host Host.trace].
    rewrite !filter_app. cbn. rewrite !app_nil_r.
    repeat split; auto; discriminate. }
  destruct (CommandAction.execute (Command.action command) args
              (Host.ext (host w))) as [ext1 [e|]].
  - cbn [snd fst logged self host Host.trace].
    rewrite !filter_app. cbn. rewrite !app_nil_r.
    split; [reflexivity|]. split; [reflexivity|]. split; [now left|].
    split; [now right|]. intros e' _. now split.
  - destruct (notifyAll_run command args (listeners (self w))
                (executed w commandId args source ext1))
      as [H1 [H2 [_ [_ H5]]]].
    rewrite H2, H5, H1.
    cbn [CommandRun.executed self host history commands listeners Host.trace].
    rewrite filter_app. cbn.
    split; [reflexivity|]. split; [reflexivity|]. split; [now right|].
    split; [now right|]. intros e' He'. discriminate He'.
Qed.

End ObserverFacts.

(** ** The command map stays well formed *)

Section IndexedFacts.
Context {Args Err Ext : Type}.
Import CommandRegistryImpl.

Local Abbreviation World := (CommandRegistryImpl.World Args Err Ext).
Local Abbreviation Command := (Command.t Args Err Ext).
Local Abbreviation Indexed := (@WellFormed.Indexed Args Err Ext).

Lemma get_In_NoDup {V : Type} (k : string) (v : V) (m : JSMap.t V) :
  NoDup (JSMap.keys m) -> In (k, v) m -> JSMap.get k m = Some v.
Proof.
  induction m as [|[k' v'] m IH]; simpl; [easy|].
  intros Hnd [E|Hin]; inversion Hnd as [|? ? Hnotin Hnd']; subst.
  - injection E as -> ->. now rewrite String.eqb_refl.
  - destruct (String.eqb_spec k k') as [->|Hne]; [|now apply IH].
    exfalso. apply Hnotin. unfold JSMap.keys.
    change k' with (fst (k', v)). now apply in_map.
Qed.

Lemma indexed_register (w : World) (command : Command) :
  Indexed (self w) -> Indexed (self (snd (register command w))).
Proof.
  intros [Hnd Hkeys]. rewrite register_run.
  destruct (JSMap.has (Command.id command) (commands (self w))) eqn:Hhas;
    cbn [snd self logged]; [now split|].
  split; cbn [commands].
  - now apply NoDup_keys_set_fresh.
  - rewrite (set_fresh _ _ _ Hhas). apply Forall_app. split; [exact Hkeys|].
    now repeat constructor.
Qed.

Lemma indexed_registerAll (cs : list Command) :
  forall w : World,
    Indexed (self w) -> Indexed (self (snd (registerAll cs w))).
Proof.
  unfold registerAll. induction cs as [|c cs IH]; intros w Hw; [exact Hw|].
  pose proof (indexed_register w c Hw) as Hc.
  destruct (register_frame c w) as [Hn _].
  destruct (register c w) as [[[]|e] w1] eqn:E; cbn [fst snd] in *;
    [|discriminate Hn].
  cbn [Eff.forEach]. unfold Eff.bind. rewrite E. now apply IH.
Qed.

(** X5.  A new registry files every command under its own id, once, and
    [register], [registerAll], [unregister], [clear] and [executeCommand]
    keep it so. *)
Theorem registry_stays_indexed :
  Indexed new
  /\ (forall w : World,
        Indexed (self w) ->
        (forall command, Indexed (self (snd (register command w))))
        /\ (forall cs, Indexed (self (snd (registerAll cs w))))
        /\ (forall commandId, Indexed (self (snd (unregister commandId w))))
        /\ Indexed (self (snd (clear w)))
        /\ (forall commandId args source,
              Indexed (self (snd (executeCommand commandId args source w))))).
Proof.
  split.
  - split; constructor.
  - intros w Hw.
    split; [intros c; now apply indexed_register|].
    split; [intros cs; now apply indexed_registerAll|].
    split.
    { intros commandId. destruct Hw as [Hnd Hkeys]. split; cbn.
      - now apply NoDup_keys_delete.
      - now apply Forall_delete. }
    split; [split; constructor|].
    intros commandId args source.
    destruct Hw as [Hnd Hkeys]. unfold WellFormed.Indexed.
    now rewrite executeCommand_keeps_commands.
Qed.

Lemma indexed_resolve (r : CommandRegistryImpl.t Args Err Ext)
    (c : Command) :
  Indexed r -> In c (JSMap.values (commands r)) ->
  get (Command.id c) r = Some c.
Proof.
  intros [Hnd Hkeys] Hin. unfold JSMap.values in Hin.
  apply in_map_iff in Hin. destruct Hin as [[k v] [E Hin]].
  cbn in E. subst v. rewrite Forall_forall in Hkeys.
  pose proof (Hkeys _ Hin) as Hk. cbn in Hk. subst k.
  now apply get_In_NoDup.
Qed.

Lemma search_In_values (localeCompare : string -> string -> Z)
    (r : CommandRegistryImpl.t Args Err Ext) (query : string) (c : Command) :
  In c (search localeCompare query r) ->
  In c (JSMap.values (commands r)) /\ Command.isHidden c = false.
Proof.
  destruct (JSString.trim query) as [|q0 qs] eqn:Hq.
  - unfold search. rewrite Hq. cbn [JSString.truthy JSString.isEmpty negb].
    unfold getAll. intros Hin. apply sort_In, filter_In in Hin.
    destruct Hin as [Hin Hvis]. split; [exact Hin|].
    now destruct (Command.isHidden c).
  - rewrite search_nonblank by (rewrite Hq; discriminate).
    intros Hin. apply in_map_iff in Hin. destruct Hin as [s [<- Hin]].
    apply sort_In, in_map_iff in Hin. destruct Hin as [c' [<- Hin]].
    apply filter_In in Hin. destruct Hin as [Hin Hl]. cbn [command].
    split; [exact Hin|]. unfold Spec.listed in Hl.
    apply andb_true_iff in Hl. now destruct (Command.isHidden c').
Qed.

(** X6.  In a well-formed registry every command that [getAll] or [search]
    returns is not hidden and is the one [get] finds under its id, so that
    [executeCommand] with that id runs this very command. *)
Theorem listed_commands_resolve (localeCompare : string -> string -> Z)
    (r : CommandRegistryImpl.t Args Err Ext) (query : string) (c : Command) :
  Indexed r ->
  In c (getAll r) \/ In c (search localeCompare query r) ->
  get (Command.id c) r = Some c /\ Command.isHidden c = false.
Proof.
  intros Hr [Hin|Hin].
  - unfold getAll in Hin. apply sort_In, filter_In in Hin.
    destruct Hin as [Hin Hvis].
    split; [now apply indexed_resolve | now destruct (Command.isHidden c)].
  - apply search_In_values in Hin. destruct Hin as [Hin Hvis].
    split; [now apply indexed_resolve | exact Hvis].
Qed.

(** X7.  In a well-formed registry, after [unregister] the id is not found
    and every other lookup is as before; history, observers and console are
    untouched; and unregistering an id that is not registered changes
    nothing at all. *)
Theorem unregister_lookup (w : World) (commandId : string) :
  Indexed (self w) ->
  let w' := snd (unregister commandId w) in
  fst (unregister commandId w) = Eff.Normal tt
  /\ get commandId (self w') = None
  /\ (forall k, k <> commandId -> get k (self w') = get k (self w))
  /\ history (self w') = history (self w)
  /\ listeners (self w') = listeners (self w)
  /\ host w' = host w
  /\ (get commandId (self w) = None -> w' = w).
Proof.
  intros [Hnd _] w'. unfold w', unregister, setCommands, Eff.modify, get.
  cbn [fst snd self commands history listeners host].
  split; [reflexivity|].
  split; [now apply get_delete_same|].
  split; [intros k Hk; now apply get_delete_other|].
  split; [reflexivity|]. split; [reflexivity|]. split; [reflexivity|].
  intros Hnone. rewrite delete_absent.
  - now destruct w as [[cs h ls] hst].
  - unfold JSMap.has. now rewrite Hnone.
Qed.

End IndexedFacts.

(** ** Listing *)

Section ListingFacts.
Context {Args Err Ext : Type}.
Import CommandRegistryImpl.

Local Abbreviation Command := (Command.t Args Err Ext).
Local Abbreviation byPriority :=
  (fun a b : Command => Command.priorityOr0 b - Command.priorityOr0 a).
Local Abbreviation visible :=
  (fun command : Command => negb (Command.isHidden command)).
Local Abbreviation hasPriority p :=
  (fun command : Command => Command.priorityOr0 command =? p).

Lemma insert_same_priority (p : Z) (x : Command) (l : list Command) :
  filter (hasPriority p) (JSArray.insert byPriority x l)
  = filter (hasPriority p) (x :: l).
Proof.
  induction l as [|y l IH]; [reflexivity|].
  cbn [JSArray.insert].
  destruct (Z.leb_spec (Command.priorityOr0 y - Command.priorityOr0 x) 0)
    as [Hle|Hgt]; [reflexivity|].
  cbn [filter] in *. rewrite IH.
  destruct (Z.eqb_spec (Command.priorityOr0 x) p) as [Hx|Hx];
    destruct (Z.eqb_spec (Command.priorityOr0 y) p) as [Hy|Hy];
    try reflexivity.
  lia.
Qed.

(** Sorting by priority keeps commands of equal priority in their order. *)
Lemma sort_same_priority (p : Z) (l : list Command) :
  filter (hasPriority p) (JSArray.sort byPriority l)
  = filter (hasPriority p) l.
Proof.
  induction l as [|x l IH]; [reflexivity|].
  cbn [JSArray.sort]. rewrite insert_same_priority.
  cbn [filter]. now rewrite IH.
Qed.

Lemma sort_by_priority_sorted (l : list Command) :
  StronglySorted
    (fun a b => Command.priorityOr0 b <= Command.priorityOr0 a)
    (JSArray.sort byPriority l).
Proof.
  eapply StronglySorted_weaken;
    [|apply (sort_sorted byPriority)].
  - intros x y _ _ H. unfold JSArray.before in H. lia.
  - intros x y. unfold JSArray.before. lia.
  - intros x y z. unfold JSArray.before. lia.
Qed.

Lemma StronglySorted_filter' {A : Type} (R : A -> A -> Prop)
    (f : A -> bool) (l : list A) :
  StronglySorted R l -> StronglySorted R (filter f l).
Proof.
  induction 1 as [|x l Hl IH Hx]; cbn; [constructor|].
  destruct (f x); [|exact IH].
  constructor; [exact IH|].
  rewrite Forall_forall in *. intros y Hy.
  apply Hx. now apply filter_In in Hy.
Qed.

(** X8.  [getAll] returns the commands that are not hidden, each as often as
    it is registered, in descending order of priority (0 when missing), and
    commands of equal priority stay in registration order. *)
Theorem getAll_sorted_stable (r : CommandRegistryImpl.t Args Err Ext) :
  Permutation (getAll r) (filter visible (JSMap.values (commands r)))
  /\ StronglySorted
       (fun a b => Command.priorityOr0 b <= Command.priorityOr0 a)
       (getAll r)
  /\ (forall p : Z,
        filter (hasPriority p) (getAll r)
        = filter (hasPriority p)
            (filter visible (JSMap.values (commands r)))).
Proof.
  unfold getAll.
  split; [apply sort_perm|].
  split; [apply sort_by_priority_sorted|].
  intros p. apply sort_same_priority.
Qed.

Lemma category_eqb_eq (a b : CommandCategory.t) :
  CommandCategory.eqb a b = true <-> a = b.
Proof.
  split; [|intros ->; now destruct b].
  destruct a, b; intros H; try reflexivity; discriminate H.
Qed.

(** X9.  [getByCategory] returns exactly the commands of that category that
    are registered and not hidden, in descending order of priority, equal
    priorities in registration order. *)
Theorem getByCategory_listing (r : CommandRegistryImpl.t Args Err Ext)
    (category : CommandCategory.t) :
  (forall c : Command,
      In c (getByCategory category r) <->
      In c (JSMap.values (commands r))
      /\ Command.isHidden c = false
      /\ Command.category c = category)
  /\ StronglySorted
       (fun a b => Command.priorityOr0 b <= Command.priorityOr0 a)
       (getByCategory category r)
  /\ (forall p : Z,
        filter (hasPriority p) (getByCategory category r)
        = filter (hasPriority p)
            (filter (fun c => CommandCategory.eqb (Command.category c)
                                category)
                    (filter visible (JSMap.values (commands r))))).
Proof.
  unfold getByCategory. split; [|split].
  - intros c. rewrite filter_In, category_eqb_eq. unfold getAll.
    rewrite sort_In, filter_In.
    destruct (Command.isHidden c); cbn; intuition congruence.
  - apply StronglySorted_filter', sort_by_priority_sorted.
  - intros p.
    assert (Hcomm : forall (f g : Command -> bool) l,
               filter f (filter g l) = filter g (filter f l)).
    { intros f g l. induction l as [|x l IH]; [reflexivity|].
      cbn. destruct (f x) eqn:Ef, (g x) eqn:Eg; cbn;
        rewrite ?Ef, ?Eg, IH; reflexivity. }
    rewrite Hcomm. unfold getAll. rewrite sort_same_priority. apply Hcomm.
Qed.

End ListingFacts.

(** ** The fuzzy matcher decides the subsequence relation *)

Section SubsequenceFacts.
Import Subseq.

Lemma subsequence_tail (c : ascii) (q t : string) :
  Subsequence (String c q) t -> Subsequence q t.
Proof.
  induction t as [|d t IH]; intros H; inversion H; subst.
  - now apply sub_skip.
  - apply sub_skip. now apply IH.
Qed.

Lemma subsequence_length (q t : string) :
  Subsequence q t -> (String.length q <= String.length t)%nat.
Proof. induction 1; simpl; lia. Qed.

Lemma subsequence_full (q t : string) :
  Subsequence q t -> (String.length t <= String.length q)%nat -> q = t.
Proof.
  induction 1 as [t|c q t H IH|c q t H IH]; simpl; intros Hlen.
  - destruct t; [reflexivity | simpl in Hlen; lia].
  - f_equal. apply IH. lia.
  - apply subsequence_length in H. lia.
Qed.

Lemma greedy_complete (t : string) :
  forall q, Subsequence q t -> snd (Spec.greedy t q) = "".
Proof.
  induction t as [|c t IH]; intros q H.
  - inversion H. reflexivity.
  - destruct q as [|a q]; [reflexivity|]. cbn [Spec.greedy].
    destruct (Ascii.eqb_spec c a) as [->|Hne].
    + assert (Hq : Subsequence q t).
      { inversion H; subst; [assumption | now apply subsequence_tail with a]. }
      specialize (IH q Hq). now destruct (Spec.greedy t q).
    + apply IH. inversion H; subst; [congruence | assumption].
Qed.

Lemma greedy_sound (t : string) :
  forall q, snd (Spec.greedy t q) = "" -> Subsequence q t.
Proof.
  induction t as [|c t IH]; intros q H.
  - destruct q; [constructor | discriminate H].
  - destruct q as [|a q]; [constructor|]. cbn [Spec.greedy] in H.
    destruct (Ascii.eqb_spec c a) as [->|Hne].
    + apply sub_take, IH. now destruct (Spec.greedy t q).
    + now apply sub_skip, IH.
Qed.

Lemma fuzzyMatches_subsequence (q t : string) :
  Spec.fuzzyMatches q t = true <-> Subsequence q t.
Proof.
  unfold Spec.fuzzyMatches. rewrite isEmpty_true.
  split; [apply greedy_sound | apply greedy_complete].
Qed.

(** X10.  [calculateFuzzyScore(query, text)] is [query.length / text.length]
    when the characters of the query occur in the text in order, and 0 when
    they do not: the greedy left-to-right walk misses no match. *)
Theorem calculateFuzzyScore_subsequence (query text : string) :
  (Subsequence query text -> text <> "" ->
   CommandRegistryImpl.calculateFuzzyScore query text
   = CommandRegistryImpl.Ratio
       (Z.of_nat (String.length query) # Pos.of_nat (String.length text)))
  /\ (~ Subsequence query text ->
      CommandRegistryImpl.calculateFuzzyScore query text
      = CommandRegistryImpl.Ratio 0).
Proof.
  rewrite calculateFuzzyScore_greedy. split.
  - intros Hsub Htext.
    pose proof (proj2 (fuzzyMatches_subsequence query text) Hsub) as Hm.
    rewrite Hm. unfold Spec.rawScore.
    rewrite (fuzzyMatches_count query text Hm).
    destruct text; [contradiction|reflexivity].
  - intros Hsub.
    destruct (Spec.fuzzyMatches query text) eqn:Hm; [|reflexivity].
    now apply fuzzyMatches_subsequence in Hm.
Qed.

End SubsequenceFacts.

(** ** Score bands *)

Section BandFacts.
Context {Args Err Ext : Type}.
Local Abbreviation Command := (Command.t Args Err Ext).

Lemma rulePoints_band (q : string) (c : Command) :
  Spec.rulePoints q c = 0 \/ 20 <= Spec.rulePoints q c <= 190.
Proof.
  unfold Spec.rulePoints, Spec.titlePoints, Spec.bonusPoints.
  destruct (String.eqb (Spec.lowerTitle c) q);
    destruct (JSString.startsWith (Spec.lowerTitle c) q);
    destruct (JSString.includes (Spec.lowerTitle c) q);
    destruct (JSString.includes (Spec.lowerDescription c) q);
    destruct (JSString.includes (Spec.joinedKeywords c) q);
    destruct (JSString.includes (Spec.lowerCategory c) q); lia.
Qed.

Lemma fuzzyPoints_band (q title : string) :
  title <> q ->
  Spec.fuzzyPoints q title = 0 \/ 10 <= Spec.fuzzyPoints q title <= 19.
Proof.
  intros Hne. rewrite fuzzyPoints_integer.
  destruct (Spec.fuzzyMatches q title) eqn:Hm; cbn [andb]; [|now left].
  pose proof (fuzzyMatches_count q title Hm) as Hcount.
  destruct (Z.ltb_spec (JSString.length title)
                       (2 * fst (Spec.greedy title q))) as [Hlt|Hge];
    [|now left].
  right. rewrite Hcount in *.
  apply fuzzyMatches_subsequence in Hm.
  pose proof (subsequence_length q title Hm) as Hle.
  assert (Hstrict : (String.length q < String.length title)%nat).
  { destruct (Nat.eq_dec (String.length q) (String.length title)) as [E|E];
      [|lia].
    exfalso. apply Hne. symmetry. apply subsequence_full; [exact Hm | lia]. }
  unfold JSString.length in *. split.
  - apply Z.div_le_lower_bound; lia.
  - apply Z.lt_succ_r. apply Z.div_lt_upper_bound; lia.
Qed.

(** X11.  Every score is between 0 and 190.  A command that one of the
    substring rules matches scores at least 20, while a command that only the
    fuzzy pass matches scores between 10 and 19: in the result of [search], a
    fuzzy match never stands before a rule match. *)
Theorem score_bands (q : string) (c : Command) :
  0 <= CommandRegistryImpl.scoreOf q c <= 190
  /\ (Spec.rulePoints q c <> 0 -> 20 <= CommandRegistryImpl.scoreOf q c)
  /\ (Spec.rulePoints q c = 0 ->
      CommandRegistryImpl.scoreOf q c = 0
      \/ 10 <= CommandRegistryImpl.scoreOf q c <= 19).
Proof.
  rewrite scoreOf_finalScore. unfold Spec.finalScore.
  pose proof (rulePoints_band q c) as Hband.
  destruct (Z.eqb_spec (Spec.rulePoints q c) 0) as [Hz|Hnz].
  - assert (Hne : Spec.lowerTitle c <> q).
    { intros E. unfold Spec.rulePoints, Spec.titlePoints in Hz.
      rewrite E, String.eqb_refl in Hz.
      unfold Spec.bonusPoints in Hz.
      destruct (JSString.includes (Spec.lowerDescription c) q);
        destruct (JSString.includes (Spec.joinedKeywords c) q);
        destruct (JSString.includes (Spec.lowerCategory c) q); lia. }
    pose proof (fuzzyPoints_band q (Spec.lowerTitle c) Hne) as Hf.
    split; [lia|]. split; [congruence | intros _; exact Hf].
  - split; [lia|]. split; [lia | congruence].
Qed.

End BandFacts.

(** ** Sorted permutations *)

Section SortedUnique.
Context {A : Type}.
Variable cmp : A -> A -> Z.
Hypothesis before_antisym :
  forall x y, JSArray.before cmp x y -> JSArray.before cmp y x -> x = y.

Lemma sorted_perm_unique (l1 : list A) :
  forall l2,
    StronglySorted (JSArray.before cmp) l1 ->
    StronglySorted (JSArray.before cmp) l2 ->
    Permutation l1 l2 -> l1 = l2.
Proof.
  induction l1 as [|x l1 IH]; intros l2 H1 H2 Hp.
  - now apply Permutation_nil in Hp.
  - destruct l2 as [|y l2];
      [symmetry in Hp; now apply Permutation_nil in Hp|].
    inversion H1 as [|? ? Hs1 Hx]; inversion H2 as [|? ? Hs2 Hy]; subst.
    rewrite Forall_forall in Hx, Hy.
    assert (Hxy : x = y).
    { assert (Hin1 : In x (y :: l2))
        by (eapply Permutation_in; [exact Hp | now left]).
      assert (Hin2 : In y (x :: l1))
        by (eapply Permutation_in; [symmetry; exact Hp | now left]).
      destruct Hin1 as [E|Hin1]; [now symmetry|].
      destruct Hin2 as [E|Hin2]; [exact E|].
      apply before_antisym; [now apply Hx | now apply Hy]. }
    subst y. f_equal. apply IH; try assumption.
    now apply Permutation_cons_inv in Hp.
Qed.

End SortedUnique.

(** ** Canonical shortcut keys *)

Lemma modifier_order_total (a b : KeyModifier.t) :
  JSArray.before KeyModifier.defaultCompare a b
  \/ JSArray.before KeyModifier.defaultCompare b a.
Proof. destruct a, b; vm_compute; intuition discriminate. Qed.

Lemma modifier_order_trans (a b c : KeyModifier.t) :
  JSArray.before KeyModifier.defaultCompare a b ->
  JSArray.before KeyModifier.defaultCompare b c ->
  JSArray.before KeyModifier.defaultCompare a c.
Proof.
  destruct a, b, c; vm_compute; intros H1 H2; try assumption;
    try discriminate; exfalso; auto.
Qed.

Lemma modifier_order_antisym (a b : KeyModifier.t) :
  JSArray.before KeyModifier.defaultCompare a b ->
  JSArray.before KeyModifier.defaultCompare b a -> a = b.
Proof.
  destruct a, b; vm_compute; intros H1 H2; try reflexivity; exfalso; auto.
Qed.

Lemma sort_modifiers_perm (ms1 ms2 : list KeyModifier.t) :
  Permutation ms1 ms2 ->
  JSArray.sort KeyModifier.defaultCompare ms1
  = JSArray.sort KeyModifier.defaultCompare ms2.
Proof.
  intros Hp.
  apply (sorted_perm_unique KeyModifier.defaultCompare modifier_order_antisym).
  - apply sort_sorted; [apply modifier_order_total|apply modifier_order_trans].
  - apply sort_sorted; [apply modifier_order_total|apply modifier_order_trans].
  - rewrite !sort_perm. exact Hp.
Qed.

(** X12.  Two combinations that list the same modifiers in any order and
    whose base keys differ only in letter case generate the same key of the
    binding table, and match the same key presses. *)
Theorem generateShortcutKey_canonical (s1 s2 : KeyboardShortcut.t) :
  Permutation (KeyboardManagerImpl.modifiersOf s1)
              (KeyboardManagerImpl.modifiersOf s2) ->
  JSString.toLowerCase (KeyboardShortcut.key s1)
  = JSString.toLowerCase (KeyboardShortcut.key s2) ->
  KeyboardManagerImpl.generateShortcutKey s1
  = KeyboardManagerImpl.generateShortcutKey s2
  /\ (forall event,
        KeyboardManagerImpl.matchesShortcut event s1
        = KeyboardManagerImpl.matchesShortcut event s2).
Proof.
  intros Hp Hk. split.
  - unfold KeyboardManagerImpl.generateShortcutKey.
    now rewrite (sort_modifiers_perm _ _ Hp), Hk.
  - intros event. unfold KeyboardManagerImpl.matchesShortcut. rewrite Hk.
    assert (Hinc : forall m,
               KeyModifier.includes (KeyboardManagerImpl.modifiersOf s1) m
               = KeyModifier.includes (KeyboardManagerImpl.modifiersOf s2) m).
    { intros m. apply eq_true_iff_eq. rewrite !modifier_includes_In.
      split; apply Permutation_in; [exact Hp | now symmetry]. }
    now rewrite !Hinc.
Qed.

(** ** The binding table *)

Section TableFacts.
Context {Args Err Ext : Type}.
Import KeyboardManagerImpl.

Local Abbreviation World := (KeyboardManagerImpl.World Args Err Ext).
Local Abbreviation Command := (Command.t Args Err Ext).
Local Abbreviation Keyed := (@WellFormed.Keyed Ext).

(** [registerShortcut] as one equation. *)
Lemma registerShortcut_run (w : World) (id : string)
    (sc : KeyboardShortcut.t) (guard : option (Ext -> bool)) :
  registerShortcut id sc guard w
  = if JSMap.has (generateShortcutKey sc) (keyBindings (self w))
    then (Eff.Normal tt,
          {| self := self w;
             commandRegistry := commandRegistry w;
             host := {| Host.trace :=
                          (Host.trace (host w)
                           ++ [Host.Log Host.warn
                                 ("Keyboard shortcut "
                                    ++ Host.quoted (generateShortcutKey sc)
                                    ++ " is already registered") None])%list;
                        Host.clock := Host.clock (host w);
                        Host.ext := Host.ext (host w) |} |})
    else (Eff.Normal tt,
          {| self := {| keyBindings :=
                          JSMap.set (generateShortcutKey sc)
                            {| shortcut := sc; commandId := id;
                               when := guard |}
                            (keyBindings (self w));
                        isEnabled := isEnabled (self w) |};
             commandRegistry := commandRegistry w;
             host := host w |}).
Proof.
  unfold registerShortcut, Eff.bind, Eff.gets.
  now destruct (JSMap.has (generateShortcutKey sc) (keyBindings (self w))).
Qed.

(** X13.  Registering a combination that is available binds its key to the
    command, makes the combination unavailable, changes no other key and
    logs nothing; [unregisterShortcut] of the combination then gives back
    the state before. *)
Theorem registerShortcut_fresh_roundtrip (w : World) (id : string)
    (sc : KeyboardShortcut.t) (guard : option (Ext -> bool)) :
  isShortcutAvailable sc (self w) = true ->
  let w' := snd (registerShortcut id sc guard w) in
  isShortcutAvailable sc (self w') = false
  /\ JSMap.get (generateShortcutKey sc) (keyBindings (self w'))
     = Some {| shortcut := sc; commandId := id; when := guard |}
  /\ (forall k, k <> generateShortcutKey sc ->
                JSMap.get k (keyBindings (self w'))
                = JSMap.get k (keyBindings (self w)))
  /\ host w' = host w
  /\ snd (unregisterShortcut sc w') = w.
Proof.
  intros Hav w'. unfold w', isShortcutAvailable in *. clear w'.
  apply negb_true_iff in Hav. rewrite registerShortcut_run, Hav.
  cbn [snd self keyBindings host].
  split; [now rewrite has_set_same|].
  split; [apply get_set_same|].
  split; [intros k Hk; now apply get_set_other|].
  split; [reflexivity|].
  unfold unregisterShortcut, setKeyBindings, Eff.modify. cbn.
  rewrite (delete_set_fresh _ _ _ Hav).
  now destruct w as [[kb en] reg hst].
Qed.

Lemma keyed_registerShortcut (w : World) (id : string)
    (sc : KeyboardShortcut.t) (guard : option (Ext -> bool)) :
  Keyed (self w) -> Keyed (self (snd (registerShortcut id sc guard w))).
Proof.
  intros [Hnd Hkeys]. rewrite registerShortcut_run.
  destruct (JSMap.has (generateShortcutKey sc) (keyBindings (self w)))
    eqn:Hhas; cbn [snd self]; [now split|].
  split; cbn [keyBindings].
  - now apply NoDup_keys_set_fresh.
  - rewrite (set_fresh _ _ _ Hhas). apply Forall_app. split; [exact Hkeys|].
    now repeat constructor.
Qed.

(** The body of the [forEach] of [registerCommandShortcuts]. *)
Local Abbreviation bindOne :=
  (fun command : Command =>
     match Command.keybinding command with
     | Some keybinding =>
         registerShortcut (Args := Args) (Err := Err)
           (Command.id command) keybinding None
     | None => Eff.ret tt
     end).

(** The binding [registerCommandShortcuts] makes for a command under the key
    [k], if the command carries a combination with that key. *)
Local Abbreviation bindingAt k :=
  (fun command : Command =>
     match Command.keybinding command with
     | Some keybinding =>
         if String.eqb (generateShortcutKey keybinding) k
         then Some {| shortcut := keybinding;
                      commandId := Command.id command;
                      when := @None (Ext -> bool) |}
         else None
     | None => None
     end).

Lemma bindOne_run (w : World) (command : Command) (k : string) :
  fst (bindOne command w) = Eff.Normal tt
  /\ commandRegistry (snd (bindOne command w)) = commandRegistry w
  /\ isEnabled (self (snd (bindOne command w))) = isEnabled (self w)
  /\ (Keyed (self w) -> Keyed (self (snd (bindOne command w))))
  /\ JSMap.get k (keyBindings (self (snd (bindOne command w))))
     = match JSMap.get k (keyBindings (self w)) with
       | Some b => Some b
       | None => bindingAt k command
       end.
Proof.
  cbv beta. destruct (Command.keybinding command) as [sc|].
  2:{ cbn. split; [|split; [|split; [|split]]]; auto.
      now destruct (JSMap.get k (keyBindings (self w))). }
  split; [rewrite registerShortcut_run;
          now destruct (JSMap.has _ (keyBindings (self w)))|].
  split; [rewrite registerShortcut_run;
          now destruct (JSMap.has _ (keyBindings (self w)))|].
  split; [rewrite registerShortcut_run;
          now destruct (JSMap.has _ (keyBindings (self w)))|].
  split; [apply keyed_registerShortcut|].
  rewrite registerShortcut_run.
  destruct (JSMap.has (generateShortcutKey sc) (keyBindings (self w)))
    eqn:Hhas; cbn [snd self keyBindings].
  - destruct (JSMap.get k (keyBindings (self w))) eqn:Hk; [reflexivity|].
    destruct (String.eqb_spec (generateShortcutKey sc) k) as [<-|Hne];
      [|reflexivity].
    unfold JSMap.has in Hhas. now rewrite Hk in Hhas.
  - destruct (String.eqb_spec (generateShortcutKey sc) k) as [<-|Hne].
    + rewrite get_set_same. unfold JSMap.has in Hhas.
      now destruct (JSMap.get (generateShortcutKey sc)
                      (keyBindings (self w))).
    + rewrite get_set_other by congruence.
      now destruct (JSMap.get k (keyBindings (self w))).
Qed.

Lemma bindAll_run (cs : list Command) :
  forall (w : World) (k : string),
    fst (Eff.forEach cs bindOne w) = Eff.Normal tt
    /\ commandRegistry (snd (Eff.forEach cs bindOne w)) = commandRegistry w
    /\ isEnabled (self (snd (Eff.forEach cs bindOne w))) = isEnabled (self w)
    /\ (Keyed (self w) -> Keyed (self (snd (Eff.forEach cs bindOne w))))
    /\ JSMap.get k (keyBindings (self (snd (Eff.forEach cs bindOne w))))
       = match JSMap.get k (keyBindings (self w)) with
         | Some b => Some b
         | None =>
             match find (fun c => match bindingAt k c with
                                  | Some _ => true
                                  | None => false
                                  end) cs with
             | Some c => bindingAt k c
             | None => None
             end
         end.
Proof.
  induction cs as [|c cs IH]; intros w k.
  - cbn. split; [|split; [|split; [|split]]]; auto.
    now destruct (JSMap.get k (keyBindings (self w))).
  - destruct (bindOne_run w c k) as [Hn [Hr [He [Hk Hg]]]].
    destruct (bindOne c w) as [[[]|e] w1] eqn:E; cbn [fst snd] in *;
      [|discriminate Hn].
    assert (Heq : Eff.forEach (c :: cs) bindOne w
                  = Eff.forEach cs bindOne w1).
    { cbn [Eff.forEach]. unfold Eff.bind. cbv beta in E |- *.
      now rewrite E. }
    rewrite Heq. destruct (IH w1 k) as [I1 [I2 [I3 [I4 I5]]]].
    split; [exact I1|]. split; [congruence|]. split; [congruence|].
    split; [auto|].
    rewrite I5, Hg. cbn [find].
    destruct (JSMap.get k (keyBindings (self w))); [reflexivity|].
    cbv beta. destruct (Command.keybinding c) as [sc|] eqn:Ekb;
      [|reflexivity].
    destruct (String.eqb (generateShortcutKey sc) k) eqn:Ek;
      [|reflexivity].
    now rewrite Ekb, Ek.
Qed.

(** X14.  After [registerCommandShortcuts], a key that was bound keeps its
    binding, and any other key belongs to the first command in the order of
    [getAll()], highest priority first, that carries a combination with that
    key; the call returns normally and leaves the registry alone. *)
Theorem registerCommandShortcuts_by_priority (w : World) (k : string) :
  let w' := snd (registerCommandShortcuts w) in
  fst (registerCommandShortcuts w) = Eff.Normal tt
  /\ commandRegistry w' = commandRegistry w
  /\ JSMap.get k (keyBindings (self w'))
     = match JSMap.get k (keyBindings (self w)) with
       | Some b => Some b
       | None =>
           BulkBinding.firstBinding k
             (CommandRegistryImpl.getAll (commandRegistry w))
       end.
Proof.
  intros w'. unfold w', registerCommandShortcuts, Eff.bind, Eff.gets.
  cbv beta iota. cbn [fst snd].
  destruct (bindAll_run (CommandRegistryImpl.getAll (commandRegistry w)) w k)
    as [H1 [H2 [_ [_ H5]]]].
  split; [exact H1|]. split; [exact H2|]. exact H5.
Qed.

(** X15.  A new binding table files every binding once, under the key its
    combination generates, and [registerShortcut], [unregisterShortcut] and
    [registerCommandShortcuts] keep it so. *)
Theorem table_stays_keyed :
  Keyed new
  /\ (forall w : World,
        Keyed (self w) ->
        (forall id sc guard,
            Keyed (self (snd (registerShortcut id sc guard w))))
        /\ (forall sc, Keyed (self (snd (unregisterShortcut sc w))))
        /\ Keyed (self (snd (registerCommandShortcuts w)))).
Proof.
  split; [split; constructor|].
  intros w Hw.
  split; [intros id sc guard; now apply keyed_registerShortcut|].
  split.
  - intros sc. destruct Hw as [Hnd Hkeys]. split; cbn.
    + now apply NoDup_keys_delete.
    + now apply Forall_delete.
  - unfold registerCommandShortcuts, Eff.bind, Eff.gets. cbv beta iota.
    cbn [fst snd].
    destruct (bindAll_run (CommandRegistryImpl.getAll (commandRegistry w))
                w "") as [_ [_ [_ [H4 _]]]].
    now apply H4.
Qed.

(** X16.  In a well-formed table, [unregisterShortcut] makes the combination
    available again and changes no other key; unregistering a combination
    that is not bound changes nothing at all. *)
Theorem unregisterShortcut_frees (w : World) (sc : KeyboardShortcut.t) :
  Keyed (self w) ->
  let w' := snd (unregisterShortcut sc w) in
  fst (unregisterShortcut sc w) = Eff.Normal tt
  /\ isShortcutAvailable sc (self w') = true
  /\ (forall k, k <> generateShortcutKey sc ->
                JSMap.get k (keyBindings (self w'))
                = JSMap.get k (keyBindings (self w)))
  /\ commandRegistry w' = commandRegistry w
  /\ host w' = host w
  /\ (isShortcutAvailable sc (self w) = true -> w' = w).
Proof.
  intros [Hnd _] w'.
  unfold w', unregisterShortcut, setKeyBindings, Eff.modify,
    isShortcutAvailable.
  cbn [fst snd self keyBindings commandRegistry host].
  split; [reflexivity|].
  split.
  { unfold JSMap.has. now rewrite get_delete_same. }
  split; [intros k Hk; now apply get_delete_other|].
  split; [reflexivity|]. split; [reflexivity|].
  intros Hav. apply negb_true_iff in Hav. rewrite (delete_absent _ _ Hav).
  now destruct w as [[kb en] reg hst].
Qed.

End TableFacts.

(** ** The global key handler *)

Section DispatchFacts.
Context {Args Err Ext : Type}.
Import KeyboardDispatch.

Local Abbreviation World := (KeyboardDispatch.World Args Err Ext).
Local Abbreviation extOf w :=
  (Host.ext (KeyboardManagerImpl.host (manager w))).
Local Abbreviation tableOf w :=
  (JSMap.values
     (KeyboardManagerImpl.keyBindings
        (KeyboardManagerImpl.self (manager w)))).

(** The body of [this.listeners.forEach] in [handleKeyDown]. *)
Local Abbreviation hearOne event :=
  (fun listener : KeyListener Err Ext =>
     Eff.tryCatch (callListener listener event)
       (fun error => consoleError "Keyboard listener error:" (Some error))).

Lemma keyLoop_run (d : KeyDown.t)
    (bindings : list (KeyboardManagerImpl.KeyBinding Ext)) (w : World) :
  keyLoop bindings d w
  = match firstMatch bindings (KeyDown.event d) (extOf w) with
    | Some binding =>
        (Eff.Normal true,
         afterCommand w (KeyboardManagerImpl.commandId binding))
    | None => (Eff.Normal false, w)
    end.
Proof.
  induction bindings as [|b bs IH]; [reflexivity|].
  cbn [keyLoop firstMatch find]. fold (firstMatch bs (KeyDown.event d)).
  destruct (KeyboardManagerImpl.matchesShortcut (KeyDown.event d)
              (KeyboardManagerImpl.shortcut b)); cbn [andb]; [|exact IH].
  assert (Hgo :
    Eff.bind
      (Eff.tryCatch
         (onRegistry
            (CommandRegistryImpl.executeCommand
               (KeyboardManagerImpl.commandId b) None (Some Source.keyboard)))
         (fun error =>
            consoleError
              ("Failed to execute command "
                 ++ Host.quoted (KeyboardManagerImpl.commandId b) ++ ":")
              (Some error)))
      (fun _ => Eff.ret true) w
    = (Eff.Normal true, afterCommand w (KeyboardManagerImpl.commandId b))).
  { unfold Eff.bind, Eff.tryCatch, onRegistry, afterCommand, Eff.ret.
    destruct (CommandRegistryImpl.executeCommand
                (KeyboardManagerImpl.commandId b) None (Some Source.keyboard)
                _) as [[[]|e] rw]; reflexivity. }
  destruct (KeyboardManagerImpl.when b) as [guard|].
  - destruct (guard (Host.ext (KeyboardManagerImpl.host (manager w))))
      eqn:Hg;
      unfold Eff.bind at 1, Eff.bind at 1, Eff.gets, Eff.ret; cbv beta;
      rewrite Hg; cbn [negb]; [exact Hgo | exact IH].
  - unfold Eff.bind at 1, Eff.ret. cbv beta. exact Hgo.
Qed.

Lemma hearOne_run (event : KeyboardEvent.t)
    (listener : KeyListener Err Ext) (w : World) :
  fst (hearOne event listener w) = Eff.Normal tt
  /\ KeyboardManagerImpl.self (manager (snd (hearOne event listener w)))
     = KeyboardManagerImpl.self (manager w)
  /\ KeyboardManagerImpl.commandRegistry
       (manager (snd (hearOne event listener w)))
     = KeyboardManagerImpl.commandRegistry (manager w)
  /\ listeners (snd (hearOne event listener w)) = listeners w
  /\ heard (snd (hearOne event listener w))
     = (heard w ++ [handle listener])%list.
Proof.
  unfold Eff.tryCatch, callListener, consoleError, setHost, Eff.modify.
  cbv beta.
  destruct (onKey listener event _) as [ext' [e|]]; now repeat split.
Qed.

Lemma hearAll_run (event : KeyboardEvent.t)
    (ls : list (KeyListener Err Ext)) :
  forall w : World,
    let result := Eff.forEach ls (hearOne event) w in
    fst result = Eff.Normal tt
    /\ KeyboardManagerImpl.self (manager (snd result))
       = KeyboardManagerImpl.self (manager w)
    /\ KeyboardManagerImpl.commandRegistry (manager (snd result))
       = KeyboardManagerImpl.commandRegistry (manager w)
    /\ listeners (snd result) = listeners w
    /\ heard (snd result) = (heard w ++ map handle ls)%list.
Proof.
  induction ls as [|l ls IH]; intros w result.
  - cbn. rewrite app_nil_r. now repeat split.
  - destruct (hearOne_run event l w) as [Hn [Hs [Hr [Hl Hh]]]].
    cbv beta in Hn, Hs, Hr, Hl, Hh.
    assert (Heq : result
                  = Eff.forEach ls (hearOne event)
                      (snd (hearOne event l w))).
    { unfold result. cbn [Eff.forEach]. unfold Eff.bind at 1. cbv beta.
      destruct (Eff.tryCatch _ _ w) as [[[]|e] w1]; cbn [fst snd] in *;
        [reflexivity | discriminate Hn]. }
    rewrite Heq. clear Heq result.
    specialize (IH (snd (hearOne event l w))). cbv beta zeta in IH.
    destruct IH as [I1 [I2 [I3 [I4 I5]]]].
    split; [exact I1|]. split; [congruence|]. split; [congruence|].
    split; [congruence|].
    rewrite I5, Hh. cbn [map]. now rewrite <- app_assoc.
Qed.

(** [handleKeyDown] as one equation. *)
Lemma handleKeyDown_run (d : KeyDown.t) (w : World) :
  handleKeyDown d w
  = if negb (KeyboardManagerImpl.isEnabled
               (KeyboardManagerImpl.self (manager w)))
       || isTextInput d
    then (Eff.Normal untouched, w)
    else
      match firstMatch (tableOf w) (KeyDown.event d) (extOf w) with
      | Some binding =>
          (Eff.Normal claimed,
           afterCommand w (KeyboardManagerImpl.commandId binding))
      | None =>
          (Eff.Normal untouched,
           snd (Eff.forEach (listeners w) (hearOne (KeyDown.event d)) w))
      end.
Proof.
  unfold handleKeyDown, Eff.bind at 1, Eff.gets at 1. cbv beta.
  destruct (KeyboardManagerImpl.isEnabled
              (KeyboardManagerImpl.self (manager w))); cbn [negb orb];
    [|reflexivity].
  destruct (isTextInput d); [reflexivity|].
  unfold Eff.bind at 1, Eff.gets at 1. cbv beta.
  unfold Eff.bind at 1. rewrite keyLoop_run. cbv beta.
  destruct (firstMatch _ (KeyDown.event d) _) as [b|]; [reflexivity|].
  unfold Eff.bind at 1, Eff.gets at 1. cbv beta.
  unfold Eff.bind at 1.
  destruct (hearAll_run (KeyDown.event d) (listeners w) w) as [Hn _].
  destruct (Eff.forEach (listeners w) _ w) as [[[]|e] w1];
    cbn [fst snd] in *; [reflexivity | discriminate Hn].
Qed.

(** X17.  While the manager is disabled, and whenever the target of the
    event is an input, a text area or an editable region, [handleKeyDown]
    does nothing: no default is prevented, no command runs, no listener is
    called, and the state is as before. *)
Theorem handleKeyDown_inert (d : KeyDown.t) (w : World) :
  KeyboardManagerImpl.isEnabled (KeyboardManagerImpl.self (manager w)) = false
  \/ KeyDown.targetTagName d = "INPUT"
  \/ KeyDown.targetTagName d = "TEXTAREA"
  \/ KeyDown.targetIsContentEditable d = true ->
  handleKeyDown d w = (Eff.Normal untouched, w).
Proof.
  intros H. rewrite handleKeyDown_run.
  assert (Hc : negb (KeyboardManagerImpl.isEnabled
                       (KeyboardManagerImpl.self (manager w)))
               || isTextInput d = true).
  { apply orb_true_iff. destruct H as [H|[H|[H|H]]].
    - left. now rewrite H.
    - right. unfold isTextInput. now rewrite H.
    - right. unfold isTextInput. now rewrite H.
    - right. unfold isTextInput. rewrite H. apply orb_true_r. }
  now rewrite Hc.
Qed.



(** X20.  When no binding takes the event, [handleKeyDown] leaves the event
    alone and calls every passive listener once, in the order they were
    added, whether or not some of them throw; the binding table and the
    registry are as before. *)
Theorem handleKeyDown_forward (d : KeyDown.t) (w : World) :
  KeyboardManagerImpl.isEnabled (KeyboardManagerImpl.self (manager w)) = true ->
  isTextInput d = false ->
  firstMatch (tableOf w) (KeyDown.event d) (extOf w) = None ->
  let result := handleKeyDown d w in
  fst result = Eff.Normal untouched
  /\ heard (snd result) = (heard w ++ map handle (listeners w))%list
  /\ listeners (snd result) = listeners w
  /\ KeyboardManagerImpl.self (manager (snd result))
     = KeyboardManagerImpl.self (manager w)
  /\ KeyboardManagerImpl.commandRegistry (manager (snd result))
     = KeyboardManagerImpl.commandRegistry (manager w).
Proof.
  intros Hen Htext Hfirst result. unfold result.
  rewrite handleKeyDown_run, Hen, Htext. cbn [negb orb].
  cbv beta in Hfirst. rewrite Hfirst. cbn [fst snd].
  destruct (hearAll_run (KeyDown.event d) (listeners w) w)
    as [_ [H2 [H3 [H4 H5]]]].
  split; [reflexivity|]. split; [exact H5|]. split; [exact H4|].
  split; [exact H2 | exact H3].
Qed.


End DispatchFacts.

(** ** Instances *)

Ltac distinct_keys :=
  repeat (constructor; [cbn; intuition discriminate|]); constructor.

Lemma register_fresh_roundtrip_witness :
  JSMap.has (Command.id Examples.saveAs)
    (CommandRegistryImpl.commands
       (CommandRegistryImpl.self (Examples.world [Examples.save]))) = false
  /\ CommandRegistryImpl.get "file.saveAs"
       (CommandRegistryImpl.self
          (snd (CommandRegistryImpl.register Examples.saveAs
                  (Examples.world [Examples.save]))))
     = Some Examples.saveAs
  /\ snd (CommandRegistryImpl.unregister "file.saveAs"
            (snd (CommandRegistryImpl.register Examples.saveAs
                    (Examples.world [Examples.save]))))
     = Examples.world [Examples.save].
Proof.
  assert (H : JSMap.has (Command.id Examples.saveAs)
                (CommandRegistryImpl.commands
                   (CommandRegistryImpl.self (Examples.world [Examples.save])))
              = false) by reflexivity.
  pose proof (register_fresh_roundtrip (Examples.world [Examples.save])
                Examples.saveAs H) as [Hget [_ [_ [_ Hback]]]].
  exact (conj H (conj Hget Hback)).
Defined.

Lemma executeCommand_resolved_witness :
  let w := Examples.observedBy [Examples.grumpy 1; Examples.observer 2]
             [Examples.save] in
  CommandRegistryImpl.get "file.save" (CommandRegistryImpl.self w)
  = Some Examples.save
  /\ fst (CommandRegistryImpl.executeCommand "file.save" (Some 3)
            (Some Source.menu) w) = Eff.Normal tt
  /\ filter Host.isNotified
       (Host.trace
          (CommandRegistryImpl.host
             (snd (CommandRegistryImpl.executeCommand "file.save" (Some 3)
                     (Some Source.menu) w))))
     = [Host.Notified 1%nat "file.save"; Host.Notified 2%nat "file.save"].
Proof.
  intros w.
  assert (H : CommandRegistryImpl.get "file.save" (CommandRegistryImpl.self w)
              = Some Examples.save) by reflexivity.
  pose proof (executeCommand_resolved w "file.save" (Some 3)
                (Some Source.menu) Examples.save 1 H I eq_refl)
    as [Hn [_ [_ [_ Ht]]]].
  exact (conj H (conj Hn Ht)).
Defined.

Lemma executeCommand_frame_witness :
  let w := Examples.observedBy [Examples.observer 1] [Examples.broken] in
  fst (CommandRegistryImpl.executeCommand "debug.broken" None None w)
  = Eff.Throw "boom"
  /\ CommandRegistryImpl.history
       (CommandRegistryImpl.self
          (snd (CommandRegistryImpl.executeCommand "debug.broken" None None
                  w)))
     = CommandRegistryImpl.history (CommandRegistryImpl.self w).
Proof.
  intros w.
  assert (H : fst (CommandRegistryImpl.executeCommand "debug.broken" None
                     None w) = Eff.Throw "boom") by reflexivity.
  pose proof (executeCommand_frame w "debug.broken" None None)
    as [_ [_ [_ [_ Hthrow]]]].
  exact (conj H (proj1 (Hthrow "boom" H))).
Defined.

Lemma registry_stays_indexed_witness :
  let w := Examples.world [Examples.save; Examples.saveAs] in
  WellFormed.Indexed (CommandRegistryImpl.self w)
  /\ WellFormed.Indexed
       (CommandRegistryImpl.self
          (snd (CommandRegistryImpl.registerAll
                  [Examples.impostor; Examples.broken] w))).
Proof.
  intros w.
  assert (H : WellFormed.Indexed (CommandRegistryImpl.self w)).
  { split; [distinct_keys | repeat constructor]. }
  pose proof (proj2 (@registry_stays_indexed Z string Z) w H)
    as [_ [Hall _]].
  exact (conj H (Hall [Examples.impostor; Examples.broken])).
Defined.

Lemma listed_commands_resolve_witness :
  let r := Examples.registryOf [Examples.save; Examples.saveAs] in
  WellFormed.Indexed r
  /\ In Examples.saveAs (CommandRegistryImpl.search Examples.collate "as" r)
  /\ CommandRegistryImpl.get "file.saveAs" r = Some Examples.saveAs.
Proof.
  intros r.
  assert (H : WellFormed.Indexed r).
  { split; [distinct_keys | repeat constructor]. }
  assert (Hin : In Examples.saveAs
                   (CommandRegistryImpl.search Examples.collate "as" r))
    by (left; reflexivity).
  exact (conj H (conj Hin
           (proj1 (listed_commands_resolve Examples.collate r "as"
                     Examples.saveAs H (or_intror Hin))))).
Defined.

Lemma unregister_lookup_witness :
  let w := Examples.world [Examples.save; Examples.saveAs] in
  WellFormed.Indexed (CommandRegistryImpl.self w)
  /\ CommandRegistryImpl.get "file.save"
       (CommandRegistryImpl.self
          (snd (CommandRegistryImpl.unregister "file.save" w))) = None
  /\ CommandRegistryImpl.get "nothing" (CommandRegistryImpl.self w) = None
  /\ snd (CommandRegistryImpl.unregister "nothing" w) = w.
Proof.
  intros w.
  assert (H : WellFormed.Indexed (CommandRegistryImpl.self w)).
  { split; [distinct_keys | repeat constructor]. }
  assert (Hno : CommandRegistryImpl.get "nothing" (CommandRegistryImpl.self w)
                = None) by reflexivity.
  pose proof (unregister_lookup w "file.save" H) as [_ [Hgone _]].
  pose proof (unregister_lookup w "nothing" H) as [_ [_ [_ [_ [_ [_ Hid]]]]]].
  exact (conj H (conj Hgone (conj Hno (Hid Hno)))).
Defined.

Lemma getByCategory_listing_witness :
  let r := Examples.registryOf
             [Examples.gated; Examples.saveAs; Examples.secret;
              Examples.save] in
  In Examples.save (CommandRegistryImpl.getByCategory CommandCategory.file r)
  /\ Command.category Examples.save = CommandCategory.file
  /\ CommandRegistryImpl.getByCategory CommandCategory.file r
     = [Examples.save; Examples.saveAs].
Proof.
  intros r.
  assert (Hin : In Examples.save
                   (CommandRegistryImpl.getByCategory CommandCategory.file r))
    by (left; reflexivity).
  pose proof (proj1 (proj1 (getByCategory_listing r CommandCategory.file)
                       Examples.save) Hin) as [_ [_ Hcat]].
  exact (conj Hin (conj Hcat eq_refl)).
Defined.

Lemma calculateFuzzyScore_subsequence_witness :
  Subseq.Subsequence "sve" "save"
  /\ CommandRegistryImpl.calculateFuzzyScore "sve" "save"
     = CommandRegistryImpl.Ratio (3 # 4)
  /\ ~ Subseq.Subsequence "vs" "save"
  /\ CommandRegistryImpl.calculateFuzzyScore "vs" "save"
     = CommandRegistryImpl.Ratio 0.
Proof.
  assert (H1 : Subseq.Subsequence "sve" "save").
  { apply Subseq.sub_take, Subseq.sub_skip, Subseq.sub_take,
      Subseq.sub_take, Subseq.sub_done. }
  assert (H2 : "save" <> "") by discriminate.
  assert (H3 : ~ Subseq.Subsequence "vs" "save").
  { intros H. apply fuzzyMatches_subsequence in H. discriminate H. }
  pose proof (calculateFuzzyScore_subsequence "sve" "save") as [Hyes _].
  pose proof (calculateFuzzyScore_subsequence "vs" "save") as [_ Hno].
  exact (conj H1 (conj (Hyes H1 H2) (conj H3 (Hno H3)))).
Defined.

Lemma score_bands_witness :
  Spec.rulePoints "sve" Examples.save = 0
  /\ Spec.rulePoints "file" Examples.save <> 0
  /\ 20 <= CommandRegistryImpl.scoreOf "file" Examples.save
  /\ (CommandRegistryImpl.scoreOf "sve" Examples.save = 0
      \/ 10 <= CommandRegistryImpl.scoreOf "sve" Examples.save <= 19).
Proof.
  assert (H1 : Spec.rulePoints "sve" Examples.save = 0) by reflexivity.
  assert (H2 : Spec.rulePoints "file" Examples.save <> 0)
    by (vm_compute; discriminate).
  pose proof (score_bands "file" Examples.save) as [_ [Hrule _]].
  pose proof (score_bands "sve" Examples.save) as [_ [_ Hfuzzy]].
  exact (conj H1 (conj H2 (conj (Hrule H2) (Hfuzzy H1)))).
Defined.

Lemma generateShortcutKey_canonical_witness :
  Permutation (KeyboardManagerImpl.modifiersOf Examples.ctrlShiftK)
              (KeyboardManagerImpl.modifiersOf Examples.shiftCtrlk)
  /\ KeyboardManagerImpl.generateShortcutKey Examples.ctrlShiftK
     = KeyboardManagerImpl.generateShortcutKey Examples.shiftCtrlk.
Proof.
  assert (H : Permutation (KeyboardManagerImpl.modifiersOf Examples.ctrlShiftK)
                (KeyboardManagerImpl.modifiersOf Examples.shiftCtrlk))
    by apply perm_swap.
  exact (conj H (proj1 (generateShortcutKey_canonical Examples.ctrlShiftK
                          Examples.shiftCtrlk H eq_refl))).
Defined.

Lemma registerShortcut_fresh_roundtrip_witness :
  KeyboardManagerImpl.isShortcutAvailable Examples.ctrlK
    (KeyboardManagerImpl.self (Examples.keyboard [])) = true
  /\ KeyboardManagerImpl.isShortcutAvailable Examples.ctrlK
       (KeyboardManagerImpl.self
          (snd (KeyboardManagerImpl.registerShortcut "file.save"
                  Examples.ctrlK None (Examples.keyboard [])))) = false
  /\ snd (KeyboardManagerImpl.unregisterShortcut Examples.ctrlK
            (snd (KeyboardManagerImpl.registerShortcut "file.save"
                    Examples.ctrlK None (Examples.keyboard []))))
     = Examples.keyboard [].
Proof.
  assert (H : KeyboardManagerImpl.isShortcutAvailable Examples.ctrlK
                (KeyboardManagerImpl.self (Examples.keyboard [])) = true)
    by reflexivity.
  pose proof (registerShortcut_fresh_roundtrip (Examples.keyboard [])
                "file.save" Examples.ctrlK None H)
    as [Hbusy [_ [_ [_ Hback]]]].
  exact (conj H (conj Hbusy Hback)).
Defined.

Lemma table_stays_keyed_witness :
  let w := snd (KeyboardManagerImpl.registerShortcut "file.save"
                  Examples.ctrlK None (Examples.keyboard [Examples.rival])) in
  WellFormed.Keyed (KeyboardManagerImpl.self w)
  /\ WellFormed.Keyed
       (KeyboardManagerImpl.self
          (snd (KeyboardManagerImpl.registerCommandShortcuts w))).
Proof.
  intros w.
  assert (H : WellFormed.Keyed (KeyboardManagerImpl.self w)).
  { split; [distinct_keys | repeat constructor]. }
  pose proof (proj2 (@table_stays_keyed Z string Z) w H) as [_ [_ Hbulk]].
  exact (conj H Hbulk).
Defined.

Lemma unregisterShortcut_frees_witness :
  let w := snd (KeyboardManagerImpl.registerShortcut "file.save"
                  Examples.ctrlK None (Examples.keyboard [])) in
  WellFormed.Keyed (KeyboardManagerImpl.self w)
  /\ KeyboardManagerImpl.isShortcutAvailable Examples.ctrlBigK
       (KeyboardManagerImpl.self
          (snd (KeyboardManagerImpl.unregisterShortcut Examples.ctrlBigK w)))
     = true.
Proof.
  intros w.
  assert (H : WellFormed.Keyed (KeyboardManagerImpl.self w)).
  { split; [distinct_keys | repeat constructor]. }
  pose proof (unregisterShortcut_frees w Examples.ctrlBigK H)
    as [_ [Hfree _]].
  exact (conj H Hfree).
Defined.

Lemma handleKeyDown_inert_witness :
  let d := Examples.keydown (Examples.press "k" true false false false)
             "TEXTAREA" in
  KeyDown.targetTagName d = "TEXTAREA"
  /\ KeyboardDispatch.handleKeyDown d
       (Examples.dispatcher [Examples.saveK] true)
     = (Eff.Normal KeyboardDispatch.untouched,
        Examples.dispatcher [Examples.saveK] true)
  /\ KeyboardDispatch.handleKeyDown
       (Examples.keydown (Examples.press "k" true false false false) "DIV")
       (Examples.dispatcher [Examples.saveK] false)
     = (Eff.Normal KeyboardDispatch.untouched,
        Examples.dispatcher [Examples.saveK] false).
Proof.
  intros d.
  assert (H : KeyDown.targetTagName d = "TEXTAREA") by reflexivity.
  exact (conj H
           (conj (handleKeyDown_inert d
                    (Examples.dispatcher [Examples.saveK] true)
                    (or_intror (or_intror (or_introl H))))
                 (handleKeyDown_inert
                    (Examples.keydown
                       (Examples.press "k" true false false false) "DIV")
                    (Examples.dispatcher [Examples.saveK] false)
                    (or_introl eq_refl)))).
Defined.



Lemma handleKeyDown_forward_witness :
  let w := Examples.dispatcher [Examples.saveK] true in
  let d := Examples.keydown (Examples.press "k" true true false false)
             "DIV" in
  KeyboardDispatch.firstMatch
    (JSMap.values
       (KeyboardManagerImpl.keyBindings
          (KeyboardManagerImpl.self (KeyboardDispatch.manager w))))
    (KeyDown.event d)
    (Host.ext (KeyboardManagerImpl.host (KeyboardDispatch.manager w)))
  = None
  /\ fst (KeyboardDispatch.handleKeyDown d w)
     = Eff.Normal KeyboardDispatch.untouched
  /\ KeyboardDispatch.heard (snd (KeyboardDispatch.handleKeyDown d w))
     = [1%nat; 2%nat].
Proof.
  intros w d.
  assert (H : KeyboardDispatch.firstMatch
                (JSMap.values
                   (KeyboardManagerImpl.keyBindings
                      (KeyboardManagerImpl.self (KeyboardDispatch.manager w))))
                (KeyDown.event d)
                (Host.ext
                   (KeyboardManagerImpl.host (KeyboardDispatch.manager w)))
              = None) by reflexivity.
  pose proof (handleKeyDown_forward d w eq_refl eq_refl H)
    as [Hn [Hheard _]].
  exact (conj H (conj Hn Hheard)).
Defined.

(** ** The command palette *)

Section PaletteFacts.
Context {Args Err Ext : Type}.
Import CommandPalette.

Local Abbreviation Command := (Command.t Args Err Ext).
Local Abbreviation count l := (Z.of_nat (List.length l)).

(** X22.  A key press keeps a selection that is within the result list
    within it; it asks to execute a command only on Enter, and then the
    command at the selected index, which must exist; and on an empty result
    list ArrowDown moves the selection to -1. *)
Theorem palette_navigation (key : string) (shiftKey : bool)
    (filteredCommands : list Command) (selected : Z) :
  let r := handleKeyDown key shiftKey filteredCommands selected in
  (0 <= selected < count filteredCommands ->
   0 <= selectedIndex r < count filteredCommands)
  /\ (forall command,
        request r = Execute command ->
        key = "Enter"
        /\ 0 <= selected < count filteredCommands
        /\ nth_error filteredCommands (Z.to_nat selected) = Some command)
  /\ (filteredCommands = [] -> selected = 0 -> key = "ArrowDown" ->
      selectedIndex r = -1).
Proof.
  intros r. unfold r, handleKeyDown, selectNext, selectPrevious.
  split; [|split].
  - intros Hsel.
    destruct (String.eqb key "Escape"); [exact Hsel|].
    destruct (String.eqb key "ArrowDown"); [cbn; lia|].
    destruct (String.eqb key "ArrowUp"); [cbn; lia|].
    destruct (String.eqb key "Enter"); [exact Hsel|].
    destruct (String.eqb key "Tab"); [|exact Hsel].
    destruct shiftKey; cbn; lia.
  - intros command.
    destruct (String.eqb key "Escape"); [discriminate|].
    destruct (String.eqb key "ArrowDown"); [discriminate|].
    destruct (String.eqb key "ArrowUp"); [discriminate|].
    destruct (String.eqb_spec key "Enter") as [->|Hne].
    + cbn [request]. unfold itemAt.
      destruct (Z.ltb_spec selected 0) as [Hneg|Hpos]; [discriminate|].
      destruct (nth_error filteredCommands (Z.to_nat selected)) as [c|] eqn:E;
        [|discriminate].
      intros H. injection H as <-.
      assert (Hlt : (Z.to_nat selected < List.length filteredCommands)%nat).
      { apply nth_error_Some. now rewrite E. }
      split; [reflexivity|]. split; [lia | reflexivity].
    + destruct (String.eqb key "Tab"); discriminate.
  - intros -> -> ->. reflexivity.
Qed.

(** X23.  The results the palette shows are the first entries, in the order
    of [search], of the search result restricted to the given categories
    (when a non-empty list is given): each is a search result of one of these
    categories, and at most [maxResults] are shown. *)
Theorem palette_results (localeCompare : string -> string -> Z)
    (categories : list CommandCategory.t) (maxResults : Z)
    (searchQuery : string) (r : CommandRegistryImpl.t Args Err Ext) :
  categories <> [] -> 0 <= maxResults ->
  let shown := searchCommands localeCompare (Some categories) maxResults
                 searchQuery r in
  (exists rest,
      filter (fun cmd => existsb (CommandCategory.eqb (Command.category cmd))
                                 categories)
             (CommandRegistryImpl.search localeCompare searchQuery r)
      = (shown ++ rest)%list)
  /\ count shown <= maxResults
  /\ (forall c, In c shown ->
                In c (CommandRegistryImpl.search localeCompare searchQuery r)
                /\ In (Command.category c) categories).
Proof.
  intros Hcats Hmax shown. unfold shown, searchCommands.
  assert (Hlen : (0 <? count categories) = true).
  { apply Z.ltb_lt. destruct categories; [contradiction|cbn; lia]. }
  rewrite Hlen.
  set (filtered := filter _ _).
  replace maxResults with (Z.of_nat (Z.to_nat maxResults)) by lia.
  rewrite slice0_count.
  split; [|split].
  - exists (skipn (Z.to_nat maxResults) filtered).
    symmetry. apply firstn_skipn.
  - pose proof (firstn_le_length (Z.to_nat maxResults) filtered).
    pose proof (length_firstn (Z.to_nat maxResults) filtered). lia.
  - intros c Hin.
    assert (Hf : In c filtered).
    { rewrite <- (firstn_skipn (Z.to_nat maxResults) filtered).
      apply in_or_app. now left. }
    unfold filtered in Hf. apply filter_In in Hf. destruct Hf as [Hs Hc].
    split; [exact Hs|]. apply existsb_exists in Hc.
    destruct Hc as [cat [Hcat E]]. apply category_eqb_eq in E.
    now rewrite E.
Qed.

(** X24.  The palette's [executeCommand] never throws.  It calls [onClose]
    exactly when the registry's [executeCommand] returns normally, which
    includes an id that is not registered and a refused command; when the
    command's callback fails, the error is logged and the palette stays
    open. *)
Theorem palette_execute (command : Command)
    (w : CommandRegistryImpl.World Args Err Ext) :
  let inner := CommandRegistryImpl.executeCommand (Command.id command) None
                 (Some Source.palette) w in
  (fst inner = Eff.Normal tt ->
   executeCommand command w = (Eff.Normal true, snd inner))
  /\ (forall e,
        fst inner = Eff.Throw e ->
        executeCommand command w
        = (Eff.Normal false,
           CommandRegistryImpl.logged (snd inner)
             [Host.Log Host.error "Failed to execute command:" (Some e)]
             (Host.ext (CommandRegistryImpl.host (snd inner))))
        /\ CommandRegistryImpl.history (CommandRegistryImpl.self (snd inner))
           = CommandRegistryImpl.history (CommandRegistryImpl.self w))
  /\ (CommandRegistryImpl.get (Command.id command)
        (CommandRegistryImpl.self w) = None ->
      fst (executeCommand command w) = Eff.Normal true).
Proof.
  intros inner.
  assert (Hpal :
    executeCommand command w
    = match fst inner with
      | Eff.Normal _ => (Eff.Normal true, snd inner)
      | Eff.Throw e =>
          (Eff.Normal false,
           CommandRegistryImpl.logged (snd inner)
             [Host.Log Host.error "Failed to execute command:" (Some e)]
             (Host.ext (CommandRegistryImpl.host (snd inner))))
      end).
  { unfold inner, executeCommand, Eff.tryCatch, Eff.bind,
      CommandRegistryImpl.consoleError, CommandRegistryImpl.emit,
      Eff.modify, Eff.ret, CommandRegistryImpl.logged.
    destruct (CommandRegistryImpl.executeCommand (Command.id command) None
                (Some Source.palette) w) as [[[]|e] w1]; reflexivity. }
  pose proof (executeCommand_run w (Command.id command) None
                (Some Source.palette)) as Hrun.
  split; [|split].
  - intros H. now rewrite Hpal, H.
  - intros e H. split; [now rewrite Hpal, H|].
    unfold inner in *. rewrite Hrun in H |- *.
    destruct (CommandRegistryImpl.get (Command.id command)
                (CommandRegistryImpl.self w)) as [c|]; [|discriminate H].
    destruct (match CommandAction.canExecute (Command.action c) with
              | Some canExecute =>
                  negb (canExecute (Host.ext (CommandRegistryImpl.host w)))
              | None => false
              end); [discriminate H|].
    destruct (CommandAction.execute (Command.action c) None
                (Host.ext (CommandRegistryImpl.host w)))
      as [ext1 [e'|]]; [reflexivity|].
    exfalso.
    destruct (notifyAll_run c None
                (CommandRegistryImpl.listeners (CommandRegistryImpl.self w))
                (CommandRun.executed w (Command.id command) None
                   (Some Source.palette) ext1)) as [Hn _].
    cbv zeta in Hn. rewrite Hn in H. discriminate H.
  - intros Hnone. rewrite Hpal. unfold inner. rewrite Hrun, Hnone.
    reflexivity.
Qed.

End PaletteFacts.

Lemma palette_navigation_witness :
  let shown : list Examples.Cmd := [Examples.save; Examples.saveAs] in
  0 <= 1 < Z.of_nat (List.length shown)
  /\ CommandPalette.selectedIndex
       (CommandPalette.handleKeyDown "ArrowDown" false shown 1) = 1
  /\ CommandPalette.request
       (CommandPalette.handleKeyDown "Enter" false shown 1)
     = CommandPalette.Execute Examples.saveAs
  /\ nth_error shown (Z.to_nat 1) = Some Examples.saveAs
  /\ CommandPalette.selectedIndex
       (CommandPalette.handleKeyDown "ArrowDown" false
          (@nil Examples.Cmd) 0) = -1.
Proof.
  intros shown.
  assert (H : 0 <= 1 < Z.of_nat (List.length shown)) by (cbn; lia).
  assert (Hreq : CommandPalette.request
                   (CommandPalette.handleKeyDown "Enter" false shown 1)
                 = CommandPalette.Execute Examples.saveAs) by reflexivity.
  pose proof (palette_navigation "ArrowDown" false shown 1) as [Hin _].
  pose proof (palette_navigation "Enter" false shown 1) as [_ [Hex _]].
  pose proof (palette_navigation "ArrowDown" false (@nil Examples.Cmd) 0)
    as [_ [_ Hempty]].
  refine (conj H (conj _ (conj Hreq (conj _ _)))).
  - reflexivity.
  - exact (proj2 (proj2 (Hex Examples.saveAs Hreq))).
  - exact (Hempty eq_refl eq_refl eq_refl).
Defined.

Lemma palette_results_witness :
  let r := Examples.registryOf
             [Examples.save; Examples.saveAs; Examples.saveFile;
              Examples.gated] in
  [CommandCategory.file] <> []
  /\ 0 <= 2
  /\ Z.of_nat
       (List.length
          (CommandPalette.searchCommands Examples.collate
             (Some [CommandCategory.file]) 2 "a" r)) <= 2.
Proof.
  intros r.
  assert (H1 : [CommandCategory.file] <> []) by discriminate.
  assert (H2 : 0 <= 2) by lia.
  pose proof (palette_results Examples.collate [CommandCategory.file] 2 "a"
                r H1 H2) as [_ [Hlen _]].
  exact (conj H1 (conj H2 Hlen)).
Defined.

Lemma palette_execute_witness :
  let w := Examples.observedBy [Examples.observer 1]
             [Examples.broken; Examples.gated] in
  fst (CommandRegistryImpl.executeCommand "debug.broken" None
         (Some Source.palette) w) = Eff.Throw "boom"
  /\ fst (CommandPalette.executeCommand Examples.broken w)
     = Eff.Normal false
  /\ fst (CommandRegistryImpl.executeCommand "edit.gated" None
            (Some Source.palette) w) = Eff.Normal tt
  /\ fst (CommandPalette.executeCommand Examples.gated w) = Eff.Normal true.
Proof.
  intros w.
  assert (H1 : fst (CommandRegistryImpl.executeCommand "debug.broken" None
                      (Some Source.palette) w) = Eff.Throw "boom")
    by reflexivity.
  assert (H2 : fst (CommandRegistryImpl.executeCommand "edit.gated" None
                      (Some Source.palette) w) = Eff.Normal tt)
    by reflexivity.
  pose proof (palette_execute Examples.broken w) as [_ [Hthrow _]].
  pose proof (palette_execute Examples.gated w) as [Hnormal _].
  exact (conj H1 (conj (f_equal fst (proj1 (Hthrow "boom" H1)))
           (conj H2 (f_equal fst (Hnormal H2))))).
Defined.

(** ** Reading the history *)

Section RecentFacts.
Context {Args : Type}.
Import CommandHistoryImpl.

(** X25.  For every integer [count], [getRecent(count)] is a prefix of the
    stored entries: the first [count] of them, all of them when [count]
    exceeds their number, and, for a negative [count], all but the last
    [-count]; it never fails, and after [clear] it is empty. *)
Theorem getRecent_prefix (count : Z) (h : t Args) :
  let stored := Z.of_nat (List.length (entries h)) in
  (exists rest, entries h = (getRecent count h ++ rest)%list)
  /\ Z.of_nat (List.length (getRecent count h))
     = (if count <? 0 then Z.max (stored + count) 0 else Z.min count stored)
  /\ (stored <= count -> getRecent count h = entries h)
  /\ getRecent count (clear h) = [].
Proof.
  intros stored. unfold getRecent, JSArray.slice0. fold stored.
  set (stop := if count <? 0 then Z.max (stored + count) 0
               else Z.min count stored).
  assert (Hstop : 0 <= stop <= stored).
  { unfold stop, stored. destruct (Z.ltb_spec count 0); lia. }
  split; [|split; [|split]].
  - exists (skipn (Z.to_nat stop) (entries h)). symmetry.
    apply firstn_skipn.
  - rewrite length_firstn. unfold stored in *. lia.
  - intros Hall. apply firstn_all2. unfold stop.
    destruct (Z.ltb_spec count 0); unfold stored in *; lia.
  - cbn [clear entries]. apply firstn_nil.
Qed.

End RecentFacts.

(** ** Execution statistics *)

Section SortedOn.
Context {A : Type}.
Variable cmp : A -> A -> Z.

(** Sortedness of [sort] needs the comparator to be total and transitive
    only on the elements of the array. *)
Lemma insert_sorted_on (P : A -> Prop) (x : A) (l : list A) :
  (forall a b, P a -> P b ->
               JSArray.before cmp a b \/ JSArray.before cmp b a) ->
  (forall a b c, P a -> P b -> P c ->
                 JSArray.before cmp a b -> JSArray.before cmp b c ->
                 JSArray.before cmp a c) ->
  P x -> Forall P l ->
  StronglySorted (JSArray.before cmp) l ->
  StronglySorted (JSArray.before cmp) (JSArray.insert cmp x l).
Proof.
  intros Htot Htr Hx HP Hs. induction Hs as [|y r Hr IH Hy]; simpl.
  - repeat constructor.
  - inversion HP as [|? ? Py Pr]; subst.
    destruct (Z.leb_spec (cmp x y) 0) as [Hxy|Hxy].
    + constructor; [now constructor|].
      constructor; [exact Hxy|].
      rewrite Forall_forall in *. intros z Hz.
      apply Htr with y; auto.
    + constructor; [now apply IH|].
      assert (Hyx : JSArray.before cmp y x).
      { destruct (Htot x y Hx Py) as [H|H];
          [unfold JSArray.before in H; lia | exact H]. }
      eapply Permutation_Forall; [symmetry; apply insert_perm|].
      now constructor.
Qed.

Lemma sort_sorted_on (P : A -> Prop) (l : list A) :
  (forall a b, P a -> P b ->
               JSArray.before cmp a b \/ JSArray.before cmp b a) ->
  (forall a b c, P a -> P b -> P c ->
                 JSArray.before cmp a b -> JSArray.before cmp b c ->
                 JSArray.before cmp a c) ->
  Forall P l ->
  StronglySorted (JSArray.before cmp) (JSArray.sort cmp l).
Proof.
  intros Htot Htr HP. induction HP as [|x r Hx Hr IH]; simpl.
  - constructor.
  - apply (insert_sorted_on P); auto.
    eapply Permutation_Forall; [symmetry; apply sort_perm | exact Hr].
Qed.

End SortedOn.

Lemma StronglySorted_firstn {A : Type} (R : A -> A -> Prop) (n : nat)
    (l : list A) :
  StronglySorted R l -> StronglySorted R (firstn n l).
Proof.
  intros H. revert n. induction H as [|x l Hl IH Hx]; intros [|n]; cbn;
    try constructor.
  - apply IH.
  - rewrite Forall_forall in *. intros y Hy. apply Hx.
    rewrite <- (firstn_skipn n l). apply in_or_app. now left.
Qed.

Section StatsFacts.
Context {Args Err Ext : Type}.
Import ExecutionStats.

Local Abbreviation Registry := (CommandRegistryImpl.t Args Err Ext).
Local Abbreviation Entry := (CommandExecutionContext.t Args).
Local Abbreviation idOf := (@CommandExecutionContext.commandId Args).
Local Abbreviation tally id l :=
  (Z.of_nat (List.length
               (filter (fun entry : Entry => String.eqb (idOf entry) id) l))).
Local Abbreviation collect l stats :=
  (fold_left (fun stats (entry : Entry) => bump (idOf entry) stats) l stats).

Lemma bump_get (k id : string) (stats : JSMap.t Value) :
  JSObject.inherited k = false ->
  JSMap.get id (bump k stats)
  = if String.eqb k id
    then match JSMap.get id stats with
         | Some (Count n) => Some (Count (n + 1))
         | Some Text => Some Text
         | None => Some (Count 1)
         end
    else JSMap.get id stats.
Proof.
  intros Hk. unfold bump. rewrite Hk.
  destruct (String.eqb_spec k id) as [->|Hne].
  - destruct (JSMap.get id stats) as [[n|]|]; apply get_set_same.
  - destruct (JSMap.get k stats) as [[n|]|];
      apply get_set_other; congruence.
Qed.

Lemma keys_set_present {V : Type} (k : string) (v : V) (m : JSMap.t V) :
  JSMap.has k m = true -> JSMap.keys (JSMap.set k v m) = JSMap.keys m.
Proof.
  unfold JSMap.has. induction m as [|[k' v'] m IH]; cbn; [discriminate|].
  destruct (String.eqb k k'); cbn; [reflexivity|].
  intros H. f_equal. now apply IH.
Qed.

Lemma NoDup_keys_set {V : Type} (k : string) (v : V) (m : JSMap.t V) :
  NoDup (JSMap.keys m) -> NoDup (JSMap.keys (JSMap.set k v m)).
Proof.
  intros Hnd. destruct (JSMap.has k m) eqn:Hhas.
  - now rewrite keys_set_present.
  - now apply NoDup_keys_set_fresh.
Qed.

Lemma bump_keys (k : string) (stats : JSMap.t Value) :
  NoDup (JSMap.keys stats) -> NoDup (JSMap.keys (bump k stats)).
Proof.
  intros Hnd. unfold bump.
  destruct (JSMap.get k stats) as [[n|]|]; try now apply NoDup_keys_set.
  destruct (JSObject.inherited k); [|now apply NoDup_keys_set].
  destruct (String.eqb k "__proto__"); [exact Hnd | now apply NoDup_keys_set].
Qed.

Lemma collect_keys (l : list Entry) :
  forall stats, NoDup (JSMap.keys stats) ->
                NoDup (JSMap.keys (collect l stats)).
Proof.
  induction l as [|e l IH]; intros stats Hnd; [exact Hnd|].
  cbn [fold_left]. now apply IH, bump_keys.
Qed.

Lemma collect_get (l : list Entry) :
  forall (stats : JSMap.t Value) (id : string),
    Forall (fun entry => JSObject.inherited (idOf entry) = false) l ->
    JSMap.get id (collect l stats)
    = match JSMap.get id stats with
      | Some (Count n) => Some (Count (n + tally id l))
      | Some Text => Some Text
      | None => if tally id l =? 0 then None else Some (Count (tally id l))
      end.
Proof.
  induction l as [|e l IH]; intros stats id Hplain.
  - cbn. destruct (JSMap.get id stats) as [[n|]|]; try reflexivity.
    now rewrite Z.add_0_r.
  - inversion Hplain as [|? ? He Hl]; subst.
    cbn [fold_left]. rewrite (IH _ id Hl), (bump_get _ id _ He).
    cbn [filter].
    destruct (String.eqb (idOf e) id); [|reflexivity].
    cbn [List.length].
    destruct (JSMap.get id stats) as [[n|]|]; try reflexivity.
    + f_equal. f_equal. lia.
    + destruct (Z.eqb_spec (Z.of_nat (S (List.length
                  (filter (fun entry : Entry => String.eqb (idOf entry) id)
                          l)))) 0) as [H|H]; [lia|].
      f_equal. f_equal. lia.
Qed.

Lemma stats_get (r : Registry) (id : string) :
  plainIds r ->
  JSMap.get id (getExecutionStats r)
  = if uses id r =? 0 then None else Some (Count (uses id r)).
Proof.
  intros Hplain. unfold getExecutionStats, uses.
  now rewrite (collect_get _ JSMap.empty id Hplain).
Qed.

(** X26.  When no id in the history names a property of [Object.prototype],
    [getExecutionStats] holds, for every id that occurs in the history, the
    number of its records, and has no entry for any other id. *)
Theorem getExecutionStats_counts (r : Registry) (id : string) :
  plainIds r ->
  JSMap.get id (getExecutionStats r)
  = if uses id r =? 0 then None else Some (Count (uses id r)).
Proof.
  apply stats_get.
Qed.

Lemma stats_entry (r : Registry) (kv : string * Value) :
  plainIds r -> In kv (getExecutionStats r) ->
  snd kv = Count (uses (fst kv) r) /\ 0 < uses (fst kv) r.
Proof.
  intros Hplain Hin. destruct kv as [k v]. cbn [fst snd].
  assert (Hnd : NoDup (JSMap.keys (getExecutionStats r))).
  { unfold getExecutionStats. apply collect_keys. constructor. }
  pose proof (get_In_NoDup k v _ Hnd Hin) as Hget.
  rewrite (stats_get r k Hplain) in Hget.
  destruct (Z.eqb_spec (uses k r) 0) as [Hz|Hnz]; [discriminate|].
  injection Hget as <-. split; [reflexivity|]. unfold uses in *. lia.
Qed.

Lemma entries_In {V : Type} (o : JSMap.t V) (kv : string * V) :
  In kv (JSObject.entries o) -> In kv o.
Proof.
  unfold JSObject.entries. intros Hin. apply in_app_or in Hin.
  destruct Hin as [Hin|Hin].
  - apply sort_In, filter_In in Hin. tauto.
  - apply filter_In in Hin. tauto.
Qed.

Lemma In_defined_map {A B : Type} (f : A -> option B) (l : list A) (b : B) :
  In b (defined (map f l)) <-> exists x, In x l /\ f x = Some b.
Proof.
  induction l as [|a l IH]; cbn.
  - split; [easy | now intros [x [[] _]]].
  - destruct (f a) as [b'|] eqn:E; cbn; rewrite IH; split.
    + intros [<-|[x [Hx Hf]]]; [now exists a; auto | exists x; auto].
    + intros [x [[<-|Hx] Hf]]; [left; congruence | right; now exists x].
    + intros [x [Hx Hf]]. exists x; auto.
    + intros [x [[<-|Hx] Hf]]; [congruence | now exists x].
Qed.

Lemma defined_map_length {A B : Type} (f : A -> option B) (l : list A) :
  (List.length (defined (map f l)) <= List.length l)%nat.
Proof.
  induction l as [|a l IH]; cbn; [lia|].
  destruct (f a); cbn; lia.
Qed.

Lemma defined_map_sorted {A B : Type} (R : A -> A -> Prop)
    (S : B -> B -> Prop) (f : A -> option B) (l : list A) :
  (forall x y a b, In x l -> In y l -> R x y ->
                   f x = Some a -> f y = Some b -> S a b) ->
  StronglySorted R l -> StronglySorted S (defined (map f l)).
Proof.
  intros HRS H. induction H as [|x l Hl IH Hx]; cbn; [constructor|].
  assert (IH' : StronglySorted S (defined (map f l))).
  { apply IH. intros a b c d Ha Hb. apply HRS; now right. }
  destruct (f x) as [b|] eqn:E; [|exact IH'].
  constructor; [exact IH'|].
  rewrite Forall_forall in *. intros c Hc.
  apply In_defined_map in Hc. destruct Hc as [y [Hy Hf]].
  apply (HRS x y); auto; now (left + right).
Qed.

Lemma indexed_get_id (r : Registry) (k : string)
    (c : Command.t Args Err Ext) :
  WellFormed.Indexed r -> CommandRegistryImpl.get k r = Some c ->
  Command.id c = k.
Proof.
  intros [_ Hkeys]. unfold CommandRegistryImpl.get.
  induction (CommandRegistryImpl.commands r) as [|[k' v'] m IH]; cbn;
    [discriminate|].
  inversion Hkeys as [|? ? Hk Hm]; subst. cbn in Hk.
  destruct (String.eqb_spec k k') as [->|Hne]; [|now apply IH].
  intros E. injection E as <-. now symmetry.
Qed.

(** X27.  When no id in the history names a property of [Object.prototype]
    and the registry is well formed, [getMostUsedCommands(count)] returns at
    most [count] commands; each is registered, hidden or not, and has been
    executed at least once according to the history; and they come in
    descending order of their number of records. *)
Theorem getMostUsedCommands_ranking (count : Z) (r : Registry) :
  plainIds r -> WellFormed.Indexed r -> 0 <= count ->
  (forall c, In c (getMostUsedCommands count r) ->
             CommandRegistryImpl.get (Command.id c) r = Some c
             /\ 0 < uses (Command.id c) r)
  /\ Z.of_nat (List.length (getMostUsedCommands count r)) <= count
  /\ StronglySorted
       (fun a b => uses (Command.id b) r <= uses (Command.id a) r)
       (getMostUsedCommands count r).
Proof.
  intros Hplain Hidx Hcount. unfold getMostUsedCommands.
  set (sorted := JSArray.sort byCount (JSObject.entries (getExecutionStats r))).
  assert (Hslice : JSArray.slice0 sorted count
                   = firstn (Z.to_nat count) sorted).
  { rewrite <- (slice0_count sorted (Z.to_nat count)). f_equal. lia. }
  rewrite Hslice. clear Hslice.
  assert (Hstat : forall kv, In kv sorted ->
                    snd kv = Count (uses (fst kv) r) /\ 0 < uses (fst kv) r).
  { intros kv Hin. apply stats_entry; [exact Hplain|].
    apply entries_In. now apply sort_In in Hin. }
  assert (Htop : forall kv, In kv (firstn (Z.to_nat count) sorted) ->
                            In kv sorted).
  { intros kv Hin. rewrite <- (firstn_skipn (Z.to_nat count) sorted).
    apply in_or_app. now left. }
  split; [|split].
  - intros c Hin. apply In_defined_map in Hin.
    destruct Hin as [kv [Hkv Hget]].
    pose proof (indexed_get_id r _ c Hidx Hget) as Hid.
    rewrite Hid. split; [exact Hget|]. exact (proj2 (Hstat kv (Htop kv Hkv))).
  - pose proof (defined_map_length
                  (fun kv : string * Value =>
                     CommandRegistryImpl.get (fst kv) r)
                  (firstn (Z.to_nat count) sorted)).
    pose proof (firstn_le_length (Z.to_nat count) sorted).
    pose proof (length_firstn (Z.to_nat count) sorted). lia.
  - apply (defined_map_sorted (JSArray.before byCount)).
    + intros x y a b Hx Hy Hxy Ha Hb.
      rewrite (indexed_get_id r _ a Hidx Ha), (indexed_get_id r _ b Hidx Hb).
      destruct (Hstat x (Htop x Hx)) as [Ex _].
      destruct (Hstat y (Htop y Hy)) as [Ey _].
      unfold JSArray.before, byCount in Hxy. rewrite Ex, Ey in Hxy. lia.
    + apply StronglySorted_firstn.
      apply (sort_sorted_on byCount
               (fun kv => exists n, snd kv = Count n)).
      * intros a b [n Ha] [m Hb]. unfold JSArray.before, byCount.
        rewrite Ha, Hb. lia.
      * intros a b c [n Ha] [m Hb] [k Hc]. unfold JSArray.before, byCount.
        rewrite Ha, Hb, Hc. lia.
      * apply Forall_forall. intros kv Hin.
        exists (uses (fst kv) r). apply stats_entry; [exact Hplain|].
        now apply entries_In.
Qed.

End StatsFacts.

Lemma getRecent_prefix_witness :
  let h := CommandHistoryImpl.afterAdds (Examples.records 3)
             CommandHistoryImpl.new in
  Z.of_nat (List.length (CommandHistoryImpl.entries h)) <= 10
  /\ CommandHistoryImpl.getRecent 10 h = map Examples.record [3; 2; 1]
  /\ Z.of_nat (List.length (CommandHistoryImpl.getRecent (-1) h)) = 2.
Proof.
  intros h.
  assert (H : Z.of_nat (List.length (CommandHistoryImpl.entries h)) <= 10)
    by (cbn; lia).
  pose proof (getRecent_prefix 10 h) as [_ [_ [Hall _]]].
  pose proof (getRecent_prefix (-1) h) as [_ [Hlen _]].
  exact (conj H (conj (Hall H) Hlen)).
Defined.

Lemma getExecutionStats_counts_witness :
  ExecutionStats.plainIds Examples.busy
  /\ JSMap.get "file.save" (ExecutionStats.getExecutionStats Examples.busy)
     = Some (ExecutionStats.Count 2)
  /\ JSMap.get "edit.gated" (ExecutionStats.getExecutionStats Examples.busy)
     = None.
Proof.
  assert (H : ExecutionStats.plainIds Examples.busy)
    by (repeat constructor).
  exact (conj H (conj (getExecutionStats_counts Examples.busy "file.save" H)
                      (getExecutionStats_counts Examples.busy "edit.gated"
                         H))).
Defined.

Lemma getMostUsedCommands_ranking_witness :
  ExecutionStats.plainIds Examples.busy
  /\ WellFormed.Indexed Examples.busy
  /\ 0 <= 5
  /\ ExecutionStats.getMostUsedCommands 5 Examples.busy
     = [Examples.save; Examples.saveAs]
  /\ StronglySorted
       (fun a b => ExecutionStats.uses (Command.id b) Examples.busy
                   <= ExecutionStats.uses (Command.id a) Examples.busy)
       (ExecutionStats.getMostUsedCommands 5 Examples.busy).
Proof.
  assert (H1 : ExecutionStats.plainIds Examples.busy)
    by (repeat constructor).
  assert (H2 : WellFormed.Indexed Examples.busy).
  { split; [distinct_keys | repeat constructor]. }
  assert (H3 : 0 <= 5) by lia.
  pose proof (getMostUsedCommands_ranking 5 Examples.busy H1 H2 H3)
    as [_ [_ Hsorted]].
  exact (conj H1 (conj H2 (conj H3 (conj eq_refl Hsorted)))).
Defined.

(** ** Subscribing observers *)

Section SubscriptionFacts.
Context {Args Err Ext : Type}.
Import CommandRegistryImpl.

Local Abbreviation World := (CommandRegistryImpl.World Args Err Ext).
Local Abbreviation Listener := (CommandRegistryImpl.Listener Args Err Ext).
Local Abbreviation known l ls :=
  (existsb (fun l' : Listener => Nat.eqb (handle l') (handle l)) ls).

Lemma known_In (l : Listener) (ls : list Listener) :
  known l ls = true <-> In (handle l) (map handle ls).
Proof.
  rewrite existsb_exists, in_map_iff. split.
  - intros [x [Hx E]]. apply Nat.eqb_eq in E. now exists x.
  - intros [x [E Hx]]. exists x. split; [exact Hx | now apply Nat.eqb_eq].
Qed.

Lemma filter_unknown (l : Listener) (ls : list Listener) :
  known l ls = false ->
  filter (fun l' : Listener => negb (Nat.eqb (handle l') (handle l))) ls = ls.
Proof.
  induction ls as [|x ls IH]; cbn; [reflexivity|].
  destruct (Nat.eqb (handle x) (handle l)); cbn; [discriminate|].
  intros H. now rewrite IH.
Qed.

(** X28.  Subscribing an observer that is already subscribed changes
    nothing; subscribing a new one puts it last, and the capability
    [onCommandExecute] returns then gives back the state before; observers
    stay distinct; and [clear] of the registry keeps them subscribed. *)
Theorem onCommandExecute_set (w : World) (l : Listener) :
  snd (onCommandExecute l (snd (onCommandExecute l w)))
  = snd (onCommandExecute l w)
  /\ (known l (listeners (self w)) = false ->
      listeners (self (snd (onCommandExecute l w)))
      = (listeners (self w) ++ [l])%list
      /\ snd (unsubscribe l (snd (onCommandExecute l w))) = w)
  /\ (WellFormed.DistinctObservers (self w) ->
      WellFormed.DistinctObservers (self (snd (onCommandExecute l w))))
  /\ listeners (self (snd (clear w))) = listeners (self w).
Proof.
  unfold onCommandExecute, unsubscribe, setListeners, Eff.modify.
  cbn [snd self listeners commands history host].
  split; [|split; [|split]].
  - destruct (known l (listeners (self w))) eqn:Hk; cbn [listeners].
    + now rewrite Hk.
    + assert (Hk' : known l (listeners (self w) ++ [l]) = true).
      { rewrite existsb_app. cbn. rewrite Nat.eqb_refl.
        now rewrite orb_true_r. }
      now rewrite Hk'.
  - intros Hk. rewrite Hk. split; [reflexivity|].
    rewrite filter_app, (filter_unknown l _ Hk). cbn.
    rewrite Nat.eqb_refl. cbn. rewrite app_nil_r.
    now destruct w as [[cs h ls] hst].
  - unfold WellFormed.DistinctObservers. cbn [listeners]. intros Hnd.
    destruct (known l (listeners (self w))) eqn:Hk; [exact Hnd|].
    rewrite map_app. cbn.
    apply NoDup_app; [exact Hnd | repeat constructor; easy |].
    intros x Hx [<-|[]].
    apply known_In in Hx. congruence.
  - reflexivity.
Qed.

End SubscriptionFacts.

(** ** Reverse lookup of shortcuts *)

Section ReverseFacts.
Context {Ext : Type}.
Import KeyboardManagerImpl.

(** X29.  In a well-formed table, the combination [getShortcutForCommand]
    reports for a command is bound, in the table, to that command: it is not
    available for another registration. *)
Theorem getShortcutForCommand_bound (m : KeyboardManagerImpl.t Ext)
    (id : string) (sc : KeyboardShortcut.t) :
  WellFormed.Keyed m ->
  getShortcutForCommand id m = Some sc ->
  isShortcutAvailable sc m = false
  /\ exists binding,
       JSMap.get (generateShortcutKey sc) (keyBindings m) = Some binding
       /\ commandId binding = id
       /\ shortcut binding = sc.
Proof.
  intros [Hnd Hkeys]. unfold getShortcutForCommand.
  destruct (find _ (JSMap.values (keyBindings m))) as [b|] eqn:Hfind;
    [|discriminate].
  cbn. intros E. injection E as <-.
  apply find_some in Hfind. destruct Hfind as [Hin Hid].
  apply String.eqb_eq in Hid.
  unfold JSMap.values in Hin. apply in_map_iff in Hin.
  destruct Hin as [[k v] [Ev Hin]]. cbn in Ev. subst v.
  rewrite Forall_forall in Hkeys. pose proof (Hkeys _ Hin) as Hk.
  cbn in Hk. subst k.
  pose proof (get_In_NoDup _ _ _ Hnd Hin) as Hget.
  split.
  - unfold isShortcutAvailable, JSMap.has. now rewrite Hget.
  - now exists b.
Qed.

End ReverseFacts.

Lemma onCommandExecute_set_witness :
  let w := Examples.observedBy [Examples.observer 1] [Examples.save] in
  existsb (fun l' => Nat.eqb (CommandRegistryImpl.handle l') 2)
          (CommandRegistryImpl.listeners (CommandRegistryImpl.self w)) = false
  /\ snd (CommandRegistryImpl.unsubscribe (Examples.grumpy 2)
            (snd (CommandRegistryImpl.onCommandExecute (Examples.grumpy 2)
                    w))) = w
  /\ WellFormed.DistinctObservers (CommandRegistryImpl.self w)
  /\ WellFormed.DistinctObservers
       (CommandRegistryImpl.self
          (snd (CommandRegistryImpl.onCommandExecute (Examples.grumpy 2) w))).
Proof.
  intros w.
  assert (H1 : existsb (fun l' => Nat.eqb (CommandRegistryImpl.handle l') 2)
                 (CommandRegistryImpl.listeners (CommandRegistryImpl.self w))
               = false) by reflexivity.
  assert (H2 : WellFormed.DistinctObservers (CommandRegistryImpl.self w)).
  { unfold WellFormed.DistinctObservers. cbn.
    constructor; [easy | constructor]. }
  pose proof (onCommandExecute_set w (Examples.grumpy 2))
    as [_ [Hnew [Hdist _]]].
  exact (conj H1 (conj (proj2 (Hnew H1)) (conj H2 (Hdist H2)))).
Defined.

Lemma getShortcutForCommand_bound_witness :
  let m := KeyboardManagerImpl.self
             (snd (KeyboardManagerImpl.registerCommandShortcuts
                     (Examples.keyboard [Examples.rival; Examples.saveK]))) in
  WellFormed.Keyed m
  /\ KeyboardManagerImpl.getShortcutForCommand "file.save" m
     = Some Examples.ctrlK
  /\ KeyboardManagerImpl.isShortcutAvailable Examples.ctrlK m = false.
Proof.
  intros m.
  assert (H1 : WellFormed.Keyed m).
  { split; [distinct_keys | repeat constructor]. }
  assert (H2 : KeyboardManagerImpl.getShortcutForCommand "file.save" m
               = Some Examples.ctrlK) by reflexivity.
  exact (conj H1 (conj H2
           (proj1 (getShortcutForCommand_bound m "file.save" Examples.ctrlK
                     H1 H2)))).
Defined.

(** ** Switching the shortcuts off and on *)

Section SwitchFacts.
Context {Args Err Ext : Type}.
Import KeyboardDispatch.

(** X30.  After [disable()], no key press has any effect, whatever the
    bindings and the target; [disable] leaves the binding table,
    the listeners and the registry alone; and [enable] after [disable] gives
    back an enabled manager as it was. *)
Theorem disable_blocks_keys (w : KeyboardDispatch.World Args Err Ext)
    (d : KeyDown.t) :
  handleKeyDown d (snd (disable w))
  = (Eff.Normal untouched, snd (disable w))
  /\ KeyboardManagerImpl.keyBindings
       (KeyboardManagerImpl.self (manager (snd (disable w))))
     = KeyboardManagerImpl.keyBindings (KeyboardManagerImpl.self (manager w))
  /\ KeyboardManagerImpl.commandRegistry (manager (snd (disable w)))
     = KeyboardManagerImpl.commandRegistry (manager w)
  /\ listeners (snd (disable w)) = listeners w
  /\ (KeyboardManagerImpl.isEnabled (KeyboardManagerImpl.self (manager w))
      = true ->
      snd (enable (snd (disable w))) = w).
Proof.
  split; [|split; [|split; [|split]]]; try reflexivity.
  intros Hen. unfold enable, disable, setManager, Eff.modify. cbn.
  destruct w as [[[kb en] reg hst] ls hd]. cbn in Hen. now subst en.
Qed.

End SwitchFacts.

Lemma disable_blocks_keys_witness :
  let w := Examples.dispatcher [Examples.saveK] true in
  let d := Examples.keydown (Examples.press "k" true false false false)
             "DIV" in
  KeyboardManagerImpl.isEnabled
    (KeyboardManagerImpl.self (KeyboardDispatch.manager w)) = true
  /\ fst (KeyboardDispatch.handleKeyDown d w)
     = Eff.Normal KeyboardDispatch.claimed
  /\ fst (KeyboardDispatch.handleKeyDown d (snd (KeyboardDispatch.disable w)))
     = Eff.Normal KeyboardDispatch.untouched
  /\ snd (KeyboardDispatch.enable (snd (KeyboardDispatch.disable w))) = w.
Proof.
  intros w d.
  assert (H : KeyboardManagerImpl.isEnabled
                (KeyboardManagerImpl.self (KeyboardDispatch.manager w))
              = true) by reflexivity.
  pose proof (disable_blocks_keys w d) as [Hoff [_ [_ [_ Hon]]]].
  exact (conj H (conj eq_refl (conj (f_equal fst Hoff) (Hon H)))).
Defined.
